(** * CTD_NetCDF_cruise_to_stations: splitting a cruise archive into stations

    A shallow embedding of [CTD_NetCDF_cruise_to_stations.py].  The script
    keeps every dataset as Python objects that refer to each other: attribute
    dictionaries and arrays live in a store and are reached through
    references, so copies and aliases are told apart.  Methods are programs of
    a state-and-exception monad over that store.

    Numbers are exact rationals ([Q]) with one extra value [NaN]; rounding of
    binary floating point is not represented.  What numpy, pandas, xarray and
    the clock print is kept abstract in the class [Formatting]. *)

From Stdlib Require Import ZArith QArith Qminmax Ascii.
From stdpp Require Import base strings list gmap.

Local Open Scope string_scope.
Local Open Scope list_scope.
Local Open Scope nat_scope.

(** ** Python values *)

(** An array element: a number, or the not-a-number that marks an empty cell. *)
Inductive sample := Num (q : Q) | NaN.

(** The value of an attribute: text, a number, or an array of strings (what
    [np.array] of a list of strings is). *)
Inductive attr_val :=
  | AStr (s : string)
  | ANum (x : sample)
  | AArr (l : list string).

(** An n-dimensional array.  One- and two-dimensional arrays carry their
    cells; of the others only the number of dimensions is kept: [Arr0] is a
    scalar array and [ArrN k] has [3 + k] dimensions. *)
Inductive ndarray :=
  | Arr0 (x : sample)
  | Arr1 (xs : list sample)
  | Arr2 (rows : list (list sample))
  | ArrN (k : nat).

Definition ndim (a : ndarray) : nat :=
  match a with
  | Arr0 _ => 0
  | Arr1 _ => 1
  | Arr2 _ => 2
  | ArrN k => 3 + k
  end.

(** Exceptions.  [SystemExit] is what [sys.exit(msg)] raises.  [BadRef] is not
    a Python exception: it stands for a reference to nothing, or to an object
    of the wrong kind, which no dataset built by the loader contains. *)
Inductive exn :=
  | KeyError (k : string)
  | ValueError
  | IndexError
  | TypeError
  | AttributeError
  | SystemExit (msg : string)
  | BadRef.

Inductive result (A : Type) :=
  | Ok (a : A)
  | Raise (e : exn).
Arguments Ok {A} a.
Arguments Raise {A} e.

Definition result_bind {A B} (r : result A) (f : A → result B) : result B :=
  match r with
  | Ok a => f a
  | Raise e => Raise e
  end.

Definition is_ok {A} (r : result A) : bool :=
  match r with Ok _ => true | Raise _ => false end.

(** ** Strings *)

Definition dquote : string := String (Ascii.ascii_of_nat 34) EmptyString.

(** [pat in s] *)
Fixpoint str_in (pat s : string) : bool :=
  String.prefix pat s ||
  match s with
  | EmptyString => false
  | String _ s' => str_in pat s'
  end.

(** [s.split(sep)] for a separator of one character *)
Fixpoint split_on (sep : ascii) (s : string) : list string :=
  match s with
  | EmptyString => [EmptyString]
  | String c s' =>
      if Ascii.eqb c sep then EmptyString :: split_on sep s'
      else match split_on sep s' with
           | t :: ts => String c t :: ts
           | [] => [String c EmptyString]
           end
  end.

(** [s.replace(old, new)] scans from the left and never looks inside what it
    has replaced.  [skip] counts the characters of a match still to drop. *)
Fixpoint replace_from (old new : string) (skip : nat) (s : string) : string :=
  match s with
  | EmptyString => EmptyString
  | String c s' =>
      match skip with
      | S k => replace_from old new k s'
      | O =>
          if String.prefix old s
          then new +:+ replace_from old new (String.length old - 1) s'
          else String c (replace_from old new 0 s')
      end
  end.

Fixpoint interleave (new s : string) : string :=
  match s with
  | EmptyString => new
  | String c s' => new +:+ String c (interleave new s')
  end.

Definition str_replace (old new s : string) : string :=
  match old with
  | EmptyString => interleave new s
  | String _ _ => replace_from old new 0 s
  end.

(** ** Numbers and sequences *)

(** [a < b] and [a == b] on array elements; every comparison with [NaN] is
    false. *)
Definition sample_lt (a b : sample) : bool :=
  match a, b with
  | Num x, Num y => negb (Qle_bool y x)
  | _, _ => false
  end.

Definition sample_eqb (a b : sample) : bool :=
  match a, b with
  | Num x, Num y => Qeq_bool x y
  | _, _ => false
  end.

(** The builtins [min] and [max] over an iterable: the first element is the
    candidate, a later one replaces it when it compares smaller (greater). *)
Definition py_min (xs : list sample) : result sample :=
  match xs with
  | [] => Raise ValueError
  | x :: r => Ok (fold_left (λ cur item, if sample_lt item cur then item else cur) r x)
  end.

Definition py_max (xs : list sample) : result sample :=
  match xs with
  | [] => Raise ValueError
  | x :: r => Ok (fold_left (λ cur item, if sample_lt cur item then item else cur) r x)
  end.

(** [xs.index(v)].  The elements of [list(pressures)] are fresh objects, so
    identity never decides and [==] does. *)
Fixpoint list_index (v : sample) (xs : list sample) : result nat :=
  match xs with
  | [] => Raise ValueError
  | x :: r =>
      if sample_eqb x v then Ok 0
      else result_bind (list_index v r) (λ i, Ok (S i))
  end.

(** [xs[i]] for an integer [i]: a negative index counts from the end. *)
Definition py_getitem {A} (xs : list A) (i : Z) : result A :=
  let n := Z.of_nat (length xs) in
  let j := if (i <? 0)%Z then (i + n)%Z else i in
  if ((0 <=? j) && (j <? n))%Z
  then match xs !! Z.to_nat j with
       | Some x => Ok x
       | None => Raise IndexError
       end
  else Raise IndexError.

(** [xs[i:j]] for indexes that are not negative *)
Definition py_slice {A} (i j : nat) (xs : list A) : list A :=
  take (j - i) (drop i xs).

(** An integer array element used as an index. *)
Definition index_of_sample (x : sample) : result Z :=
  match x with
  | Num q =>
      let r := Qred q in
      if Pos.eqb (Qden r) 1 then Ok (Qnum r) else Raise IndexError
  | NaN => Raise IndexError
  end.


(** [a + b] where [a] is a string literal or known to be a string *)
Definition py_concat (a : string) (b : attr_val) : result string :=
  match b with
  | AStr s => Ok (a +:+ s)
  | _ => Raise TypeError
  end.

(** ** The store *)

(** Python objects that the script shares or mutates are kept in a store and
    named by their position in it; a new object goes at the end. *)
Abbreviation loc := nat.

Inductive obj :=
  | ODict (d : gmap string attr_val)
  | OArr (a : ndarray).

(** An xarray variable: its array and its attribute dictionary. *)
Record XVariable := { v_data : loc; v_attrs : loc }.

(** An xarray dataset: the variables in their order, the names that are
    coordinates, and the global attribute dictionary. *)
Record Dataset := {
  ds_vars : list (string * XVariable);
  ds_coords : list string;
  ds_attrs : loc
}.

(** What a NetCDF file holds.  The loader reads one and the writer makes one. *)
Record NcVar := { nc_data : ndarray; nc_attrs : gmap string attr_val }.

Record Archive := {
  ar_vars : list (string * NcVar);
  ar_coords : list string;
  ar_attrs : gmap string attr_val
}.

Inductive fill := FillNone | FillStr (s : string) | FillInt (z : Z).

Record Encoding := { dtype : string; FillValue : fill }.

Record Written := {
  wr_path : string;
  wr_content : Archive;
  wr_encoding : gmap string Encoding
}.

(** The store, the files written so far (oldest first) and the number of times
    the clock has been read. *)
Record World := {
  w_heap : list obj;
  w_files : list Written;
  w_clock : nat
}.

Definition set_heap (h : list obj) (w : World) : World :=
  {| w_heap := h; w_files := w_files w; w_clock := w_clock w |}.

(** ** Programs *)

(** A program runs on a world and ends with a value or an exception; the world
    it leaves is kept in both cases, as a handler sees it. *)
Definition M (A : Type) : Type := World → result A * World.

#[global] Instance M_ret : MRet M := λ A a w, (Ok a, w).
#[global] Instance M_bind : MBind M := λ A B f m w,
  match m w with
  | (Ok a, w') => f a w'
  | (Raise e, w') => (Raise e, w')
  end.

Definition raise {A} (e : exn) : M A := λ w, (Raise e, w).

Definition lift {A} (r : result A) : M A := λ w, (r, w).

(** [try: m except: pass] with a bare [except], which catches everything. *)
Definition try_pass (m : M unit) : M unit := λ w,
  match m w with
  | (Ok _, w') => (Ok (), w')
  | (Raise _, w') => (Ok (), w')
  end.

Fixpoint forM_ {A} (xs : list A) (body : A → M unit) : M unit :=
  match xs with
  | [] => mret ()
  | x :: r => body x ≫= λ _, forM_ r body
  end.

Fixpoint foldM {A S} (xs : list A) (body : S → A → M S) (s : S) : M S :=
  match xs with
  | [] => mret s
  | x :: r => body s x ≫= foldM r body
  end.

Fixpoint mapM {A B} (f : A → M B) (xs : list A) : M (list B) :=
  match xs with
  | [] => mret []
  | x :: r => y ← f x; ys ← mapM f r; mret (y :: ys)
  end.

Fixpoint map_result {A B} (f : A → result B) (xs : list A) : result (list B) :=
  match xs with
  | [] => Ok []
  | x :: r =>
      result_bind (f x) (λ y, result_bind (map_result f r) (λ ys, Ok (y :: ys)))
  end.

(** *** Objects *)

Definition alloc (o : obj) : M loc := λ w,
  (Ok (length (w_heap w)), set_heap (w_heap w ++ [o]) w).

Definition read_dict (l : loc) : M (gmap string attr_val) := λ w,
  match w_heap w !! l with
  | Some (ODict d) => (Ok d, w)
  | _ => (Raise BadRef, w)
  end.

Definition read_arr (l : loc) : M ndarray := λ w,
  match w_heap w !! l with
  | Some (OArr a) => (Ok a, w)
  | _ => (Raise BadRef, w)
  end.

Definition write_dict (l : loc) (d : gmap string attr_val) : M unit := λ w,
  match w_heap w !! l with
  | Some (ODict _) => (Ok (), set_heap (<[l := ODict d]> (w_heap w)) w)
  | _ => (Raise BadRef, w)
  end.

(** [d[k]], [d[k] = v], [del d[k]] and [k in d] on the dictionary at [l] *)
Definition getitem (l : loc) (k : string) : M attr_val :=
  d ← read_dict l;
  match d !! k with
  | Some v => mret v
  | None => raise (KeyError k)
  end.

Definition setitem (l : loc) (k : string) (v : attr_val) : M unit :=
  d ← read_dict l; write_dict l (<[k := v]> d).

Definition delitem (l : loc) (k : string) : M unit :=
  d ← read_dict l;
  match d !! k with
  | Some _ => write_dict l (delete k d)
  | None => raise (KeyError k)
  end.

Definition contains (l : loc) (k : string) : M bool :=
  d ← read_dict l; mret (bool_decide (is_Some (d !! k))).

(** *** Datasets *)

Fixpoint assoc_get {V} (k : string) (l : list (string * V)) : option V :=
  match l with
  | [] => None
  | (k', v) :: r => if decide (k = k') then Some v else assoc_get k r
  end.

(** [d[k] = v] on an ordered dictionary: a present key keeps its place. *)
Fixpoint assoc_set {V} (k : string) (v : V) (l : list (string * V)) : list (string * V) :=
  match l with
  | [] => [(k, v)]
  | (k', v') :: r =>
      if decide (k = k') then (k, v) :: r else (k', v') :: assoc_set k v r
  end.

(** [ds[name]] *)
Definition ds_get (ds : Dataset) (name : string) : result XVariable :=
  match assoc_get name (ds_vars ds) with
  | Some v => Ok v
  | None => Raise (KeyError name)
  end.

(** [list(ds.data_vars)]: the variables that are not coordinates *)
Definition data_vars (ds : Dataset) : list string :=
  filter (λ k, k ∉ ds_coords ds) (ds_vars ds).*1.

(** [len(ds[name].dims)] *)
Definition ds_ndim (ds : Dataset) (name : string) : M nat :=
  v ← lift (ds_get ds name); a ← read_arr (v_data v); mret (ndim a).

(** [np.array(ds[name])] *)
Definition ds_values (ds : Dataset) (name : string) : M ndarray :=
  v ← lift (ds_get ds name); read_arr (v_data v).

(** [np.array(ds[name][i])] for a variable of two dimensions.  Of a variable
    of another shape the script only ever does this with [PRES]; what comes
    back is then not a row and the first use of it as one fails. *)
Definition ds_row (ds : Dataset) (name : string) (i : Z) : M (list sample) :=
  a ← ds_values ds name;
  match a with
  | Arr2 rows => lift (py_getitem rows i)
  | Arr0 _ => raise IndexError
  | Arr1 _ => raise TypeError
  | ArrN _ => raise ValueError
  end.

(** The attribute setter of a variable stores [dict(value)], a new dictionary
    with the same entries, in the variable. *)
Definition set_var_attrs (ds : Dataset) (name : string) (l : loc) : Dataset :=
  {| ds_vars := (λ kv, if decide (kv.1 = name)
                       then (kv.1, {| v_data := v_data kv.2; v_attrs := l |})
                       else kv) <$> ds_vars ds;
     ds_coords := ds_coords ds;
     ds_attrs := ds_attrs ds |}.

Definition set_ds_attrs (ds : Dataset) (l : loc) : Dataset :=
  {| ds_vars := ds_vars ds; ds_coords := ds_coords ds; ds_attrs := l |}.

(** [xr.open_dataset]: every array and dictionary of the file becomes an
    object of its own. *)
Definition open_dataset (a : Archive) : M Dataset :=
  vars ← mapM (λ kv : string * NcVar,
                 d ← alloc (OArr (nc_data kv.2));
                 t ← alloc (ODict (nc_attrs kv.2));
                 mret (kv.1, {| v_data := d; v_attrs := t |}))
              (ar_vars a);
  g ← alloc (ODict (ar_attrs a));
  mret {| ds_vars := vars; ds_coords := ar_coords a; ds_attrs := g |}.

(** What [to_netcdf] finds when it walks the dataset. *)
Definition snapshot (ds : Dataset) : M Archive :=
  vars ← mapM (λ kv : string * XVariable,
                 a ← read_arr (v_data kv.2);
                 t ← read_dict (v_attrs kv.2);
                 mret (kv.1, {| nc_data := a; nc_attrs := t |}))
              (ds_vars ds);
  g ← read_dict (ds_attrs ds);
  mret {| ar_vars := vars; ar_coords := ds_coords ds; ar_attrs := g |}.

Definition write_file (f : Written) : M unit := λ w,
  (Ok (), {| w_heap := w_heap w; w_files := w_files w ++ [f]; w_clock := w_clock w |}).

Definition to_netcdf (ds : Dataset) (path : string) (enc : gmap string Encoding) : M unit :=
  a ← snapshot ds;
  write_file {| wr_path := path; wr_content := a; wr_encoding := enc |}.

(** [ds[name].attrs], then one operation on that dictionary *)
Definition var_attrs (ds : Dataset) (name : string) : M loc :=
  v ← lift (ds_get ds name); mret (v_attrs v).

Definition attr_get (ds : Dataset) (name k : string) : M attr_val :=
  l ← var_attrs ds name; getitem l k.

Definition attr_set (ds : Dataset) (name k : string) (v : attr_val) : M unit :=
  l ← var_attrs ds name; setitem l k v.

Definition attr_has (ds : Dataset) (name k : string) : M bool :=
  l ← var_attrs ds name; contains l k.

(** *** The pandas frame *)

(** A [DataFrame] with the default row index: the length of the index and the
    columns in their order. *)
Record DataFrame := {
  df_index : nat;
  df_columns : list (string * list sample)
}.

Definition empty_frame : DataFrame := {| df_index := 0; df_columns := [] |}.

(** [df[name] = values].  A frame without rows takes its index from the first
    values that have any and fills the columns it already has with [NaN];
    afterwards values of another length are refused. *)
Definition df_setitem (df : DataFrame) (name : string) (values : list sample)
  : result DataFrame :=
  let n := length values in
  if (df_index df =? 0) && negb (n =? 0) then
    Ok {| df_index := n;
          df_columns := assoc_set name values
                          ((λ kv, (kv.1, replicate n NaN)) <$> df_columns df) |}
  else if df_index df =? n then
    Ok {| df_index := n; df_columns := assoc_set name values (df_columns df) |}
  else Raise ValueError.

(** ** What the libraries print and compute *)

Class Formatting := {
  (** [x * 0.001] for a number [x]: the product in floating point, rounded as
      the machine rounds it.  It is not in general the rational [x/1000]. *)
  times_milli : Q → Q;
  (** ["{:.4f}".format(x)] *)
  format_4f : sample → string;
  (** [np.datetime_as_string(t, timezone='UTC')] *)
  datetime_as_string : sample → string;
  (** [str(t)] of a time *)
  str_datetime : sample → string;
  (** [str(v)] of an attribute value that is not a string *)
  py_str : attr_val → string;
  (** [dt.now().strftime("%Y-%m-%dT%H:%M:%SZ")] at the k-th reading of the
      clock *)
  strftime_now : nat → string
}.

(** ** The script *)

Section script.
Context `{Formatting}.

(** The value of an expression inside an f-string *)
Definition fstring_of (v : attr_val) : string :=
  match v with
  | AStr s => s
  | _ => py_str v
  end.

(** [v * 0.001] *)
Definition py_mul_milli (v : attr_val) : result attr_val :=
  match v with
  | ANum (Num q) => Ok (ANum (Num (times_milli q)))
  | ANum NaN => Ok (ANum NaN)
  | AStr _ => Raise TypeError
  | AArr _ => Raise TypeError
  end.

(** [v + s] for a string literal [s] *)
Definition py_add_str (v : attr_val) (s : string) : result string :=
  match v with
  | AStr a => Ok (a +:+ s)
  | _ => Raise TypeError
  end.

(** [s.split(sep)[0]] *)
Definition first_field (sep : ascii) (s : string) : string :=
  match split_on sep s with
  | t :: _ => t
  | [] => EmptyString
  end.

(** [dt.now().strftime(...)] *)
Definition now : M string := λ w,
  (Ok (strftime_now (w_clock w)),
   {| w_heap := w_heap w; w_files := w_files w; w_clock := S (w_clock w) |}).

(** *** class Parent_NetCDF_File *)

Record Parent_NetCDF_File := {
  filepath : string;
  contents : Dataset;
  latitudes : ndarray;
  longitudes : ndarray;
  times : ndarray;
  min_pressures : list sample;
  max_pressures : list sample
}.

(** [load_contents]: a file that cannot be opened ends the run. *)
Definition load_contents (file : option Archive) : M Dataset :=
  match file with
  | Some a => open_dataset a
  | None => raise (SystemExit "File not found")
  end.

Definition get_coordinate_variables_values (ds : Dataset)
  : M (ndarray * ndarray * ndarray) :=
  lat ← ds_values ds "LATITUDE";
  lon ← ds_values ds "LONGITUDE";
  t ← ds_values ds "TIME";
  mret (lat, lon, t).

(** [for i in np.array(ds['PRES'])]: what the comprehension hands to [min] and
    [max].  Only the rows of a two-dimensional array are sequences of
    numbers. *)
Definition pressure_rows (a : ndarray) : result (list (list sample)) :=
  match a with
  | Arr2 rows => Ok rows
  | Arr1 [] => Ok []
  | Arr1 (_ :: _) => Raise TypeError
  | Arr0 _ => Raise TypeError
  | ArrN _ => Raise ValueError
  end.

Definition get_min_max_pressures (ds : Dataset) : M (list sample * list sample) :=
  a ← ds_values ds "PRES";
  rows ← lift (pressure_rows a);
  mins ← lift (map_result py_min rows);
  a' ← ds_values ds "PRES";
  rows' ← lift (pressure_rows a');
  maxs ← lift (map_result py_max rows');
  mret (mins, maxs).

Definition acknowledgement_text (doi : attr_val) : string :=
  "The Nansen Legacy project is funded by the Research Council of Norway (RCN # 276730). These data are created from the CTD data published by NMDC for the whole cruise ("
  +:+ fstring_of doi +:+
  "). The values have not be changed. For information about this process, please contact Luke Marsden at data.nleg@unis.no".

(** The text added to the summary is an ordinary string literal, not an
    f-string: the braces and what stands between them are part of it. *)
Definition summary_suffix : string :=
  " These data are created from the CTD data published by NMDC for the whole cruise ({self.contents.attrs["
  +:+ dquote +:+ "doi" +:+ dquote +:+
  "]}). The values have not be changed.".

Definition unwanted_atts : list string :=
  [ "last_latitude_observation";
    "last_longitude_observation";
    "format_version";
    "last_date_observation" ].

Definition add_change_drop_gloabl_attributes (ds : Dataset) : M unit :=
  let attrs := ds_attrs ds in
  setitem attrs "project" (AStr "The Nansen Legacy Project (RCN # 276730)");;
  doi ← getitem attrs "doi";
  setitem attrs "acknowledgement" (AStr (acknowledgement_text doi));;
  summary ← getitem attrs "summary";
  summary' ← lift (py_add_str summary summary_suffix);
  setitem attrs "summary" (AStr summary');;
  doi' ← getitem attrs "doi";
  references ← lift (py_concat "https://doi.org/" doi');
  setitem attrs "references" (AStr references);;
  setitem attrs "naming_authority" (AStr "no.unis");;
  creator_name ← getitem attrs "creator_name";
  setitem attrs "creator_institution" creator_name;;
  creator_name' ← getitem attrs "creator_name";
  setitem attrs "publisher_name" creator_name';;
  setitem attrs "creator_email" (AStr "datahjelp@imr.no");;
  creator_email ← getitem attrs "creator_email";
  setitem attrs "publisher_email" creator_email;;
  creator_url ← getitem attrs "creator_url";
  setitem attrs "publisher_url" creator_url;;
  forM_ unwanted_atts (λ att, delitem attrs att).

(** *** class Child_NetCDF_File *)

Record Child_NetCDF_File := {
  position : Z;
  parentFile : Parent_NetCDF_File;
  latitude : sample;
  longitude : sample;
  lat_string : string;
  lon_string : string;
  min_pressure : sample;
  max_pressure : sample;
  time : sample;
  timestamp_string : string;
  filename : string
}.

(** [a[i]] for a numpy array [a] that has to give a number *)
Definition np_scalar (a : ndarray) (i : Z) : result sample :=
  match a with
  | Arr1 xs => py_getitem xs i
  | Arr0 _ => Raise IndexError
  | Arr2 _ => Raise TypeError
  | ArrN _ => Raise TypeError
  end.

(** [__init__] *)
Definition Child_init (p : sample) (parent : Parent_NetCDF_File)
  : result Child_NetCDF_File :=
  result_bind (index_of_sample p) (λ pos,
  result_bind (np_scalar (latitudes parent) pos) (λ lat,
  result_bind (np_scalar (longitudes parent) pos) (λ lon,
  let lat_s := str_replace "." "-" (format_4f lat) in
  let lon_s := str_replace "." "-" (format_4f lon) in
  result_bind (py_getitem (min_pressures parent) pos) (λ minp,
  result_bind (py_getitem (max_pressures parent) pos) (λ maxp,
  result_bind (np_scalar (times parent) pos) (λ t,
  let ts := str_replace ":" "-" (first_field "." (datetime_as_string t)) +:+ "Z" in
  Ok {| position := pos;
        parentFile := parent;
        latitude := lat;
        longitude := lon;
        lat_string := lat_s;
        lon_string := lon_s;
        min_pressure := minp;
        max_pressure := maxp;
        time := t;
        timestamp_string := ts;
        filename := "Nansen_Legacy_CTD_data_single_station_lat_" +:+ lat_s
                    +:+ "_lon_" +:+ lon_s +:+ "_dt_" +:+ ts +:+ ".nc" |})))))).

Definition too_many_dimensions (data_var : string) : string :=
  "Not programmed to handle variables with more than 2 dimensions ("
  +:+ data_var +:+ ")".

(** The indexes [i_min] and [i_max] of the station's pressure row *)
Definition locate_window (self : Child_NetCDF_File) : M (nat * nat) :=
  pressures ← ds_row (contents (parentFile self)) "PRES" (position self);
  i_min ← lift (list_index (min_pressure self) pressures);
  i_max ← lift (list_index (max_pressure self) pressures);
  mret (i_min, i_max).

(** One turn of the loop that fills the frame *)
Definition add_column (self : Child_NetCDF_File) (i_min i_max : nat)
    (df : DataFrame) (data_var : string) : M DataFrame :=
  let parent := contents (parentFile self) in
  n ← ds_ndim parent data_var;
  if n =? 2 then
    values ← ds_row parent data_var (position self);
    lift (df_setitem df data_var (py_slice i_min i_max values))
  else
    n' ← ds_ndim parent data_var;
    if 2 <? n' then raise (SystemExit (too_many_dimensions data_var))
    else mret df.

(** [from_dataframe], [set_coords('PRES')], [reset_index('index', drop=True)]
    and [swap_dims]: every column becomes a variable with an array of its own
    and no attributes, [PRES] has to be among them and becomes the coordinate,
    and what is called [index] is dropped with the row index. *)
Definition dataset_of_frame (df : DataFrame) : M Dataset :=
  vars ← mapM (λ kv : string * list sample,
                 d ← alloc (OArr (Arr1 kv.2));
                 t ← alloc (ODict ∅);
                 mret (kv.1, {| v_data := d; v_attrs := t |}))
              (df_columns df);
  g ← alloc (ODict ∅);
  if bool_decide ("PRES" ∈ (df_columns df).*1) then
    mret {| ds_vars := filter (λ kv, kv.1 ≠ "index") vars;
            ds_coords := ["PRES"];
            ds_attrs := g |}
  else raise ValueError.

(** [self.contents[data_var].attrs = self.parentFile.contents[data_var].attrs]:
    the right-hand side is looked up first, then the child's variable, and the
    setter stores a new dictionary with the parent's entries. *)
Definition copy_var_attrs (parent child : Dataset) (data_var : string) : M Dataset :=
  src ← var_attrs parent data_var;
  _ ← lift (ds_get child data_var);
  d ← read_dict src;
  l ← alloc (ODict d);
  mret (set_var_attrs child data_var l).

(** [if k in list(parent[data_var].attrs.keys()):
       child[data_var].attrs[k] = parent[data_var].attrs[k]*0.001] *)
Definition scale_bound (parent child : Dataset) (data_var k : string) : M unit :=
  b ← attr_has parent data_var k;
  if b : bool then
    x ← attr_get parent data_var k;
    y ← lift (py_mul_milli x);
    attr_set child data_var k y
  else mret ().

(** The body of the [try]: the references that name no data variable of the
    parent are cut out of the child's string, one after the other. *)
Definition strip_ancillary (parent child : Dataset) (data_var : string) : M unit :=
  s ← attr_get parent data_var "ancillary_variables";
  avs ← lift (match s with
              | AStr s => Ok (split_on " " s)
              | _ => Raise AttributeError
              end);
  forM_ avs (λ av,
    if bool_decide (av ∈ data_vars parent) then mret ()
    else
      cur ← attr_get child data_var "ancillary_variables";
      new ← lift (match cur with
                  | AStr c => Ok (str_replace av "" c)
                  | _ => Raise AttributeError
                  end);
      attr_set child data_var "ancillary_variables" (AStr new)).

(** One turn of the loop that gives the variables their attributes *)
Definition repair_variable (self : Child_NetCDF_File) (child : Dataset)
    (data_var : string) : M Dataset :=
  let parent := contents (parentFile self) in
  n ← ds_ndim parent data_var;
  child' ← (if n =? 2 then
              child' ← copy_var_attrs parent child data_var;
              (if negb (str_in "QC" data_var) then
                 if negb (str_in "DM" data_var) then
                   attr_set child' data_var "coverage_content_type"
                            (AStr "physicalMeasurement");;
                   scale_bound parent child' data_var "valid_min";;
                   scale_bound parent child' data_var "valid_max"
                 else mret ()
               else mret ());;
              mret child'
            else
              n' ← ds_ndim parent data_var;
              if 2 <? n' then raise (SystemExit (too_many_dimensions data_var))
              else mret child);
  try_pass (strip_ancillary parent child' data_var);;
  mret child'.

Definition create_dataset_with_variables (self : Child_NetCDF_File) : M Dataset :=
  let parent := contents (parentFile self) in
  '(i_min, i_max) ← locate_window self;
  df ← foldM (data_vars parent) (add_column self i_min i_max) empty_frame;
  child ← dataset_of_frame df;
  foldM (data_vars parent) (repair_variable self) child.

(** [assign_global_attributes]: [.copy()] makes one dictionary and the setter
    of the dataset another, which the child keeps. *)
Definition assign_global_attributes (self : Child_NetCDF_File) (child : Dataset)
  : M Dataset :=
  d ← read_dict (ds_attrs (contents (parentFile self)));
  c ← alloc (ODict d);
  d' ← read_dict c;
  l ← alloc (ODict d');
  let child := set_ds_attrs child l in
  let attrs := ds_attrs child in
  setitem attrs "geospatial_lat_min" (ANum (latitude self));;
  setitem attrs "geospatial_lat_max" (ANum (latitude self));;
  setitem attrs "geospatial_lon_min" (ANum (longitude self));;
  setitem attrs "geospatial_lon_max" (ANum (longitude self));;
  setitem attrs "geospatial_vertical_min" (ANum (min_pressure self));;
  setitem attrs "geospatial_vertical_max" (ANum (max_pressure self));;
  setitem attrs "geospatial_vertical_units" (AStr "dbar");;
  setitem attrs "geospatial_vertical_resolution" (AStr "1 dbar");;
  setitem attrs "time_coverage_start"
          (AStr (first_field "." (str_datetime (time self)) +:+ "Z"));;
  setitem attrs "time_coverage_end"
          (AStr (first_field "." (str_datetime (time self)) +:+ "Z"));;
  dtnow ← now;
  setitem attrs "date_created" (AStr dtnow);;
  setitem attrs "date_update" (AStr dtnow);;
  setitem attrs "history"
          (AStr ("Created at " +:+ dtnow +:+ " using the xarray library in Python"));;
  id ← getitem attrs "id";
  id' ← lift (py_add_str id ("_" +:+ lat_string self +:+ "_" +:+ lon_string self));
  setitem attrs "id" (AStr id');;
  setitem attrs "title" (AStr (first_field "." (filename self)));;
  delitem attrs "doi";;
  setitem attrs "comment" (AStr "Descending CTD profile");;
  mret child.

(** The encoding chosen for a variable by its name.  [DataMode] stands for the
    branch that also rewrites [flag_values]. *)
Inductive encoding_class := Pressure | DataMode | QualityControl | Other.

Definition classify (data_var : string) : encoding_class :=
  if bool_decide (data_var = "PRES") then Pressure
  else if str_in "DM" data_var then DataMode
  else if str_in "QC" data_var then QualityControl
  else Other.

Definition encoding_of (c : encoding_class) : Encoding :=
  match c with
  | Pressure => {| dtype := "float32"; FillValue := FillNone |}
  | DataMode => {| dtype := "S1"; FillValue := FillStr " " |}
  | QualityControl => {| dtype := "int8"; FillValue := FillInt (-127) |}
  | Other => {| dtype := "float32"; FillValue := FillInt (-2147483647) |}
  end.

(** [np.array(s.replace(' ','').split(','))] *)
Definition flag_array (v : attr_val) : result attr_val :=
  match v with
  | AStr s => Ok (AArr (split_on "," (str_replace " " "" s)))
  | _ => Raise AttributeError
  end.

(** One turn of the loop over the child's data variables *)
Definition encode_variable (child : Dataset) (enc : gmap string Encoding)
    (data_var : string) : M (gmap string Encoding) :=
  match classify data_var with
  | DataMode =>
      s ← attr_get child data_var "flag_values";
      a ← lift (flag_array s);
      attr_set child data_var "flag_values" a;;
      mret (<[data_var := encoding_of DataMode]> enc)
  | c => mret (<[data_var := encoding_of c]> enc)
  end.

Definition compute_encoding (child : Dataset) : M (gmap string Encoding) :=
  foldM (data_vars child) (encode_variable child) ∅.

(** [output_to_netcdf].  The directory is made when it is missing; directories
    are not part of the world here, the path of the file is. *)
Definition output_to_netcdf (self : Child_NetCDF_File) (child : Dataset) : M unit :=
  enc ← compute_encoding child;
  id ← getitem (ds_attrs (contents (parentFile self))) "id";
  match id with
  | AStr subdir => to_netcdf child (subdir +:+ "/" +:+ filename self) enc
  | _ => raise TypeError
  end.

(** *** main *)

(** [for p in np.array(ds['POSITION'])] *)
Definition station_positions (a : ndarray) : result (list sample) :=
  match a with
  | Arr1 xs => Ok xs
  | Arr0 _ => Raise TypeError
  | Arr2 [] => Ok []
  | Arr2 (_ :: _) => Raise TypeError
  | ArrN _ => Raise TypeError
  end.

(** The body of the loop over the stations *)
Definition station (parent : Parent_NetCDF_File) (p : sample) : M unit :=
  childFile ← lift (Child_init p parent);
  ds ← create_dataset_with_variables childFile;
  ds' ← assign_global_attributes childFile ds;
  output_to_netcdf childFile ds'.

(** What [main] does before the loop over the stations *)
Definition prepare (name : string) (file : option Archive) : M Parent_NetCDF_File :=
  ds ← load_contents file;
  add_change_drop_gloabl_attributes ds;;
  '(lat, lon, t) ← get_coordinate_variables_values ds;
  '(mins, maxs) ← get_min_max_pressures ds;
  mret {| filepath := "data/" +:+ name;
          contents := ds;
          latitudes := lat;
          longitudes := lon;
          times := t;
          min_pressures := mins;
          max_pressures := maxs |}.

(** The body of the loop over the files of [data/] *)
Definition process_parent (entry : string * option Archive) : M unit :=
  parentFile ← prepare entry.1 entry.2;
  a ← ds_values (contents parentFile) "POSITION";
  ps ← lift (station_positions a);
  forM_ ps (station parentFile).

Definition main (listing : list (string * option Archive)) : M unit :=
  forM_ listing process_parent.

Definition empty_world : World := {| w_heap := []; w_files := []; w_clock := 0 |}.

End script.

(** * Reasoning about programs *)

(** ** Running a program step by step *)

Lemma bind_ok {A B} (m : M A) (f : A → M B) w a w' :
  m w = (Ok a, w') → (m ≫= f) w = f a w'.
Proof. intros E. unfold mbind, M_bind. by rewrite E. Qed.

Lemma bind_raise {A B} (m : M A) (f : A → M B) w e w' :
  m w = (Raise e, w') → (m ≫= f) w = (Raise e, w').
Proof. intros E. unfold mbind, M_bind. by rewrite E. Qed.

Lemma bind_inv {A B} (m : M A) (f : A → M B) w b w' :
  (m ≫= f) w = (Ok b, w') → ∃ a w1, m w = (Ok a, w1) ∧ f a w1 = (Ok b, w').
Proof.
  unfold mbind, M_bind. destruct (m w) as [[a|e] w1]; [eauto | done].
Qed.

Lemma bind_lift_ok {A B} (r : result A) (f : A → M B) w a :
  r = Ok a → (lift r ≫= f) w = f a w.
Proof. by intros ->. Qed.

Lemma bind_lift_raise {A B} (r : result A) (f : A → M B) w e :
  r = Raise e → (lift r ≫= f) w = (Raise e, w).
Proof. by intros ->. Qed.

Lemma bind_ret {A B} (a : A) (f : A → M B) w : (mret a ≫= f) w = f a w.
Proof. done. Qed.

(** The world in which the dictionary at [l] has become [d] *)
Definition upd (l : loc) (d : gmap string attr_val) (w : World) : World :=
  set_heap (<[l := ODict d]> (w_heap w)) w.

Definition at_dict (w : World) (l : loc) (d : gmap string attr_val) : Prop :=
  w_heap w !! l = Some (ODict d).

Definition at_arr (w : World) (l : loc) (a : ndarray) : Prop :=
  w_heap w !! l = Some (OArr a).

Lemma at_dict_upd w l d d' : at_dict w l d → at_dict (upd l d' w) l d'.
Proof.
  unfold at_dict, upd. simpl. intros E.
  apply list_lookup_insert_eq. by eapply lookup_lt_Some.
Qed.

Lemma upd_upd w l d d' : upd l d' (upd l d w) = upd l d' w.
Proof. unfold upd, set_heap. simpl. by rewrite list_insert_insert_eq. Qed.

Lemma upd_same w l d : at_dict w l d → upd l d w = w.
Proof.
  unfold at_dict, upd, set_heap. intros E. rewrite list_insert_id; [|done].
  by destruct w.
Qed.

Lemma upd_files w l d : w_files (upd l d w) = w_files w.
Proof. done. Qed.

Lemma read_dict_at w l d : at_dict w l d → read_dict l w = (Ok d, w).
Proof. unfold at_dict, read_dict. by intros ->. Qed.

Lemma read_arr_at w l a : at_arr w l a → read_arr l w = (Ok a, w).
Proof. unfold at_arr, read_arr. by intros ->. Qed.

Lemma write_dict_at w l d d' : at_dict w l d → write_dict l d' w = (Ok (), upd l d' w).
Proof. unfold at_dict, write_dict. by intros ->. Qed.

Lemma getitem_at w l d k :
  at_dict w l d →
  getitem l k w = (match d !! k with Some v => Ok v | None => Raise (KeyError k) end, w).
Proof.
  intros E. unfold getitem. rewrite (bind_ok _ _ _ _ _ (read_dict_at _ _ _ E)).
  by destruct (d !! k).
Qed.

Lemma setitem_at w l d k v :
  at_dict w l d → setitem l k v w = (Ok (), upd l (<[k := v]> d) w).
Proof.
  intros E. unfold setitem. rewrite (bind_ok _ _ _ _ _ (read_dict_at _ _ _ E)).
  by apply (write_dict_at _ _ d).
Qed.

Lemma delitem_at w l d k :
  at_dict w l d →
  delitem l k w = match d !! k with
                  | Some _ => (Ok (), upd l (delete k d) w)
                  | None => (Raise (KeyError k), w)
                  end.
Proof.
  intros E. unfold delitem. rewrite (bind_ok _ _ _ _ _ (read_dict_at _ _ _ E)).
  destruct (d !! k); [by apply (write_dict_at _ _ d) | done].
Qed.

Lemma contains_at w l d k :
  at_dict w l d → contains l k w = (Ok (bool_decide (is_Some (d !! k))), w).
Proof.
  intros E. unfold contains. by rewrite (bind_ok _ _ _ _ _ (read_dict_at _ _ _ E)).
Qed.

Lemma getitem_bind {B} w l d k (f : attr_val → M B) :
  at_dict w l d →
  (getitem l k ≫= f) w =
  match d !! k with Some v => f v w | None => (Raise (KeyError k), w) end.
Proof.
  intros E. unfold mbind at 1, M_bind. rewrite (getitem_at _ _ _ _ E).
  by destruct (d !! k).
Qed.

Lemma setitem_bind {B} w l d k v (f : unit → M B) :
  at_dict w l d → (setitem l k v ≫= f) w = f () (upd l (<[k := v]> d) w).
Proof. intros E. by rewrite (bind_ok _ _ _ _ _ (setitem_at _ _ _ k v E)). Qed.

Lemma delitem_bind {B} w l d k (f : unit → M B) :
  at_dict w l d →
  (delitem l k ≫= f) w =
  match d !! k with
  | Some _ => f () (upd l (delete k d) w)
  | None => (Raise (KeyError k), w)
  end.
Proof.
  intros E. unfold mbind at 1, M_bind. rewrite (delitem_at _ _ _ _ E).
  by destruct (d !! k).
Qed.

Lemma contains_bind {B} w l d k (f : bool → M B) :
  at_dict w l d →
  (contains l k ≫= f) w = f (bool_decide (is_Some (d !! k))) w.
Proof. intros E. by rewrite (bind_ok _ _ _ _ _ (contains_at _ _ _ k E)). Qed.

Lemma read_dict_bind {B} w l d (f : gmap string attr_val → M B) :
  at_dict w l d → (read_dict l ≫= f) w = f d w.
Proof. intros E. by rewrite (bind_ok _ _ _ _ _ (read_dict_at _ _ _ E)). Qed.

Lemma read_arr_bind {B} w l a (f : ndarray → M B) :
  at_arr w l a → (read_arr l ≫= f) w = f a w.
Proof. intros E. by rewrite (bind_ok _ _ _ _ _ (read_arr_at _ _ _ E)). Qed.

Lemma alloc_bind {B} w o (f : loc → M B) :
  (alloc o ≫= f) w = f (length (w_heap w)) (set_heap (w_heap w ++ [o]) w).
Proof. done. Qed.

(** One step of a program that works on the dictionary of hypothesis [H] *)
Ltac dict_step H :=
  lazymatch type of H with
  | at_dict ?w ?l ?d =>
      lazymatch goal with
      | |- context [(setitem l ?k ?v ≫= ?f) w] =>
          rewrite (setitem_bind w l d k v f H);
          apply (at_dict_upd w l d (<[k := v]> d)) in H;
          rewrite ?upd_upd in H |- *
      | |- context [(getitem l ?k ≫= ?f) w] =>
          rewrite (getitem_bind w l d k f H)
      | |- context [(delitem l ?k ≫= ?f) w] =>
          rewrite (delitem_bind w l d k f H)
      end
  end.

(** ** Programs that write no file *)

Definition no_write {A} (m : M A) : Prop := ∀ w, w_files (m w).2 = w_files w.

Create HintDb nowrite.

Lemma no_write_ret {A} (a : A) : no_write (mret a).
Proof. done. Qed.

Lemma no_write_raise {A} e : no_write (@raise A e).
Proof. done. Qed.

Lemma no_write_lift {A} (r : result A) : no_write (lift r).
Proof. done. Qed.

Lemma no_write_bind {A B} (m : M A) (f : A → M B) :
  no_write m → (∀ a, no_write (f a)) → no_write (m ≫= f).
Proof.
  intros Hm Hf w. unfold mbind, M_bind. specialize (Hm w).
  destruct (m w) as [[a|e] w1]; simpl in *; [|done].
  by rewrite Hf.
Qed.

Lemma no_write_alloc o : no_write (alloc o).
Proof. done. Qed.

Lemma no_write_read_dict l : no_write (read_dict l).
Proof. intros w. unfold read_dict. by repeat case_match. Qed.

Lemma no_write_read_arr l : no_write (read_arr l).
Proof. intros w. unfold read_arr. by repeat case_match. Qed.

Lemma no_write_write_dict l d : no_write (write_dict l d).
Proof. intros w. unfold write_dict. by repeat case_match. Qed.

#[global] Hint Resolve no_write_ret no_write_raise no_write_lift no_write_alloc
  no_write_read_dict no_write_read_arr no_write_write_dict : nowrite.

Ltac no_write_loops := fail.

Ltac no_write_tac :=
  repeat first
    [ progress intros
    | apply no_write_bind
    | no_write_loops
    | solve [auto with nowrite]
    | match goal with
      | |- no_write (match ?x with _ => _ end) => destruct x
      | |- no_write (if ?b then _ else _) => destruct b
      end ].

Lemma no_write_getitem l k : no_write (getitem l k).
Proof. unfold getitem. no_write_tac. Qed.

Lemma no_write_setitem l k v : no_write (setitem l k v).
Proof. unfold setitem. no_write_tac. Qed.

Lemma no_write_delitem l k : no_write (delitem l k).
Proof. unfold delitem. no_write_tac. Qed.

Lemma no_write_contains l k : no_write (contains l k).
Proof. unfold contains. no_write_tac. Qed.

#[global] Hint Resolve no_write_getitem no_write_setitem no_write_delitem
  no_write_contains : nowrite.

Lemma no_write_try_pass m : no_write m → no_write (try_pass m).
Proof.
  intros Hm w. unfold try_pass. specialize (Hm w).
  by destruct (m w) as [[a|e] w1].
Qed.

Lemma no_write_forM_ {A} (xs : list A) body :
  (∀ x, no_write (body x)) → no_write (forM_ xs body).
Proof. intros Hb. induction xs; simpl; no_write_tac. Qed.

Lemma no_write_foldM {A S} (xs : list A) (body : S → A → M S) s :
  (∀ s x, no_write (body s x)) → no_write (foldM xs body s).
Proof. intros Hb. revert s. induction xs; simpl; no_write_tac. Qed.

Lemma no_write_mapM {A B} (f : A → M B) xs :
  (∀ x, no_write (f x)) → no_write (mapM f xs).
Proof. intros Hf. induction xs; simpl; no_write_tac. Qed.

Ltac no_write_loops ::=
  first [ apply no_write_try_pass | apply no_write_forM_
        | apply no_write_foldM | apply no_write_mapM ].

Lemma no_write_var_attrs ds name : no_write (var_attrs ds name).
Proof. unfold var_attrs. no_write_tac. Qed.

#[global] Hint Resolve no_write_var_attrs : nowrite.

Lemma no_write_attr_get ds name k : no_write (attr_get ds name k).
Proof. unfold attr_get. no_write_tac. Qed.

Lemma no_write_attr_set ds name k v : no_write (attr_set ds name k v).
Proof. unfold attr_set. no_write_tac. Qed.

Lemma no_write_attr_has ds name k : no_write (attr_has ds name k).
Proof. unfold attr_has. no_write_tac. Qed.

Lemma no_write_ds_values ds name : no_write (ds_values ds name).
Proof. unfold ds_values. no_write_tac. Qed.

#[global] Hint Resolve no_write_attr_get no_write_attr_set no_write_attr_has
  no_write_ds_values : nowrite.

Lemma no_write_ds_ndim ds name : no_write (ds_ndim ds name).
Proof. unfold ds_ndim. no_write_tac. Qed.

Lemma no_write_ds_row ds name i : no_write (ds_row ds name i).
Proof. unfold ds_row. no_write_tac. Qed.

Lemma no_write_open_dataset a : no_write (open_dataset a).
Proof. unfold open_dataset. no_write_tac. Qed.

#[global] Hint Resolve no_write_ds_ndim no_write_ds_row no_write_open_dataset
  : nowrite.

Section no_write_script.
Context `{Formatting}.

Lemma no_write_load_contents file : no_write (load_contents file).
Proof. unfold load_contents. no_write_tac. Qed.

Lemma no_write_repair ds : no_write (add_change_drop_gloabl_attributes ds).
Proof. unfold add_change_drop_gloabl_attributes. no_write_tac. Qed.

Lemma no_write_coordinates ds : no_write (get_coordinate_variables_values ds).
Proof. unfold get_coordinate_variables_values. no_write_tac. Qed.

Lemma no_write_min_max ds : no_write (get_min_max_pressures ds).
Proof. unfold get_min_max_pressures. no_write_tac. Qed.

Lemma no_write_prepare name file : no_write (prepare name file).
Proof.
  unfold prepare. no_write_tac;
    auto using no_write_load_contents, no_write_repair, no_write_coordinates,
      no_write_min_max.
Qed.

End no_write_script.

(** ** The repair of the global attributes *)

(** After a step [del d[k]] that found its key *)
Ltac dict_deleted H :=
  lazymatch type of H with
  | at_dict ?w ?l ?d =>
      lazymatch goal with
      | |- context [upd l (delete ?k d) w] =>
          apply (at_dict_upd w l d (delete k d)) in H;
          rewrite ?upd_upd in H |- *
      end
  end.

(** Look a key up below the entries the program has set or removed *)
Ltac dict_lookup E :=
  repeat first [ rewrite lookup_insert_ne by done
               | rewrite lookup_delete_ne by done ];
  rewrite ?lookup_insert_eq;
  lazymatch goal with
  | |- context [match ?d !! ?k with _ => _ end] =>
      let v := fresh "v" in destruct (d !! k) as [v|] eqn:E
  end.

Section repair.
Context `{Formatting}.

(** The dictionary that a successful repair leaves *)
Definition repaired_attrs (d : gmap string attr_val) (doi summary : string)
    (creator_name creator_url : attr_val) : gmap string attr_val :=
  delete "last_date_observation"
 (delete "format_version"
 (delete "last_longitude_observation"
 (delete "last_latitude_observation"
 (<["publisher_url" := creator_url]>
 (<["publisher_email" := AStr "datahjelp@imr.no"]>
 (<["creator_email" := AStr "datahjelp@imr.no"]>
 (<["publisher_name" := creator_name]>
 (<["creator_institution" := creator_name]>
 (<["naming_authority" := AStr "no.unis"]>
 (<["references" := AStr ("https://doi.org/" +:+ doi)]>
 (<["summary" := AStr (summary +:+ summary_suffix)]>
 (<["acknowledgement" := AStr (acknowledgement_text (AStr doi))]>
 (<["project" := AStr "The Nansen Legacy Project (RCN # 276730)"]> d))))))))))))).

Lemma repair_ok_inv w ds d w' :
  at_dict w (ds_attrs ds) d →
  add_change_drop_gloabl_attributes ds w = (Ok (), w') →
  ∃ doi summary cn cu,
    d !! "doi" = Some (AStr doi) ∧ d !! "summary" = Some (AStr summary) ∧
    d !! "creator_name" = Some cn ∧ d !! "creator_url" = Some cu ∧
    Forall (λ k, is_Some (d !! k)) unwanted_atts ∧
    w' = upd (ds_attrs ds) (repaired_attrs d doi summary cn cu) w.
Proof.
  intros E. unfold add_change_drop_gloabl_attributes.
  dict_step E. dict_step E. dict_lookup Edoi; [|done].
  dict_step E. dict_step E. dict_lookup Es; [|done].
  destruct v0 as [s| |]; try done.
  rewrite bind_lift_ok with (a := s +:+ summary_suffix) by done.
  dict_step E. dict_step E.
  repeat (rewrite lookup_insert_ne by done). rewrite Edoi.
  destruct v as [doi| |]; try done.
  rewrite bind_lift_ok with (a := "https://doi.org/" +:+ doi) by done.
  dict_step E. dict_step E. dict_step E. dict_lookup Ecn; [|done].
  dict_step E. dict_step E.
  repeat (rewrite lookup_insert_ne by done). rewrite Ecn.
  dict_step E. dict_step E. dict_step E. rewrite lookup_insert_eq.
  dict_step E. dict_step E. dict_lookup Ecu; [|done].
  dict_step E. cbn [forM_ unwanted_atts].
  dict_step E. dict_lookup E1; [|done]. dict_deleted E.
  dict_step E. dict_lookup E2; [|done]. dict_deleted E.
  dict_step E. dict_lookup E3; [|done]. dict_deleted E.
  dict_step E. dict_lookup E4; [|done]. dict_deleted E.
  intros [= <-].
  exists doi, s, v, v0. repeat split; try done.
  unfold unwanted_atts. repeat constructor; eauto.
Qed.

End repair.

(** ** Programs that leave the old objects alone *)

(** [frame n P m]: started in a store that has at least [n] objects, [m]
    leaves the first [n] of them as they are, whether it ends with a value or
    an exception; a value it ends with satisfies [P]. *)
Definition frame (n : nat) {A} (P : A → Prop) (m : M A) : Prop :=
  ∀ w, n ≤ length (w_heap w) →
    take n (w_heap (m w).2) = take n (w_heap w) ∧
    n ≤ length (w_heap (m w).2) ∧
    ∀ a, (m w).1 = Ok a → P a.

Lemma frame_ret n {A} (P : A → Prop) a : P a → frame n P (mret a).
Proof. intros Ha w Hw. simpl. repeat split; [done|]. by intros ? [= <-]. Qed.

Lemma frame_raise n {A} (P : A → Prop) e : frame n P (raise e).
Proof. intros w Hw. simpl. by repeat split. Qed.

Lemma frame_lift n {A} (P : A → Prop) (r : result A) :
  (∀ a, r = Ok a → P a) → frame n P (lift r).
Proof. intros Hr w Hw. simpl. by repeat split. Qed.

Lemma frame_weaken n {A} (P Q : A → Prop) m :
  frame n P m → (∀ a, P a → Q a) → frame n Q m.
Proof.
  intros Hm HPQ w Hw. destruct (Hm w Hw) as (? & ? & ?). eauto.
Qed.

Lemma frame_bind n {A B} (P : A → Prop) (Q : B → Prop) (m : M A) (f : A → M B) :
  frame n P m → (∀ a, P a → frame n Q (f a)) → frame n Q (m ≫= f).
Proof.
  intros Hm Hf w Hw. destruct (Hm w Hw) as (Ht & Hl & HP).
  unfold mbind, M_bind. destruct (m w) as [[a|e] w1]; simpl in *.
  - destruct (Hf a (HP a eq_refl) w1 Hl) as (Ht' & Hl' & HQ).
    split; [congruence | done].
  - done.
Qed.

Lemma frame_alloc n o : frame n (λ l, n ≤ l) (alloc o).
Proof.
  intros w Hw. simpl. rewrite length_app, take_app_le by done.
  repeat split; [lia|]. intros l [= <-]. done.
Qed.

Lemma frame_read_dict n l : frame n (λ _, True) (read_dict l).
Proof. intros w Hw. unfold read_dict. by repeat case_match. Qed.

Lemma frame_read_arr n l : frame n (λ _, True) (read_arr l).
Proof. intros w Hw. unfold read_arr. by repeat case_match. Qed.

Lemma frame_write_dict n l d : n ≤ l → frame n (λ _, True) (write_dict l d).
Proof.
  intros Hl w Hw. unfold write_dict. repeat case_match; simpl; try done.
  rewrite length_insert, take_insert_ge by done. done.
Qed.

Lemma frame_try_pass n m : frame n (λ _, True) m → frame n (λ _, True) (try_pass m).
Proof.
  intros Hm w Hw. destruct (Hm w Hw) as (Ht & Hl & _).
  unfold try_pass. by destruct (m w) as [[a|e] w1].
Qed.

Lemma frame_forM_ n {A} (xs : list A) body :
  (∀ x, frame n (λ _, True) (body x)) → frame n (λ _, True) (forM_ xs body).
Proof.
  intros Hb. induction xs; simpl; [by apply frame_ret|].
  eapply frame_bind; [apply Hb | done].
Qed.

Lemma frame_foldM n {A S} (I : S → Prop) (xs : list A) (body : S → A → M S) s :
  (∀ s x, I s → frame n I (body s x)) → I s → frame n I (foldM xs body s).
Proof.
  intros Hb. revert s. induction xs; intros s Hs; simpl; [by apply frame_ret|].
  eapply frame_bind; [by apply Hb | done].
Qed.

Lemma frame_mapM n {A B} (P : B → Prop) (f : A → M B) xs :
  (∀ x, frame n P (f x)) → frame n (Forall P) (mapM f xs).
Proof.
  intros Hf. induction xs; simpl; [by apply frame_ret|].
  eapply frame_bind; [apply Hf|]. intros y Hy.
  eapply frame_bind; [apply IHxs|]. intros ys Hys.
  apply frame_ret. by constructor.
Qed.

(** Reads, and the operations on a dictionary that is not an old object *)
Lemma frame_getitem n l k : frame n (λ _, True) (getitem l k).
Proof.
  unfold getitem. eapply frame_bind; [apply frame_read_dict|].
  intros d _. destruct (d !! k); [by apply frame_ret | apply frame_raise].
Qed.

Lemma frame_contains n l k : frame n (λ _, True) (contains l k).
Proof.
  unfold contains. eapply frame_bind; [apply frame_read_dict|].
  intros d _. by apply frame_ret.
Qed.

Lemma frame_setitem n l k v : n ≤ l → frame n (λ _, True) (setitem l k v).
Proof.
  intros Hl. unfold setitem. eapply frame_bind; [apply frame_read_dict|].
  intros d _. by apply frame_write_dict.
Qed.

Lemma frame_delitem n l k : n ≤ l → frame n (λ _, True) (delitem l k).
Proof.
  intros Hl. unfold delitem. eapply frame_bind; [apply frame_read_dict|].
  intros d _. destruct (d !! k); [by apply frame_write_dict | apply frame_raise].
Qed.

(** A dataset all of whose dictionaries are newer than the first [n] objects *)
Definition fresh_ds (n : nat) (ds : Dataset) : Prop :=
  Forall (λ kv, n ≤ v_attrs kv.2) (ds_vars ds) ∧ n ≤ ds_attrs ds.

Lemma assoc_get_elem {V} k (v : V) l : assoc_get k l = Some v → (k, v) ∈ l.
Proof.
  induction l as [|[k' v'] l IH]; simpl; [done|].
  case_decide; [intros [= ->]; subst; left | right; auto].
Qed.

Lemma fresh_ds_var n ds name v :
  fresh_ds n ds → ds_get ds name = Ok v → n ≤ v_attrs v.
Proof.
  intros [Hv _]. unfold ds_get. destruct (assoc_get _ _) eqn:E; [|done].
  intros [= ->]. apply assoc_get_elem in E.
  by apply (proj1 (Forall_forall _ _) Hv _ E).
Qed.

Lemma frame_var_attrs n ds name :
  fresh_ds n ds → frame n (λ l, n ≤ l) (var_attrs ds name).
Proof.
  intros Hds. unfold var_attrs.
  eapply (frame_bind _ (λ v, ds_get ds name = Ok v)); [by apply frame_lift|].
  intros v Hv. apply frame_ret. by eapply fresh_ds_var.
Qed.

Lemma frame_var_attrs_any n ds name : frame n (λ _, True) (var_attrs ds name).
Proof.
  unfold var_attrs. eapply (frame_bind _ (λ _, True)); [by apply frame_lift|].
  intros v _. by apply frame_ret.
Qed.

Lemma frame_attr_get n ds name k : frame n (λ _, True) (attr_get ds name k).
Proof.
  unfold attr_get. eapply frame_bind; [apply frame_var_attrs_any|].
  intros l _. apply frame_getitem.
Qed.

Lemma frame_attr_has n ds name k : frame n (λ _, True) (attr_has ds name k).
Proof.
  unfold attr_has. eapply frame_bind; [apply frame_var_attrs_any|].
  intros l _. apply frame_contains.
Qed.

Lemma frame_attr_set n ds name k v :
  fresh_ds n ds → frame n (λ _, True) (attr_set ds name k v).
Proof.
  intros Hds. unfold attr_set. eapply frame_bind; [by apply frame_var_attrs|].
  intros l Hl. by apply frame_setitem.
Qed.

Lemma frame_ds_values n ds name : frame n (λ _, True) (ds_values ds name).
Proof.
  unfold ds_values. eapply (frame_bind _ (λ _, True)); [by apply frame_lift|].
  intros v _. apply frame_read_arr.
Qed.

Lemma frame_ds_ndim n ds name : frame n (λ _, True) (ds_ndim ds name).
Proof.
  unfold ds_ndim. eapply (frame_bind _ (λ _, True)); [by apply frame_lift|].
  intros v _. eapply frame_bind; [apply frame_read_arr|].
  intros a _. by apply frame_ret.
Qed.

Lemma frame_ds_row n ds name i : frame n (λ _, True) (ds_row ds name i).
Proof.
  unfold ds_row. eapply frame_bind; [apply frame_ds_values|].
  intros a _. destruct a; try apply frame_raise. by apply frame_lift.
Qed.

Lemma fresh_set_var_attrs n ds name l :
  fresh_ds n ds → n ≤ l → fresh_ds n (set_var_attrs ds name l).
Proof.
  intros [Hv Hg] Hl. split; [|done]. simpl.
  apply Forall_fmap. eapply Forall_impl; [exact Hv|].
  intros [k v] Hk. simpl in *. by case_decide.
Qed.

Lemma fresh_set_ds_attrs n ds l :
  fresh_ds n ds → n ≤ l → fresh_ds n (set_ds_attrs ds l).
Proof. intros [Hv Hg] Hl. by split. Qed.

Lemma frame_snapshot n ds : frame n (λ _, True) (snapshot ds).
Proof.
  unfold snapshot. eapply (frame_bind _ (λ _, True)).
  - eapply frame_weaken; [apply (frame_mapM _ (λ _, True))|done].
    intros kv. eapply frame_bind; [apply frame_read_arr|]. intros a _.
    eapply frame_bind; [apply frame_read_dict|]. intros t _. by apply frame_ret.
  - intros vars _. eapply frame_bind; [apply frame_read_dict|].
    intros g _. by apply frame_ret.
Qed.

Lemma frame_write_file n f : frame n (λ _, True) (write_file f).
Proof. intros w Hw. by simpl. Qed.

Lemma frame_to_netcdf n ds path enc : frame n (λ _, True) (to_netcdf ds path enc).
Proof.
  unfold to_netcdf. eapply frame_bind; [apply frame_snapshot|].
  intros a _. apply frame_write_file.
Qed.

Section frame_script.
Context `{Formatting}.

Lemma frame_now n : frame n (λ _, True) now.
Proof. intros w Hw. by simpl. Qed.

Lemma frame_locate_window n self : frame n (λ _, True) (locate_window self).
Proof.
  unfold locate_window. eapply frame_bind; [apply frame_ds_row|]. intros row _.
  eapply (frame_bind _ (λ _, True)); [by apply frame_lift|]. intros i _.
  eapply (frame_bind _ (λ _, True)); [by apply frame_lift|]. intros j _.
  by apply frame_ret.
Qed.

Lemma frame_add_column n self i j df name :
  frame n (λ _, True) (add_column self i j df name).
Proof.
  unfold add_column. eapply frame_bind; [apply frame_ds_ndim|]. intros k _.
  destruct (k =? 2).
  - eapply frame_bind; [apply frame_ds_row|]. intros row _. by apply frame_lift.
  - eapply frame_bind; [apply frame_ds_ndim|]. intros k' _.
    destruct (2 <? k'); [apply frame_raise | by apply frame_ret].
Qed.

Lemma frame_dataset_of_frame n df : frame n (fresh_ds n) (dataset_of_frame df).
Proof.
  unfold dataset_of_frame.
  eapply (frame_bind _ (Forall (λ kv, n ≤ v_attrs kv.2))).
  - apply frame_mapM. intros kv.
    eapply frame_bind; [apply frame_alloc|]. intros d _.
    eapply frame_bind; [apply frame_alloc|]. intros t Ht.
    by apply frame_ret.
  - intros vars Hvars. eapply frame_bind; [apply frame_alloc|]. intros g Hg.
    case_bool_decide; [|apply frame_raise].
    apply frame_ret. split; [|done]. simpl.
    apply Forall_forall. intros kv [_ Hkv]%list_elem_of_filter.
    by apply (proj1 (Forall_forall _ _) Hvars).
Qed.

Lemma frame_copy_var_attrs n parent child name :
  fresh_ds n child → frame n (fresh_ds n) (copy_var_attrs parent child name).
Proof.
  intros Hc. unfold copy_var_attrs.
  eapply frame_bind; [apply frame_var_attrs_any|]. intros src _.
  eapply (frame_bind _ (λ _, True)); [by apply frame_lift|]. intros v _.
  eapply frame_bind; [apply frame_read_dict|]. intros d _.
  eapply frame_bind; [apply frame_alloc|]. intros l Hl.
  apply frame_ret. by apply fresh_set_var_attrs.
Qed.

Lemma frame_scale_bound n parent child name k :
  fresh_ds n child → frame n (λ _, True) (scale_bound parent child name k).
Proof.
  intros Hc. unfold scale_bound.
  eapply frame_bind; [apply frame_attr_has|]. intros [] _; [|by apply frame_ret].
  eapply frame_bind; [apply frame_attr_get|]. intros x _.
  eapply (frame_bind _ (λ _, True)); [by apply frame_lift|]. intros y _.
  by apply frame_attr_set.
Qed.

Lemma frame_strip_ancillary n parent child name :
  fresh_ds n child → frame n (λ _, True) (strip_ancillary parent child name).
Proof.
  intros Hc. unfold strip_ancillary.
  eapply frame_bind; [apply frame_attr_get|]. intros s _.
  eapply (frame_bind _ (λ _, True)); [by apply frame_lift|]. intros avs _.
  apply frame_forM_. intros av. case_bool_decide; [by apply frame_ret|].
  eapply frame_bind; [apply frame_attr_get|]. intros cur _.
  eapply (frame_bind _ (λ _, True)); [by apply frame_lift|]. intros new _.
  by apply frame_attr_set.
Qed.

Lemma frame_repair_variable n self child name :
  fresh_ds n child → frame n (fresh_ds n) (repair_variable self child name).
Proof.
  intros Hc. unfold repair_variable.
  eapply frame_bind; [apply frame_ds_ndim|]. intros k _.
  eapply (frame_bind _ (fresh_ds n)).
  - destruct (k =? 2).
    + eapply frame_bind; [by apply frame_copy_var_attrs|]. intros child' Hc'.
      eapply (frame_bind _ (λ _, True)); [|intros _ _; by apply frame_ret].
      destruct (negb (str_in "QC" name)); [|by apply frame_ret].
      destruct (negb (str_in "DM" name)); [|by apply frame_ret].
      eapply frame_bind; [by apply frame_attr_set|]. intros _ _.
      eapply frame_bind; [by apply frame_scale_bound|]. intros _ _.
      by apply frame_scale_bound.
    + eapply frame_bind; [apply frame_ds_ndim|]. intros k' _.
      destruct (2 <? k'); [apply frame_raise | by apply frame_ret].
  - intros child' Hc'.
    eapply frame_bind; [by apply frame_try_pass, frame_strip_ancillary|].
    intros _ _. by apply frame_ret.
Qed.

Lemma frame_create_dataset n self :
  frame n (fresh_ds n) (create_dataset_with_variables self).
Proof.
  unfold create_dataset_with_variables.
  eapply frame_bind; [apply frame_locate_window|]. intros [i j] _.
  eapply frame_bind.
  { apply (frame_foldM _ (λ _, True)); [|done]. intros. apply frame_add_column. }
  intros df _. eapply frame_bind; [apply frame_dataset_of_frame|].
  intros child Hc. apply frame_foldM; [|done].
  intros. by apply frame_repair_variable.
Qed.

Lemma frame_assign_global_attributes n self child :
  fresh_ds n child → frame n (fresh_ds n) (assign_global_attributes self child).
Proof.
  intros Hc. unfold assign_global_attributes.
  eapply frame_bind; [apply frame_read_dict|]. intros d _.
  eapply frame_bind; [apply frame_alloc|]. intros c _.
  eapply frame_bind; [apply frame_read_dict|]. intros d' _.
  eapply frame_bind; [apply frame_alloc|]. intros l Hl.
  cbn [set_ds_attrs ds_attrs].
  repeat first
    [ eapply frame_bind; [by apply frame_setitem|]; intros _ _
    | eapply frame_bind; [apply frame_now|]; intros ? _
    | eapply frame_bind; [apply frame_getitem|]; intros ? _
    | eapply (frame_bind _ (λ _, True)); [by apply frame_lift|]; intros ? _
    | eapply frame_bind; [by apply frame_delitem|]; intros _ _ ].
  apply frame_ret. by apply fresh_set_ds_attrs.
Qed.

Lemma frame_encode_variable n child enc name :
  fresh_ds n child → frame n (λ _, True) (encode_variable child enc name).
Proof.
  intros Hc. unfold encode_variable. destruct (classify name); try by apply frame_ret.
  eapply frame_bind; [apply frame_attr_get|]. intros s _.
  eapply (frame_bind _ (λ _, True)); [by apply frame_lift|]. intros a _.
  eapply frame_bind; [by apply frame_attr_set|]. intros _ _. by apply frame_ret.
Qed.

Lemma frame_output_to_netcdf n self child :
  fresh_ds n child → frame n (λ _, True) (output_to_netcdf self child).
Proof.
  intros Hc. unfold output_to_netcdf, compute_encoding.
  eapply frame_bind.
  { apply (frame_foldM _ (λ _, True)); [|done].
    intros. by apply frame_encode_variable. }
  intros enc _. eapply frame_bind; [apply frame_getitem|]. intros id _.
  destruct id; try apply frame_raise. apply frame_to_netcdf.
Qed.

Lemma frame_station n parent p : frame n (λ _, True) (station parent p).
Proof.
  unfold station.
  eapply (frame_bind _ (λ _, True)); [by apply frame_lift|]. intros self _.
  eapply frame_bind; [apply frame_create_dataset|]. intros ds Hds.
  eapply frame_bind; [by apply frame_assign_global_attributes|]. intros ds' Hds'.
  by apply frame_output_to_netcdf.
Qed.

Lemma frame_stations n parent ps : frame n (λ _, True) (forM_ ps (station parent)).
Proof. apply frame_forM_. intros p. apply frame_station. Qed.

End frame_script.

(** ** What a dataset holds in a store *)

Definition var_array (h : list obj) (ds : Dataset) (name : string) : option ndarray :=
  match assoc_get name (ds_vars ds) with
  | Some v => match h !! v_data v with
              | Some (OArr a) => Some a
              | _ => None
              end
  | None => None
  end.

Definition var_dict (h : list obj) (ds : Dataset) (name : string)
  : option (gmap string attr_val) :=
  match assoc_get name (ds_vars ds) with
  | Some v => match h !! v_attrs v with
              | Some (ODict d) => Some d
              | _ => None
              end
  | None => None
  end.

(** Every variable of the dataset has its array and its dictionary in the
    store.  A checker, so that it can be run on a given store. *)
Definition ds_valid (h : list obj) (ds : Dataset) : bool :=
  forallb (λ kv : string * XVariable,
             match h !! v_data kv.2, h !! v_attrs kv.2 with
             | Some (OArr _), Some (ODict _) => true
             | _, _ => false
             end) (ds_vars ds).

Lemma assoc_get_Some_fst {V} k (v : V) l : assoc_get k l = Some v → k ∈ l.*1.
Proof.
  intros E%assoc_get_elem. apply list_elem_of_fmap. by exists (k, v).
Qed.

Lemma assoc_get_None {V} k (l : list (string * V)) : assoc_get k l = None ↔ k ∉ l.*1.
Proof.
  induction l as [|[k' v'] l IH]; simpl.
  - split; [intros _; apply not_elem_of_nil | done].
  - rewrite not_elem_of_cons. case_decide as Hk; [|by rewrite IH; intuition].
    split; [done | by intros [? _]].
Qed.

Lemma assoc_get_is_Some {V} k (l : list (string * V)) :
  is_Some (assoc_get k l) ↔ k ∈ l.*1.
Proof.
  rewrite <- not_eq_None_Some, assoc_get_None.
  split; [apply dec_stable | by intros ? ?].
Qed.

Lemma ds_valid_var h ds name v :
  ds_valid h ds = true → assoc_get name (ds_vars ds) = Some v →
  ∃ a d, h !! v_data v = Some (OArr a) ∧ h !! v_attrs v = Some (ODict d).
Proof.
  unfold ds_valid. rewrite forallb_forall. intros Hall E%assoc_get_elem.
  specialize (Hall (name, v)). rewrite <- list_elem_of_In in Hall.
  specialize (Hall E). simpl in Hall.
  repeat case_match; try done. eauto.
Qed.

Lemma ds_valid_array h ds name :
  ds_valid h ds = true → name ∈ (ds_vars ds).*1 → is_Some (var_array h ds name).
Proof.
  intros Hv [v E]%assoc_get_is_Some. unfold var_array. rewrite E.
  destruct (ds_valid_var _ _ _ _ Hv E) as (a & d & -> & _). eauto.
Qed.

Lemma ds_valid_dict h ds name :
  ds_valid h ds = true → name ∈ (ds_vars ds).*1 → is_Some (var_dict h ds name).
Proof.
  intros Hv [v E]%assoc_get_is_Some. unfold var_dict. rewrite E.
  destruct (ds_valid_var _ _ _ _ Hv E) as (a & d & _ & ->). eauto.
Qed.

Lemma data_vars_vars ds name : name ∈ data_vars ds → name ∈ (ds_vars ds).*1.
Proof. unfold data_vars. by intros [_ ?]%list_elem_of_filter. Qed.

(** Reads of a variable, when the store has it *)
Lemma ds_values_run w ds name a :
  var_array (w_heap w) ds name = Some a → ds_values ds name w = (Ok a, w).
Proof.
  unfold var_array, ds_values, ds_get. destruct (assoc_get _ _) as [v|]; [|done].
  intros E. rewrite bind_lift_ok with (a := v) by done.
  apply read_arr_at. unfold at_arr. by repeat case_match; simplify_eq.
Qed.

Lemma ds_values_inv w ds name a w' :
  ds_values ds name w = (Ok a, w') → w' = w ∧ var_array (w_heap w) ds name = Some a.
Proof.
  unfold var_array, ds_values, ds_get. destruct (assoc_get _ _) as [v|]; [|done].
  rewrite bind_lift_ok with (a := v) by done. unfold read_arr.
  repeat case_match; naive_solver.
Qed.

Lemma ds_ndim_run w ds name a :
  var_array (w_heap w) ds name = Some a → ds_ndim ds name w = (Ok (ndim a), w).
Proof.
  unfold var_array, ds_ndim, ds_get. destruct (assoc_get _ _) as [v|]; [|done].
  intros E. rewrite bind_lift_ok with (a := v) by done.
  rewrite (read_arr_bind _ _ a); [done|].
  unfold at_arr. by repeat case_match; simplify_eq.
Qed.

Lemma ds_row_run w ds name rows i :
  var_array (w_heap w) ds name = Some (Arr2 rows) →
  ds_row ds name i w = (py_getitem rows i, w).
Proof.
  intros E. unfold ds_row. by rewrite (bind_ok _ _ _ _ _ (ds_values_run _ _ _ _ E)).
Qed.

Lemma var_attrs_run w ds name v :
  assoc_get name (ds_vars ds) = Some v → var_attrs ds name w = (Ok (v_attrs v), w).
Proof. intros E. unfold var_attrs, ds_get. by rewrite E. Qed.

Lemma var_dict_at w ds name d :
  var_dict (w_heap w) ds name = Some d →
  ∃ v, assoc_get name (ds_vars ds) = Some v ∧ at_dict w (v_attrs v) d.
Proof.
  unfold var_dict, at_dict. destruct (assoc_get _ _) as [v|]; [|done].
  intros E. exists v. by repeat case_match; simplify_eq.
Qed.

Lemma attr_get_run w ds name d k :
  var_dict (w_heap w) ds name = Some d →
  attr_get ds name k w =
  (match d !! k with Some v => Ok v | None => Raise (KeyError k) end, w).
Proof.
  intros (v & E & Hd)%var_dict_at. unfold attr_get.
  rewrite (bind_ok _ _ _ _ _ (var_attrs_run _ _ _ _ E)). by apply getitem_at.
Qed.

Lemma attr_has_run w ds name d k :
  var_dict (w_heap w) ds name = Some d →
  attr_has ds name k w = (Ok (bool_decide (is_Some (d !! k))), w).
Proof.
  intros (v & E & Hd)%var_dict_at. unfold attr_has.
  rewrite (bind_ok _ _ _ _ _ (var_attrs_run _ _ _ _ E)). by apply contains_at.
Qed.

Lemma attr_set_run w ds name v d k x :
  assoc_get name (ds_vars ds) = Some v → at_dict w (v_attrs v) d →
  attr_set ds name k x w = (Ok (), upd (v_attrs v) (<[k := x]> d) w).
Proof.
  intros E Hd. unfold attr_set.
  rewrite (bind_ok _ _ _ _ _ (var_attrs_run _ _ _ _ E)). by apply setitem_at.
Qed.

Lemma attr_get_missing w ds name k :
  assoc_get name (ds_vars ds) = None →
  attr_get ds name k w = (Raise (KeyError name), w).
Proof. intros E. unfold attr_get, var_attrs, ds_get. by rewrite E. Qed.

(** ** Minimum, maximum and first occurrence *)

Lemma sample_lt_true a b :
  sample_lt a b = true ↔ ∃ x y, a = Num x ∧ b = Num y ∧ (x < y)%Q.
Proof.
  destruct a as [x|], b as [y|]; simpl; try (split; [done | by intros (?&?&?&?&?)]).
  rewrite negb_true_iff, <- not_true_iff_false, Qle_bool_iff. split.
  - intros Hn. exists x, y. repeat split. by apply Qnot_le_lt.
  - intros (x' & y' & [= <-] & [= <-] & Hlt). by apply Qlt_not_le.
Qed.

Lemma sample_lt_false_num x y : sample_lt (Num x) (Num y) = false ↔ (y <= x)%Q.
Proof. simpl. by rewrite negb_false_iff, Qle_bool_iff. Qed.

(** Nothing compares smaller than an element that lies below one it does not
    compare smaller than. *)
Lemma sample_lt_below y item cur :
  sample_lt item cur = true → sample_lt y cur = false → sample_lt y item = false.
Proof.
  intros (i & c & -> & -> & Hic)%sample_lt_true. destruct y as [y|]; [|done].
  rewrite !sample_lt_false_num. intros Hcy.
  apply Qlt_le_weak. by eapply Qlt_le_trans.
Qed.

Lemma sample_lt_above y item cur :
  sample_lt cur item = true → sample_lt cur y = false → sample_lt item y = false.
Proof.
  intros (c & i & -> & -> & Hci)%sample_lt_true. destruct y as [y|]; [|done].
  rewrite !sample_lt_false_num. intros Hyc.
  apply Qlt_le_weak. by eapply Qle_lt_trans.
Qed.

Definition is_num (x : sample) : bool :=
  match x with Num _ => true | NaN => false end.

Lemma fold_min_spec r x seen :
  x ∈ seen → (∀ y, y ∈ seen → sample_lt y x = false) →
  let m := fold_left (λ cur item, if sample_lt item cur then item else cur) r x in
  m ∈ seen ++ r ∧ (∀ y, y ∈ seen ++ r → sample_lt y m = false) ∧
  (is_num x = true → is_num m = true).
Proof.
  revert x seen. induction r as [|item r IH]; intros x seen Hx Hlow; simpl.
  - rewrite app_nil_r. done.
  - destruct (sample_lt item x) eqn:Hlt.
    + destruct (IH item (seen ++ [item])) as (Hm & Hall & Hn).
      * apply elem_of_app. right. by left.
      * intros y [Hy|Hy%list_elem_of_singleton]%elem_of_app.
        -- eapply sample_lt_below; eauto.
        -- subst y. destruct item as [q|]; [|done].
           apply sample_lt_false_num. apply Qle_refl.
      * rewrite <- app_assoc in Hm, Hall. simpl in *. repeat split; try done.
        intros _. apply Hn. by apply sample_lt_true in Hlt as (?&?&->&_).
    + destruct (IH x (seen ++ [item])) as (Hm & Hall & Hn).
      * apply elem_of_app. by left.
      * intros y [Hy|Hy%list_elem_of_singleton]%elem_of_app; [auto|by subst].
      * rewrite <- app_assoc in Hm, Hall. done.
Qed.

Lemma fold_max_spec r x seen :
  x ∈ seen → (∀ y, y ∈ seen → sample_lt x y = false) →
  let m := fold_left (λ cur item, if sample_lt cur item then item else cur) r x in
  m ∈ seen ++ r ∧ (∀ y, y ∈ seen ++ r → sample_lt m y = false) ∧
  (is_num x = true → is_num m = true).
Proof.
  revert x seen. induction r as [|item r IH]; intros x seen Hx Hlow; simpl.
  - rewrite app_nil_r. done.
  - destruct (sample_lt x item) eqn:Hlt.
    + destruct (IH item (seen ++ [item])) as (Hm & Hall & Hn).
      * apply elem_of_app. right. by left.
      * intros y [Hy|Hy%list_elem_of_singleton]%elem_of_app.
        -- eapply sample_lt_above; eauto.
        -- subst y. destruct item as [q|]; [|done].
           apply sample_lt_false_num. apply Qle_refl.
      * rewrite <- app_assoc in Hm, Hall. simpl in *. repeat split; try done.
        intros _. apply Hn. by apply sample_lt_true in Hlt as (?&?&_&->&_).
    + destruct (IH x (seen ++ [item])) as (Hm & Hall & Hn).
      * apply elem_of_app. by left.
      * intros y [Hy|Hy%list_elem_of_singleton]%elem_of_app; [auto|by subst].
      * rewrite <- app_assoc in Hm, Hall. done.
Qed.

Lemma sample_lt_irrefl x : sample_lt x x = false.
Proof. destruct x as [q|]; [|done]. apply sample_lt_false_num, Qle_refl. Qed.

(** [min(xs)] is an element of [xs] that no element compares smaller than. *)
Lemma py_min_spec xs m :
  py_min xs = Ok m → m ∈ xs ∧ ∀ y, y ∈ xs → sample_lt y m = false.
Proof.
  destruct xs as [|x r]; [done|]. simpl. intros [= <-].
  destruct (fold_min_spec r x [x]) as (Hm & Hall & _).
  - by left.
  - intros y ->%list_elem_of_singleton. apply sample_lt_irrefl.
  - done.
Qed.

Lemma py_max_spec xs m :
  py_max xs = Ok m → m ∈ xs ∧ ∀ y, y ∈ xs → sample_lt m y = false.
Proof.
  destruct xs as [|x r]; [done|]. simpl. intros [= <-].
  destruct (fold_max_spec r x [x]) as (Hm & Hall & _).
  - by left.
  - intros y ->%list_elem_of_singleton. apply sample_lt_irrefl.
  - done.
Qed.

Lemma py_min_num q r : ∃ m, py_min (Num q :: r) = Ok (Num m).
Proof.
  simpl. destruct (fold_min_spec r (Num q) [Num q]) as (_ & _ & Hn).
  - by left.
  - intros y ->%list_elem_of_singleton. apply sample_lt_irrefl.
  - specialize (Hn eq_refl). destruct (fold_left _ _ _) as [m|]; [eauto|done].
Qed.

Lemma py_max_num q r : ∃ m, py_max (Num q :: r) = Ok (Num m).
Proof.
  simpl. destruct (fold_max_spec r (Num q) [Num q]) as (_ & _ & Hn).
  - by left.
  - intros y ->%list_elem_of_singleton. apply sample_lt_irrefl.
  - specialize (Hn eq_refl). destruct (fold_left _ _ _) as [m|]; [eauto|done].
Qed.

Lemma result_bind_succ (r : result nat) i :
  result_bind r (λ k, Ok (S k)) = Ok i ↔ ∃ k, r = Ok k ∧ i = S k.
Proof.
  destruct r as [k|e]; simpl.
  - split; [intros [= <-]; eauto | by intros (? & [= <-] & ->)].
  - split; [done | by intros (? & ? & _)].
Qed.

(** [xs.index(v)] is the first position whose element equals [v]. *)
Lemma list_index_spec v xs i :
  list_index v xs = Ok i ↔
  (∃ x, xs !! i = Some x ∧ sample_eqb x v = true) ∧
  (∀ j y, j < i → xs !! j = Some y → sample_eqb y v = false).
Proof.
  revert i. induction xs as [|x r IH]; intros i; simpl.
  - split; [done | by intros [(? & ? & _) _]].
  - destruct (sample_eqb x v) eqn:Hx.
    + split.
      * intros [= <-]. split; [by exists x | intros; lia].
      * intros [(y & Hy & Hyv) Hfirst]. destruct i as [|i]; [done|].
        specialize (Hfirst 0 x ltac:(lia) eq_refl). congruence.
    + rewrite result_bind_succ. split.
      * intros (k & [Hk Hfirst]%IH & ->). split; [done|].
        intros [|j] y Hj; simpl; [by intros [= <-] | apply Hfirst; lia].
      * intros [(y & Hy & Hyv) Hfirst].
        destruct i as [|i]; simpl in *; [congruence|].
        exists i. split; [|done]. apply IH. split; [by exists y|].
        intros j z Hj Hz. apply (Hfirst (S j) z); [lia | done].
Qed.

Lemma list_index_found v xs x :
  x ∈ xs → sample_eqb x v = true → ∃ i, list_index v xs = Ok i.
Proof.
  induction xs as [|y r IH]; [by intros ?%elem_of_nil|].
  intros [->|Hx]%elem_of_cons Hxv; simpl.
  - rewrite Hxv. eauto.
  - destruct (sample_eqb y v); [eauto|]. destruct (IH Hx Hxv) as [i ->]. simpl. eauto.
Qed.

Lemma sample_eqb_refl q : sample_eqb (Num q) (Num q) = true.
Proof. simpl. apply Qeq_bool_iff. reflexivity. Qed.

(** A row that starts with a number has its minimum and its maximum at some
    index. *)
Lemma window_exists q r :
  ∃ lo hi i j,
    py_min (Num q :: r) = Ok lo ∧ py_max (Num q :: r) = Ok hi ∧
    list_index lo (Num q :: r) = Ok i ∧ list_index hi (Num q :: r) = Ok j.
Proof.
  destruct (py_min_num q r) as [lo Hlo], (py_max_num q r) as [hi Hhi].
  destruct (py_min_spec _ _ Hlo) as [Hlo_in _].
  destruct (py_max_spec _ _ Hhi) as [Hhi_in _].
  destruct (list_index_found _ _ _ Hlo_in (sample_eqb_refl lo)) as [i Hi].
  destruct (list_index_found _ _ _ Hhi_in (sample_eqb_refl hi)) as [j Hj].
  by exists (Num lo), (Num hi), i, j.
Qed.

(** The elements of a slice *)
Lemma py_slice_lookup {A} (xs : list A) i j k :
  py_slice i j xs !! k = if decide (k < j - i) then xs !! (i + k) else None.
Proof.
  unfold py_slice. case_decide.
  - by rewrite lookup_take_lt, lookup_drop.
  - by rewrite lookup_take_ge by lia.
Qed.

Lemma py_slice_length {A} (xs : list A) i j :
  length (py_slice i j xs) = (j - i) `min` (length xs - i).
Proof. unfold py_slice. by rewrite length_take, length_drop. Qed.

Lemma py_slice_empty {A} (xs : list A) i j : j ≤ i → py_slice i j xs = [].
Proof. intros Hji. unfold py_slice. by replace (j - i) with 0 by lia. Qed.

(** ** Ordered dictionaries *)

Lemma assoc_set_keys {V} k (v : V) l :
  ∀ k', k' ∈ (assoc_set k v l).*1 ↔ k' = k ∨ k' ∈ l.*1.
Proof.
  induction l as [|[k1 v1] l IH]; intros k'; simpl.
  - rewrite list_elem_of_singleton, elem_of_nil. tauto.
  - case_decide as Hk; simpl; rewrite !elem_of_cons.
    + subst. tauto.
    + rewrite IH. tauto.
Qed.

Lemma assoc_get_set {V} k (v : V) l k' :
  assoc_get k' (assoc_set k v l) = if decide (k' = k) then Some v else assoc_get k' l.
Proof.
  induction l as [|[k1 v1] l IH]; simpl.
  - by repeat case_decide.
  - repeat (case_decide; simpl; simplify_eq); try done; by rewrite ?IH, ?decide_True, ?decide_False.
Qed.

Lemma assoc_get_fmap {V W} (f : V → W) k (l : list (string * V)) :
  assoc_get k ((λ kv, (kv.1, f kv.2)) <$> l) = f <$> assoc_get k l.
Proof.
  induction l as [|[k1 v1] l IH]; simpl; [done|]. by case_decide.
Qed.

Lemma assoc_get_filter_ne {V} k bad (l : list (string * V)) :
  k ≠ bad → assoc_get k (filter (λ kv, kv.1 ≠ bad) l) = assoc_get k l.
Proof.
  intros Hk. induction l as [|[k1 v1] l IH]; simpl; [done|].
  rewrite filter_cons. simpl. repeat case_decide; simplify_eq; simpl;
    rewrite ?decide_True, ?decide_False by done; done.
Qed.

Lemma assoc_get_filter_eq {V} bad (l : list (string * V)) :
  assoc_get bad (filter (λ kv, kv.1 ≠ bad) l) = None.
Proof.
  apply assoc_get_None. intros (kv & -> & [Hne _]%list_elem_of_filter)%list_elem_of_fmap.
  done.
Qed.

(** ** The frame that the first loop fills *)

Lemma df_setitem_keys df name values df' :
  df_setitem df name values = Ok df' →
  ∀ k, k ∈ (df_columns df').*1 ↔ k = name ∨ k ∈ (df_columns df).*1.
Proof.
  unfold df_setitem. repeat case_match; intros [= <-] k; simpl; try done.
  - rewrite assoc_set_keys. rewrite <- list_fmap_compose.
    by replace (fst ∘ (λ kv : string * list sample, (kv.1, replicate (length values) NaN)))
      with (fst : string * list sample → string) by done.
  - by rewrite assoc_set_keys.
Qed.

(** In a frame all of whose values have one length nothing is refilled and
    nothing is refused. *)
Lemma df_setitem_uniform df name values :
  df_index df = length values ∨ df_columns df = [] ∧ df_index df = 0 →
  df_setitem df name values =
  Ok {| df_index := length values;
        df_columns := assoc_set name values (df_columns df) |}.
Proof.
  unfold df_setitem. intros [E|[E0 E]].
  - rewrite E. destruct (length values) as [|n] eqn:En; simpl.
    + done.
    + by rewrite Nat.eqb_refl.
  - rewrite E, E0. simpl. destruct (length values) as [|n] eqn:En; by simpl.
Qed.

Section first_loop.
Context (self : Child_NetCDF_File) (i j : nat).

Abbreviation parent := (contents (parentFile self)).

Lemma add_column_run w df name a :
  var_array (w_heap w) parent name = Some a →
  add_column self i j df name w =
  (match a with
   | Arr2 rows =>
       result_bind (py_getitem rows (position self))
                   (λ row, df_setitem df name (py_slice i j row))
   | _ => if 2 <? ndim a then Raise (SystemExit (too_many_dimensions name))
          else Ok df
   end, w).
Proof.
  intros E. unfold add_column.
  rewrite (bind_ok _ _ _ _ _ (ds_ndim_run _ _ _ _ E)).
  destruct a as [x|xs|rows|k]; simpl.
  - by rewrite (bind_ok _ _ _ _ _ (ds_ndim_run _ _ _ _ E)).
  - by rewrite (bind_ok _ _ _ _ _ (ds_ndim_run _ _ _ _ E)).
  - unfold mbind, M_bind. rewrite (ds_row_run _ _ _ _ _ E).
    unfold lift. by destruct (py_getitem rows (position self)).
  - by rewrite (bind_ok _ _ _ _ _ (ds_ndim_run _ _ _ _ E)).
Qed.

(** The column that a variable contributes: the slice of its row, when it has
    two dimensions. *)
Definition column (h : list obj) (name : string) : option (list sample) :=
  match var_array h parent name with
  | Some (Arr2 rows) =>
      match py_getitem rows (position self) with
      | Ok row => Some (py_slice i j row)
      | Raise _ => None
      end
  | _ => None
  end.

(** What the first loop asks of a variable: an array of at most two
    dimensions and, with two, a row for the station. *)
Definition loadable (h : list obj) (name : string) : bool :=
  match var_array h parent name with
  | Some (Arr2 rows) => is_ok (py_getitem rows (position self))
  | Some a => ndim a <? 2
  | None => false
  end.

Definition frame_cols (h : list obj) (names : list string)
    (cols : list (string * list sample)) : list (string * list sample) :=
  fold_left (λ cols name, match column h name with
                          | Some c => assoc_set name c cols
                          | None => cols
                          end) names cols.

Lemma loop1_inv names df w df' w' :
  (∀ name, name ∈ names → is_Some (var_array (w_heap w) parent name)) →
  foldM names (add_column self i j) df w = (Ok df', w') →
  w' = w ∧
  (∀ name, name ∈ names → loadable (w_heap w) name = true) ∧
  (∀ k, k ∈ (df_columns df').*1 ↔
        k ∈ (df_columns df).*1 ∨ k ∈ names ∧ is_Some (column (w_heap w) k)).
Proof.
  revert df. induction names as [|name names IH]; intros df Hval; simpl.
  - intros [= <- <-]. split; [done|]. split; [by intros ? ?%elem_of_nil|].
    intros k. rewrite elem_of_nil. tauto.
  - destruct (Hval name) as [a Ha]; [by left|].
    intros (df1 & w1 & Hstep & Hrest)%bind_inv.
    rewrite (add_column_run _ _ _ _ Ha) in Hstep. injection Hstep as Hdf1 <-.
    apply IH in Hrest as (-> & Hload & Hkeys); [|intros; apply Hval; by right].
    split; [done|]. split.
    + intros name' [->|Hin]%elem_of_cons; [|by apply Hload].
      unfold loadable. rewrite Ha. destruct a as [x|xs|rows|k]; simpl in *; try done.
      by destruct (py_getitem rows (position self)).
    + intros k. rewrite Hkeys, elem_of_cons. unfold column at 2.
      destruct a as [x|xs|rows|n]; simpl in Hdf1; try discriminate;
        try (injection Hdf1 as <-).
      * split; [intros [?|[? ?]]; eauto|].
        intros [?|[[->|?] Hc]]; eauto.
        unfold column in Hc. rewrite Ha in Hc. by destruct Hc.
      * split; [intros [?|[? ?]]; eauto|].
        intros [?|[[->|?] Hc]]; eauto.
        unfold column in Hc. rewrite Ha in Hc. by destruct Hc.
      * destruct (py_getitem rows (position self)) as [row|e] eqn:Hrow; [|done].
        simpl in Hdf1. rewrite (df_setitem_keys _ _ _ _ Hdf1).
        split; [intros [[->|?]|[? ?]]; eauto|].
        -- right. split; [by left|]. unfold column. rewrite Ha, Hrow. eauto.
        -- intros [?|[[->|?] Hc]]; eauto.
Qed.

(** The shape of a frame whose values all have the length [n] *)
Definition frame_ok (n : nat) (df : DataFrame) : Prop :=
  df_index df = n ∨ df_columns df = [] ∧ df_index df = 0.

Lemma loop1_exact names n df w :
  (∀ name, name ∈ names → loadable (w_heap w) name = true) →
  (∀ name c, name ∈ names → column (w_heap w) name = Some c → length c = n) →
  frame_ok n df →
  ∃ df', foldM names (add_column self i j) df w = (Ok df', w) ∧
         frame_ok n df' ∧
         df_columns df' = frame_cols (w_heap w) names (df_columns df).
Proof.
  revert df. induction names as [|name names IH]; intros df Hload Hlen Hdf; simpl.
  - by exists df.
  - assert (Hl := Hload name ltac:(by left)). unfold loadable in Hl.
    assert (Hc := Hlen name). unfold column in Hc |- *.
    destruct (var_array (w_heap w) parent name) as [a|] eqn:Ha; [|done].
    assert (∃ df1, add_column self i j df name w = (Ok df1, w) ∧ frame_ok n df1 ∧
              df_columns df1 =
              match a with
              | Arr2 rows => match py_getitem rows (position self) with
                             | Ok row => assoc_set name (py_slice i j row) (df_columns df)
                             | Raise _ => df_columns df
                             end
              | _ => df_columns df
              end) as (df1 & Hstep & Hdf1 & Hcols).
    { rewrite (add_column_run _ _ _ _ Ha).
      destruct a as [x|xs|rows|k]; simpl in *.
      - by exists df.
      - by exists df.
      - destruct (py_getitem rows (position self)) as [row|e]; [|done]. simpl.
        specialize (Hc _ ltac:(by left) eq_refl).
        rewrite df_setitem_uniform by (by rewrite Hc).
        eexists. split; [done|]. split; [by left|done].
      - done. }
    rewrite (bind_ok _ _ _ _ _ Hstep).
    destruct (IH df1) as (df' & Hrun & Hdf' & Hcols').
    + intros. apply Hload. by right.
    + intros ? ? ?. apply Hlen. by right.
    + done.
    + exists df'. split; [done|]. split; [done|]. rewrite Hcols', Hcols.
      by destruct a as [x|xs|rows|k]; try done; destruct (py_getitem _ _).
Qed.

Lemma frame_cols_get h names cols name :
  assoc_get name (frame_cols h names cols) =
  match column h name with
  | Some c => if decide (name ∈ names) then Some c else assoc_get name cols
  | None => assoc_get name cols
  end.
Proof.
  revert cols. unfold frame_cols.
  induction names as [|k names IH]; intros cols; cbn [fold_left].
  - destruct (column h name); [|done].
    destruct (decide _) as [Hin|]; [by apply elem_of_nil in Hin | done].
  - rewrite IH. destruct (column h name) as [c|] eqn:Hc.
    + destruct (decide (name ∈ names)) as [Hin|Hin].
      * by rewrite decide_True by by right.
      * destruct (decide (name = k)) as [->|Hne].
        -- rewrite decide_True by by left. by rewrite Hc, assoc_get_set, decide_True.
        -- rewrite decide_False by (rewrite elem_of_cons; tauto).
           destruct (column h k); [|done]. by rewrite assoc_get_set, decide_False.
    + destruct (column h k) eqn:Hk; [|done].
      rewrite assoc_get_set. case_decide; [|done]. congruence.
Qed.

End first_loop.

(** ** Making the objects of a dataset *)

Fixpoint var_refs {X} (n : nat) (xs : list (string * X)) : list (string * XVariable) :=
  match xs with
  | [] => []
  | kv :: r => (kv.1, {| v_data := n; v_attrs := S n |}) :: var_refs (S (S n)) r
  end.

Fixpoint var_objs {X} (fa : X → ndarray) (fd : X → gmap string attr_val)
    (xs : list (string * X)) : list obj :=
  match xs with
  | [] => []
  | kv :: r => OArr (fa kv.2) :: ODict (fd kv.2) :: var_objs fa fd r
  end.

Lemma alloc_vars_run {X} (fa : X → ndarray) (fd : X → gmap string attr_val)
    (xs : list (string * X)) w :
  mapM (λ kv : string * X,
          d ← alloc (OArr (fa kv.2));
          t ← alloc (ODict (fd kv.2));
          mret (kv.1, {| v_data := d; v_attrs := t |})) xs w
  = (Ok (var_refs (length (w_heap w)) xs),
     set_heap (w_heap w ++ var_objs fa fd xs) w).
Proof.
  revert w. induction xs as [|kv r IH]; intros w; simpl.
  - rewrite app_nil_r. by destruct w.
  - unfold mbind at 1, M_bind at 1. unfold mbind at 1, M_bind at 1. simpl.
    unfold mbind at 1, M_bind at 1. simpl.
    unfold mbind at 1, M_bind at 1. rewrite IH. simpl.
    rewrite !length_app. simpl.
    replace (length (w_heap w) + 1 + 1) with (S (S (length (w_heap w)))) by lia.
    replace (length (w_heap w) + 1) with (S (length (w_heap w))) by lia.
    unfold set_heap. simpl. by rewrite <- !app_assoc.
Qed.

Lemma var_refs_keys {X} n (xs : list (string * X)) : (var_refs n xs).*1 = xs.*1.
Proof. revert n. induction xs as [|kv r IH]; intros n; simpl; by rewrite ?IH. Qed.

Lemma var_refs_lookup {X} (fa : X → ndarray) (fd : X → gmap string attr_val)
    (xs : list (string * X)) h rest name x :
  assoc_get name xs = Some x →
  ∃ v, assoc_get name (var_refs (length h) xs) = Some v ∧
       (h ++ var_objs fa fd xs ++ rest) !! v_data v = Some (OArr (fa x)) ∧
       (h ++ var_objs fa fd xs ++ rest) !! v_attrs v = Some (ODict (fd x)).
Proof.
  revert h. induction xs as [|[k x0] r IH]; intros h; simpl; [done|].
  case_decide as Hk.
  - intros [= ->]. eexists. split; [done|]. simpl. split.
    + by rewrite lookup_app_r, Nat.sub_diag.
    + rewrite lookup_app_r by lia. by replace (S (length h) - length h) with 1 by lia.
  - intros Hx. destruct (IH (h ++ [OArr (fa x0); ODict (fd x0)]) Hx) as (v & Hv & Hd & Ha).
    rewrite length_app in Hv. simpl in Hv.
    replace (length h + 2) with (S (S (length h))) in Hv by lia.
    exists v. split; [done|]. rewrite <- app_assoc in Hd, Ha. done.
Qed.

Lemma var_array_app h ext ds name a :
  var_array h ds name = Some a → var_array (h ++ ext) ds name = Some a.
Proof.
  unfold var_array. destruct (assoc_get _ _) as [v|]; [|done].
  destruct (h !! v_data v) as [o|] eqn:E; [|done].
  by rewrite (lookup_app_l_Some _ _ _ _ E).
Qed.

Lemma var_dict_app h ext ds name d :
  var_dict h ds name = Some d → var_dict (h ++ ext) ds name = Some d.
Proof.
  unfold var_dict. destruct (assoc_get _ _) as [v|]; [|done].
  destruct (h !! v_attrs v) as [o|] eqn:E; [|done].
  by rewrite (lookup_app_l_Some _ _ _ _ E).
Qed.

Lemma ds_valid_app h ext ds : ds_valid h ds = true → ds_valid (h ++ ext) ds = true.
Proof.
  unfold ds_valid. rewrite !forallb_forall. intros Hall kv Hkv.
  specialize (Hall kv Hkv).
  destruct (h !! v_data kv.2) as [o1|] eqn:E1; [|done].
  destruct (h !! v_attrs kv.2) as [o2|] eqn:E2; [|by destruct o1].
  by rewrite (lookup_app_l_Some _ _ _ _ E1), (lookup_app_l_Some _ _ _ _ E2).
Qed.

(** The child that [dataset_of_frame] makes of the columns [cols] in a store
    of [n] objects *)
Definition child_of_frame (n : nat) (cols : list (string * list sample)) : Dataset :=
  {| ds_vars := filter (λ kv, kv.1 ≠ "index") (var_refs n cols);
     ds_coords := ["PRES"];
     ds_attrs := n + length (var_objs Arr1 (λ _, ∅) cols) |}.

Lemma dataset_of_frame_run df w :
  dataset_of_frame df w =
  (if bool_decide ("PRES" ∈ (df_columns df).*1)
   then Ok (child_of_frame (length (w_heap w)) (df_columns df))
   else Raise ValueError,
   set_heap (w_heap w ++ var_objs Arr1 (λ _, ∅) (df_columns df) ++ [ODict ∅]) w).
Proof.
  unfold dataset_of_frame.
  rewrite (bind_ok _ _ _ _ _ (alloc_vars_run Arr1 (λ _, ∅) (df_columns df) w)).
  rewrite alloc_bind. simpl. rewrite length_app, <- app_assoc.
  by case_bool_decide.
Qed.

Lemma child_of_frame_var h cols rest name vals :
  name ≠ "index" → assoc_get name cols = Some vals →
  let h' := h ++ var_objs Arr1 (λ _, ∅) cols ++ rest in
  var_array h' (child_of_frame (length h) cols) name = Some (Arr1 vals) ∧
  var_dict h' (child_of_frame (length h) cols) name = Some ∅.
Proof.
  intros Hne Hc.
  destruct (var_refs_lookup Arr1 (λ _, ∅) cols h rest _ _ Hc) as (v & Hv & Hd & Ha).
  unfold var_array, var_dict, child_of_frame. simpl.
  rewrite assoc_get_filter_ne by done. rewrite Hv, Hd, Ha. done.
Qed.

Lemma child_of_frame_keys n cols name :
  name ∈ (ds_vars (child_of_frame n cols)).*1 ↔ name ≠ "index" ∧ name ∈ cols.*1.
Proof.
  unfold child_of_frame. simpl. rewrite <- (var_refs_keys n cols).
  rewrite !list_elem_of_fmap. split.
  - intros ([k v] & -> & [Hne Hin]%list_elem_of_filter). split; [done|]. by exists (k, v).
  - intros (Hne & [k v] & -> & Hin). exists (k, v). split; [done|].
    by apply list_elem_of_filter.
Qed.

(** ** The attributes that the second loop gives a variable *)

Section scaling.
Context `{Formatting}.

(** [if k in src: dst[k] = src[k]*0.001] *)
Definition scale_key (src : gmap string attr_val) (k : string)
    (dst : gmap string attr_val) : result (gmap string attr_val) :=
  match src !! k with
  | Some x => result_bind (py_mul_milli x) (λ y, Ok (<[k := y]> dst))
  | None => Ok dst
  end.

(** The copy of the parent's attributes [d] after the step for the variables
    that are neither flags nor modes *)
Definition physical (name : string) (d : gmap string attr_val)
  : result (gmap string attr_val) :=
  if negb (str_in "QC" name) then
    if negb (str_in "DM" name) then
      result_bind
        (scale_key d "valid_min"
           (<["coverage_content_type" := AStr "physicalMeasurement"]> d))
        (scale_key d "valid_max")
    else Ok d
  else Ok d.

(** The references of [s] that name none of [names] cut out one by one *)
Definition strip_refs (names : list string) (s : string) : string :=
  fold_left (λ cur av, if bool_decide (av ∈ names) then cur
                       else str_replace av "" cur)
            (split_on " " s) s.

Definition stripped (names : list string) (d : gmap string attr_val)
  : gmap string attr_val :=
  match d !! "ancillary_variables" with
  | Some (AStr s) => <["ancillary_variables" := AStr (strip_refs names s)]> d
  | _ => d
  end.

Lemma scale_key_other src k dst d' k' :
  scale_key src k dst = Ok d' → k' ≠ k → d' !! k' = dst !! k'.
Proof.
  unfold scale_key. destruct (src !! k) as [x|]; [|by intros [= <-]].
  destruct (py_mul_milli x) as [y|e]; simpl; [|done].
  intros [= <-] Hne. by rewrite lookup_insert_ne.
Qed.

Lemma physical_other name d d1 k :
  physical name d = Ok d1 →
  k ≠ "coverage_content_type" → k ≠ "valid_min" → k ≠ "valid_max" →
  d1 !! k = d !! k.
Proof.
  unfold physical. intros Hp H1 H2 H3.
  destruct (negb (str_in "QC" name)); [|by injection Hp as <-].
  destruct (negb (str_in "DM" name)); [|by injection Hp as <-].
  destruct (scale_key d "valid_min" _) as [d0|e] eqn:E0; [|done]. simpl in Hp.
  rewrite (scale_key_other _ _ _ _ _ Hp) by done.
  rewrite (scale_key_other _ _ _ _ _ E0) by done.
  by rewrite lookup_insert_ne.
Qed.

End scaling.

Lemma assoc_get_set_var_attrs ds name l k :
  assoc_get k (ds_vars (set_var_attrs ds name l)) =
  (λ v, if decide (k = name) then {| v_data := v_data v; v_attrs := l |} else v)
    <$> assoc_get k (ds_vars ds).
Proof.
  unfold set_var_attrs. simpl. induction (ds_vars ds) as [|[k1 v1] r IH]; simpl; [done|].
  repeat (case_decide; simpl in *; simplify_eq); try done.
Qed.

Lemma set_var_attrs_keys ds name l :
  (ds_vars (set_var_attrs ds name l)).*1 = (ds_vars ds).*1.
Proof.
  unfold set_var_attrs. simpl. rewrite <- list_fmap_compose.
  apply list_fmap_ext. intros _ [k v] _. simpl. by case_decide.
Qed.

Lemma set_var_attrs_data_vars ds name l :
  data_vars (set_var_attrs ds name l) = data_vars ds.
Proof. unfold data_vars. by rewrite set_var_attrs_keys. Qed.

(** The world whose store is [h] and then one dictionary *)
Definition with_last (h : list obj) (d : gmap string attr_val) (w : World) : World :=
  set_heap (h ++ [ODict d]) w.

Lemma with_last_at h d w : at_dict (with_last h d w) (length h) d.
Proof. unfold at_dict, with_last. simpl. by rewrite lookup_app_r, Nat.sub_diag. Qed.

Lemma upd_with_last h d d' w : upd (length h) d' (with_last h d w) = with_last h d' w.
Proof.
  unfold upd, with_last, set_heap. simpl. f_equal.
  rewrite insert_app_r_alt, Nat.sub_diag by lia. done.
Qed.

Lemma attr_set_last ds name v h d w k x :
  assoc_get name (ds_vars ds) = Some v → v_attrs v = length h →
  attr_set ds name k x (with_last h d w) = (Ok (), with_last h (<[k := x]> d) w).
Proof.
  intros E El. rewrite (attr_set_run _ _ _ _ d _ _ E).
  - by rewrite El, upd_with_last.
  - rewrite El. apply with_last_at.
Qed.

Lemma var_dict_last ds name v h d :
  assoc_get name (ds_vars ds) = Some v → v_attrs v = length h →
  var_dict (h ++ [ODict d]) ds name = Some d.
Proof.
  intros E El. unfold var_dict. rewrite E, El.
  by rewrite lookup_app_r, Nat.sub_diag.
Qed.

Section second_loop.
Context `{Formatting} (self : Child_NetCDF_File).

Abbreviation parent := (contents (parentFile self)).

Lemma scale_bound_last child name v h d dcur w k :
  var_dict h parent name = Some d →
  assoc_get name (ds_vars child) = Some v → v_attrs v = length h →
  scale_bound parent child name k (with_last h dcur w) =
  match scale_key d k dcur with
  | Ok d' => (Ok (), with_last h d' w)
  | Raise e => (Raise e, with_last h dcur w)
  end.
Proof.
  intros Hd Ev El. unfold scale_bound, scale_key.
  assert (var_dict (w_heap (with_last h dcur w)) parent name = Some d) as Hd'
    by by apply var_dict_app.
  rewrite (bind_ok _ _ _ _ _ (attr_has_run _ _ _ _ k Hd')).
  destruct (d !! k) as [x|] eqn:Ex.
  - rewrite bool_decide_true by eauto.
    unfold mbind at 1, M_bind at 1. rewrite (attr_get_run _ _ _ _ k Hd'), Ex.
    destruct (py_mul_milli x) as [y|e]; simpl.
    + rewrite bind_lift_ok with (a := y) by done. by eapply attr_set_last.
    + by rewrite bind_lift_raise with (e := e).
  - rewrite bool_decide_false; [done|]. by intros [? ?].
Qed.

Lemma physical_last child name v h d w :
  var_dict h parent name = Some d →
  assoc_get name (ds_vars child) = Some v → v_attrs v = length h →
  ∃ w_fail,
    (if negb (str_in "QC" name) then
       if negb (str_in "DM" name) then
         attr_set child name "coverage_content_type" (AStr "physicalMeasurement");;
         scale_bound parent child name "valid_min";;
         scale_bound parent child name "valid_max"
       else mret ()
     else mret ()) (with_last h d w) =
    match physical name d with
    | Ok d1 => (Ok (), with_last h d1 w)
    | Raise e => (Raise e, w_fail)
    end.
Proof.
  intros Hd Ev El. unfold physical.
  destruct (negb (str_in "QC" name)); [|by exists w].
  destruct (negb (str_in "DM" name)); [|by exists w].
  rewrite (bind_ok _ _ _ _ _
    (attr_set_last child name v h d w "coverage_content_type"
       (AStr "physicalMeasurement") Ev El)).
  unfold mbind at 1, M_bind at 1.
  rewrite (scale_bound_last _ _ _ _ _ _ _ _ Hd Ev El).
  destruct (scale_key d "valid_min" _) as [d0|e]; simpl; [|by eexists].
  rewrite (scale_bound_last _ _ _ _ _ _ _ _ Hd Ev El).
  destruct (scale_key d "valid_max" d0) as [d1|e]; by eexists.
Qed.

(** The turns of the loop over the references, on a child that has the
    variable *)
Lemma strip_loop_last child name v h w avs dk cur :
  assoc_get name (ds_vars child) = Some v → v_attrs v = length h →
  dk !! "ancillary_variables" = Some (AStr cur) →
  forM_ avs (λ av,
    if bool_decide (av ∈ data_vars parent) then mret ()
    else
      cur ← attr_get child name "ancillary_variables";
      new ← lift (match cur with
                  | AStr c => Ok (str_replace av "" c)
                  | _ => Raise AttributeError
                  end);
      attr_set child name "ancillary_variables" (AStr new)) (with_last h dk w) =
  (Ok (), with_last h
     (<["ancillary_variables" :=
        AStr (fold_left (λ cur av, if bool_decide (av ∈ data_vars parent) then cur
                                   else str_replace av "" cur) avs cur)]> dk) w).
Proof.
  intros Ev El. revert dk cur. induction avs as [|av avs IH]; intros dk cur Hk; simpl.
  - by rewrite insert_id.
  - case_bool_decide.
    + rewrite bind_ret. by apply IH.
    + unfold mbind at 1, M_bind at 1. unfold mbind at 1, M_bind at 1.
      rewrite (attr_get_run _ _ _ dk) by (by eapply var_dict_last).
      rewrite Hk. rewrite bind_lift_ok with (a := str_replace av "" cur) by done.
      rewrite (attr_set_last _ _ _ _ _ _ _ _ Ev El).
      rewrite (IH _ (str_replace av "" cur)) by apply lookup_insert_eq.
      by rewrite insert_insert_eq.
Qed.

Lemma strip_ancillary_last child name v h d dk w :
  var_dict h parent name = Some d →
  assoc_get name (ds_vars child) = Some v → v_attrs v = length h →
  dk !! "ancillary_variables" = d !! "ancillary_variables" →
  try_pass (strip_ancillary parent child name) (with_last h dk w) =
  (Ok (), with_last h (stripped (data_vars parent) dk) w).
Proof.
  intros Hd Ev El Hk. unfold try_pass, strip_ancillary, stripped.
  assert (var_dict (w_heap (with_last h dk w)) parent name = Some d) as Hd'
    by by apply var_dict_app.
  unfold mbind at 1, M_bind at 1.
  rewrite (attr_get_run _ _ _ _ "ancillary_variables" Hd'). rewrite Hk.
  destruct (d !! "ancillary_variables") as [[s| |]|]; try done.
  rewrite bind_lift_ok with (a := split_on " " s) by done.
  by rewrite (strip_loop_last _ _ _ _ _ _ _ s Ev El) by by rewrite Hk.
Qed.

(** A turn for a variable of two dimensions that the child has *)
Lemma repair_variable_two child name v w rows d :
  var_array (w_heap w) parent name = Some (Arr2 rows) →
  var_dict (w_heap w) parent name = Some d →
  assoc_get name (ds_vars child) = Some v →
  ∃ w_fail,
    repair_variable self child name w =
    match physical name d with
    | Ok d1 => (Ok (set_var_attrs child name (length (w_heap w))),
                with_last (w_heap w) (stripped (data_vars parent) d1) w)
    | Raise e => (Raise e, w_fail)
    end.
Proof.
  intros Ha Hd Ev. unfold repair_variable.
  rewrite (bind_ok _ _ _ _ _ (ds_ndim_run _ _ _ _ Ha)). simpl.
  destruct (var_dict_at _ _ _ _ Hd) as (pv & Epv & Hpv).
  set (child' := set_var_attrs child name (length (w_heap w))).
  assert (copy_var_attrs parent child name w = (Ok child', with_last (w_heap w) d w)) as Hcopy.
  { unfold copy_var_attrs.
    rewrite (bind_ok _ _ _ _ _ (var_attrs_run _ _ _ _ Epv)).
    unfold ds_get. rewrite Ev. rewrite bind_lift_ok with (a := v) by done.
    by rewrite (read_dict_bind _ _ d). }
  assert (assoc_get name (ds_vars child') =
          Some {| v_data := v_data v; v_attrs := length (w_heap w) |}) as Ev'.
  { unfold child'. rewrite assoc_get_set_var_attrs, Ev. simpl. by rewrite decide_True. }
  destruct (physical_last child' name _ (w_heap w) d w Hd Ev' eq_refl) as [w_fail Hphys].
  unfold mbind at 1, M_bind at 1. unfold mbind at 1, M_bind at 1.
  rewrite Hcopy. unfold mbind at 1, M_bind at 1. rewrite Hphys.
  destruct (physical name d) as [d1|e] eqn:Hp; [|by exists w_fail].
  exists w. unfold mret at 1, M_ret at 1. cbv beta iota.
  rewrite (bind_ok _ _ _ _ _ (strip_ancillary_last _ _ _ _ _ _ _ Hd Ev' eq_refl
    (physical_other name d d1 "ancillary_variables" Hp
       ltac:(done) ltac:(done) ltac:(done)))).
  done.
Qed.

Lemma repair_variable_absent child name w rows :
  var_array (w_heap w) parent name = Some (Arr2 rows) →
  assoc_get name (ds_vars child) = None →
  (repair_variable self child name w).1 = Raise (KeyError name).
Proof.
  intros Ha Ev. unfold repair_variable.
  rewrite (bind_ok _ _ _ _ _ (ds_ndim_run _ _ _ _ Ha)). simpl.
  unfold copy_var_attrs, var_attrs, ds_get. rewrite Ev.
  unfold var_array in Ha. destruct (assoc_get name (ds_vars parent)) as [pv|]; [|done].
  done.
Qed.

(** A turn for a variable of fewer dimensions, which the child does not
    have *)
Lemma strip_loop_absent child name w avs :
  assoc_get name (ds_vars child) = None →
  ∃ r, forM_ avs (λ av,
    if bool_decide (av ∈ data_vars parent) then mret ()
    else
      cur ← attr_get child name "ancillary_variables";
      new ← lift (match cur with
                  | AStr c => Ok (str_replace av "" c)
                  | _ => Raise AttributeError
                  end);
      attr_set child name "ancillary_variables" (AStr new)) w = (r, w).
Proof.
  intros Ev. induction avs as [|av avs IH]; simpl; [by eexists|].
  case_bool_decide.
  - by rewrite bind_ret.
  - unfold mbind at 1, M_bind at 1. unfold mbind at 1, M_bind at 1.
    rewrite (attr_get_missing _ _ _ _ Ev). by eexists.
Qed.

Lemma repair_variable_few child name w a :
  var_array (w_heap w) parent name = Some a → ndim a < 2 →
  is_Some (var_dict (w_heap w) parent name) →
  assoc_get name (ds_vars child) = None →
  repair_variable self child name w = (Ok child, w).
Proof.
  intros Ha Hn [d Hd] Ev. unfold repair_variable.
  rewrite (bind_ok _ _ _ _ _ (ds_ndim_run _ _ _ _ Ha)).
  replace (ndim a =? 2) with false by (symmetry; apply Nat.eqb_neq; lia).
  assert ((n' ← ds_ndim parent name;
           if 2 <? n' then raise (SystemExit (too_many_dimensions name))
           else mret child) w = (Ok child, w)) as Hskip.
  { rewrite (bind_ok _ _ _ _ _ (ds_ndim_run _ _ _ _ Ha)).
    by replace (2 <? ndim a) with false by (symmetry; apply Nat.ltb_ge; lia). }
  rewrite (bind_ok _ _ _ _ _ Hskip).
  assert (try_pass (strip_ancillary parent child name) w = (Ok (), w)) as Htry;
    [|by rewrite (bind_ok _ _ _ _ _ Htry)].
  unfold try_pass, strip_ancillary. unfold mbind at 1, M_bind at 1.
  rewrite (attr_get_run _ _ _ _ "ancillary_variables" Hd).
  destruct (d !! "ancillary_variables") as [[s| |]|]; try done.
  rewrite bind_lift_ok with (a := split_on " " s) by done.
  by destruct (strip_loop_absent child name w (split_on " " s) Ev) as [[] ->].
Qed.

End second_loop.

Lemma var_array_set_var_attrs h ds name l k :
  var_array h (set_var_attrs ds name l) k = var_array h ds k.
Proof.
  unfold var_array. rewrite assoc_get_set_var_attrs.
  destruct (assoc_get k (ds_vars ds)) as [v|]; simpl; [|done]. by case_decide.
Qed.

Lemma var_dict_set_var_attrs_ne h ds name l k :
  k ≠ name → var_dict h (set_var_attrs ds name l) k = var_dict h ds k.
Proof.
  intros Hne. unfold var_dict. rewrite assoc_get_set_var_attrs.
  destruct (assoc_get k (ds_vars ds)) as [v|]; simpl; [|done]. by rewrite decide_False.
Qed.

Lemma set_heap_app h e1 e2 w :
  set_heap ((h ++ e1) ++ e2) (set_heap (h ++ e1) w) = set_heap (h ++ e1 ++ e2) w.
Proof. unfold set_heap. simpl. by rewrite <- app_assoc. Qed.

Section second_loop_fold.
Context `{Formatting} (self : Child_NetCDF_File).

Abbreviation parent := (contents (parentFile self)).

(** What the second loop needs of the variables still to come: arrays of at
    most two dimensions *)
Definition few_dims (h : list obj) (names : list string) : Prop :=
  ∀ name, name ∈ names → ∃ a, var_array h parent name = Some a ∧ ndim a ≤ 2.

(** The child has no variable but columns of the frame *)
Definition only_columns (h : list obj) (child : Dataset) : Prop :=
  ∀ name, name ∈ (ds_vars child).*1 → ∃ rows, var_array h parent name = Some (Arr2 rows).

Lemma few_dims_app h ext names : few_dims h names → few_dims (h ++ ext) names.
Proof.
  intros Hf name Hin. destruct (Hf name Hin) as (a & Ha & Hn).
  exists a. split; [by apply var_array_app | done].
Qed.

Lemma only_columns_step h ext child name l :
  only_columns h child → only_columns (h ++ ext) (set_var_attrs child name l).
Proof.
  intros Hc k Hk. rewrite set_var_attrs_keys in Hk.
  destruct (Hc k Hk) as [rows Hr]. exists rows. by apply var_array_app.
Qed.

Lemma loop2_inv names child w child' w' :
  ds_valid (w_heap w) parent = true →
  few_dims (w_heap w) names →
  only_columns (w_heap w) child →
  foldM names (repair_variable self) child w = (Ok child', w') →
  ∃ ext,
    w' = set_heap (w_heap w ++ ext) w ∧
    (ds_vars child').*1 = (ds_vars child).*1 ∧
    ds_coords child' = ds_coords child ∧
    (∀ name a, var_array (w_heap w) child name = Some a →
               var_array (w_heap w') child' name = Some a) ∧
    (∀ name d, name ∉ names → var_dict (w_heap w) child name = Some d →
               var_dict (w_heap w') child' name = Some d) ∧
    (∀ name rows d, name ∈ names →
       var_array (w_heap w) parent name = Some (Arr2 rows) →
       var_dict (w_heap w) parent name = Some d →
       ∃ d1, physical name d = Ok d1 ∧
             var_dict (w_heap w') child' name = Some (stripped (data_vars parent) d1)).
Proof.
  revert child w. induction names as [|name names IH]; intros child w Hv Hf Hc; simpl.
  - intros [= <- <-]. exists []. rewrite app_nil_r.
    split; [by destruct w|]. repeat split; try done.
    intros ? ? ? ?%elem_of_nil. done.
  - intros (child1 & w1 & Hstep & Hrest)%bind_inv.
    destruct (Hf name ltac:(by left)) as (a & Ha & Hn).
    assert (is_Some (var_dict (w_heap w) parent name)) as [d Hd].
    { apply ds_valid_dict; [done|]. unfold var_array in Ha.
      apply assoc_get_is_Some. by destruct (assoc_get name (ds_vars parent)). }
    assert (few_dims (w_heap w) names) as Hf' by (intros ? ?; apply Hf; by right).
    destruct a as [x|xs|rows|k]; simpl in Hn; [| | |lia].
    1, 2: (rewrite (repair_variable_few self child name w _ Ha) in Hstep;
           [ | simpl; lia | eauto
             | apply assoc_get_None; intros Hk;
               destruct (Hc _ Hk) as [rows Hr]; congruence ];
           injection Hstep as <- <-;
           destruct (IH _ _ Hv Hf' Hc Hrest) as (ext & -> & Hk & Hco & Harr & Hdict & Hnew);
           exists ext; repeat split; try done;
           [ intros name' d' [? ?]%not_elem_of_cons; by apply Hdict
           | intros name' rows d' [->|Hin]%elem_of_cons Ha' Hd';
             [congruence | by eapply Hnew] ]).
    destruct (assoc_get name (ds_vars child)) as [v|] eqn:Ev.
    2: { by rewrite (surjective_pairing (repair_variable _ _ _ _)),
           (repair_variable_absent self child name w _ Ha Ev) in Hstep. }
    destruct (repair_variable_two self child name v w _ _ Ha Hd Ev) as [w_fail Hrun].
    rewrite Hrun in Hstep. destruct (physical name d) as [d1|e] eqn:Hp; [|done].
    injection Hstep as <- <-.
    set (h1 := w_heap w ++ [ODict (stripped (data_vars parent) d1)]).
    destruct (IH (set_var_attrs child name (length (w_heap w)))
                 (with_last (w_heap w) (stripped (data_vars parent) d1) w))
      as (ext & -> & Hk & Hco & Harr & Hdict & Hnew).
    + by apply ds_valid_app.
    + by apply few_dims_app.
    + by apply only_columns_step.
    + done.
    + exists (ODict (stripped (data_vars parent) d1) :: ext).
      split; [unfold with_last, set_heap; simpl; by rewrite <- app_assoc|].
      split; [by rewrite Hk, set_var_attrs_keys|].
      split; [done|]. simpl in *. repeat split.
      * intros name' a' Ha'. apply Harr.
        rewrite var_array_set_var_attrs. by apply var_array_app.
      * intros name' d' [Hne Hnin]%not_elem_of_cons Hd'. apply Hdict; [done|].
        rewrite var_dict_set_var_attrs_ne by done. by apply var_dict_app.
      * intros name' rows' d' [->|Hin]%elem_of_cons Ha' Hd'.
        -- assert (d' = d) as -> by congruence.
           exists d1. split; [done|].
           destruct (decide (name ∈ names)) as [Hin|Hnin].
           ++ destruct (Hnew name rows d Hin) as (d2 & Hp2 & Hd2).
              ** by apply var_array_app.
              ** by apply var_dict_app.
              ** congruence.
           ++ apply Hdict; [done|]. eapply var_dict_last.
              ** by rewrite assoc_get_set_var_attrs, Ev; simpl; rewrite decide_True.
              ** done.
        -- apply (Hnew name' rows' d' Hin).
           ++ by apply var_array_app.
           ++ by apply var_dict_app.
Qed.

(** The loop ends well when every variable of two dimensions is in the child
    and has bounds that can be scaled. *)
Lemma loop2_total names child w :
  ds_valid (w_heap w) parent = true →
  few_dims (w_heap w) names →
  only_columns (w_heap w) child →
  (∀ name rows d, name ∈ names →
     var_array (w_heap w) parent name = Some (Arr2 rows) →
     var_dict (w_heap w) parent name = Some d →
     name ∈ (ds_vars child).*1 ∧ is_ok (physical name d) = true) →
  ∃ child' w', foldM names (repair_variable self) child w = (Ok child', w').
Proof.
  revert child w. induction names as [|name names IH]; intros child w Hv Hf Hc Hok; simpl.
  - by eexists _, _.
  - destruct (Hf name ltac:(by left)) as (a & Ha & Hn).
    assert (is_Some (var_dict (w_heap w) parent name)) as [d Hd].
    { apply ds_valid_dict; [done|]. unfold var_array in Ha.
      apply assoc_get_is_Some. by destruct (assoc_get name (ds_vars parent)). }
    assert (few_dims (w_heap w) names) as Hf' by (intros ? ?; apply Hf; by right).
    destruct a as [x|xs|rows|k]; simpl in Hn; [| | |lia].
    1, 2: (rewrite (bind_ok _ _ _ _ _ (repair_variable_few self child name w _ Ha
             ltac:(simpl; lia) ltac:(eauto)
             ltac:(apply assoc_get_None; intros Hk;
                   destruct (Hc _ Hk) as [rows Hr]; congruence)));
           apply IH; try done;
           intros name' rows' d' Hin Ha' Hd';
           apply (Hok name' rows' d'); [by right | done | done]).
    destruct (Hok name rows d ltac:(by left) Ha Hd) as [[v Ev]%assoc_get_is_Some Hp].
    destruct (repair_variable_two self child name v w _ _ Ha Hd Ev) as [w_fail Hrun].
    destruct (physical name d) as [d1|e] eqn:Hp1; [|done].
    rewrite (bind_ok _ _ _ _ _ Hrun). apply IH.
    + by apply ds_valid_app.
    + by apply few_dims_app.
    + by apply only_columns_step.
    + intros name' rows' d' Hin Ha' Hd'. rewrite set_var_attrs_keys.
      destruct (ds_valid_array _ _ name' Hv) as [a0 Ha0].
      { unfold var_array in Ha'. apply assoc_get_is_Some.
        by destruct (assoc_get name' (ds_vars parent)). }
      destruct (ds_valid_dict _ _ name' Hv) as [d0 Hd0].
      { unfold var_array in Ha'. apply assoc_get_is_Some.
        by destruct (assoc_get name' (ds_vars parent)). }
      simpl in Ha', Hd'.
      rewrite (var_array_app _ _ _ _ _ Ha0) in Ha'.
      rewrite (var_dict_app _ _ _ _ _ Hd0) in Hd'.
      apply (Hok name' rows' d'); [by right | congruence | congruence].
Qed.

End second_loop_fold.

(** ** The whole of [create_dataset_with_variables] *)

Section extraction.
Context `{Formatting} (self : Child_NetCDF_File).

Abbreviation parent := (contents (parentFile self)).

Lemma ds_row_inv ds name i w row w' :
  ds_row ds name i w = (Ok row, w') →
  w' = w ∧ ∃ rows, var_array (w_heap w) ds name = Some (Arr2 rows) ∧
                   py_getitem rows i = Ok row.
Proof.
  unfold ds_row. intros (a & w1 & [-> Ha]%ds_values_inv & Hrow)%bind_inv.
  destruct a as [x|xs|rows|k]; try done.
  unfold lift in Hrow. injection Hrow as Hrow <-. eauto.
Qed.

Lemma locate_window_inv w i j w' :
  locate_window self w = (Ok (i, j), w') →
  w' = w ∧
  ∃ rows row,
    var_array (w_heap w) parent "PRES" = Some (Arr2 rows) ∧
    py_getitem rows (position self) = Ok row ∧
    list_index (min_pressure self) row = Ok i ∧
    list_index (max_pressure self) row = Ok j.
Proof.
  unfold locate_window.
  intros (row & w1 & (-> & rows & Ha & Hrow)%ds_row_inv & Hrest)%bind_inv.
  apply bind_inv in Hrest as (i' & w2 & Hi & Hrest).
  apply bind_inv in Hrest as (j' & w3 & Hj & Hrest).
  unfold lift in Hi, Hj. injection Hi as Hi <-. injection Hj as Hj <-.
  injection Hrest as <- <- <-. eauto 10.
Qed.

Lemma loadable_few_dims h names :
  (∀ name, name ∈ names → loadable self h name = true) → few_dims self h names.
Proof.
  intros Hl name Hin. specialize (Hl name Hin). unfold loadable in Hl.
  destruct (var_array h parent name) as [a|]; [|done]. exists a. split; [done|].
  destruct a as [x|xs|rows|k]; simpl in *; try lia. discriminate.
Qed.

Lemma column_Some i j h name c :
  column self i j h name = Some c →
  ∃ rows row, var_array h parent name = Some (Arr2 rows) ∧
              py_getitem rows (position self) = Ok row ∧ c = py_slice i j row.
Proof.
  unfold column. destruct (var_array h parent name) as [[x|xs|rows|k]|]; try done.
  destruct (py_getitem rows (position self)) as [row|e] eqn:Hrow; [|done].
  intros [= <-]. eauto.
Qed.

Lemma create_inv w child w' :
  ds_valid (w_heap w) parent = true →
  create_dataset_with_variables self w = (Ok child, w') →
  ∃ i j df ext,
    locate_window self w = (Ok (i, j), w) ∧
    foldM (data_vars parent) (add_column self i j) empty_frame w = (Ok df, w) ∧
    (∀ name, name ∈ data_vars parent → loadable self (w_heap w) name = true) ∧
    (∀ k, k ∈ (df_columns df).*1 ↔
          k ∈ data_vars parent ∧ is_Some (column self i j (w_heap w) k)) ∧
    "PRES" ∈ (df_columns df).*1 ∧
    w' = set_heap (w_heap w ++ ext) w ∧
    ds_coords child = ["PRES"] ∧
    (∀ name, name ∈ (ds_vars child).*1 ↔ name ≠ "index" ∧ name ∈ (df_columns df).*1) ∧
    (∀ name vals, name ≠ "index" → assoc_get name (df_columns df) = Some vals →
                  var_array (w_heap w') child name = Some (Arr1 vals)) ∧
    (∀ name rows d, name ∈ data_vars parent →
       var_array (w_heap w) parent name = Some (Arr2 rows) →
       var_dict (w_heap w) parent name = Some d →
       ∃ d1, physical name d = Ok d1 ∧
             var_dict (w_heap w') child name = Some (stripped (data_vars parent) d1)).
Proof.
  intros Hv. unfold create_dataset_with_variables.
  intros ([i j] & w1 & Hwin & Hrest)%bind_inv.
  destruct (locate_window_inv _ _ _ _ Hwin) as (-> & _).
  apply bind_inv in Hrest as (df & w2 & Hloop1 & Hrest).
  destruct (loop1_inv self i j _ _ _ _ _
              (λ name Hin, ds_valid_array _ _ name Hv (data_vars_vars _ _ Hin)) Hloop1)
    as (-> & Hload & Hkeys).
  apply bind_inv in Hrest as (child0 & w3 & Hframe & Hloop2).
  rewrite dataset_of_frame_run in Hframe.
  case_bool_decide as Hpres; [|done]. injection Hframe as <- <-.
  set (objs := var_objs Arr1 (λ _, ∅) (df_columns df) ++ [ODict ∅]) in *.
  assert (∀ k, k ∈ (df_columns df).*1 ↔
               k ∈ data_vars parent ∧ is_Some (column self i j (w_heap w) k)) as Hkeys'.
  { intros k. rewrite Hkeys. simpl. rewrite elem_of_nil. tauto. }
  assert (only_columns self (w_heap w ++ objs)
            (child_of_frame (length (w_heap w)) (df_columns df))) as Honly.
  { intros name [_ Hin]%child_of_frame_keys.
    apply Hkeys' in Hin as [_ [c (rows & row & Ha & _)%column_Some]].
    exists rows. by apply var_array_app. }
  destruct (loop2_inv self _ _ _ _ _
              (ds_valid_app _ objs _ Hv : ds_valid (w_heap (set_heap _ w)) _ = true)
              (few_dims_app self _ objs _ (loadable_few_dims _ _ Hload))
              Honly Hloop2)
    as (ext & -> & Hk & Hco & Harr & _ & Hnew).
  exists i, j, df, (objs ++ ext). split; [done|]. split; [done|].
  split; [done|]. split; [done|]. split; [done|].
  split; [unfold set_heap; simpl; by rewrite <- app_assoc|].
  split; [done|]. split; [|split].
  - intros name. rewrite Hk. apply child_of_frame_keys.
  - intros name vals Hne Hc. apply Harr. simpl.
    by apply (child_of_frame_var (w_heap w) (df_columns df) [ODict ∅]).
  - intros name rows d Hin Ha Hd. apply (Hnew name rows d Hin).
    + by apply var_array_app.
    + by apply var_dict_app.
Qed.

End extraction.

(** * The claims about the extraction *)

Section station.
Context `{Formatting} (self : Child_NetCDF_File).

Abbreviation parent := (contents (parentFile self)).

(** The row of a two-dimensional variable at the station *)
Definition station_row (h : list obj) (name : string) : option (list sample) :=
  match var_array h parent name with
  | Some (Arr2 rows) =>
      match py_getitem rows (position self) with
      | Ok row => Some row
      | Raise _ => None
      end
  | _ => None
  end.

(** The bounds that the child took from the parent are the minimum and the
    maximum of the station's pressure row, as [get_min_max_pressures] and
    [__init__] make them. *)
Definition measured (h : list obj) : Prop :=
  match station_row h "PRES" with
  | Some row =>
      py_min row = Ok (min_pressure self) ∧ py_max row = Ok (max_pressure self)
  | None => True
  end.

(** The rows of the two-dimensional data variables at the station are as long
    as the pressure row: the archive has one axis of samples. *)
Definition same_length (h : list obj) : bool :=
  forallb (λ name,
             match station_row h name, station_row h "PRES" with
             | Some r, Some p => length r =? length p
             | _, _ => true
             end) (data_vars parent).

Lemma column_station_row i j h name :
  column self i j h name = py_slice i j <$> station_row h name.
Proof.
  unfold column, station_row.
  destruct (var_array h parent name) as [[x|xs|rows|k]|]; try done.
  by destruct (py_getitem rows (position self)).
Qed.

Lemma locate_window_row w i j :
  locate_window self w = (Ok (i, j), w) →
  ∃ row, station_row (w_heap w) "PRES" = Some row ∧
         list_index (min_pressure self) row = Ok i ∧
         list_index (max_pressure self) row = Ok j.
Proof.
  intros (_ & rows & row & Ha & Hrow & Hi & Hj)%locate_window_inv.
  exists row. unfold station_row. by rewrite Ha, Hrow.
Qed.

(** The frame of a station whose rows have one length holds the slices. *)
Lemma frame_slices w i j df name values :
  ds_valid (w_heap w) parent = true →
  same_length (w_heap w) = true →
  locate_window self w = (Ok (i, j), w) →
  foldM (data_vars parent) (add_column self i j) empty_frame w = (Ok df, w) →
  name ∈ data_vars parent →
  station_row (w_heap w) name = Some values →
  assoc_get name (df_columns df) = Some (py_slice i j values).
Proof.
  intros Hv Hsame Hwin Hloop Hin Hrow.
  destruct (locate_window_row _ _ _ Hwin) as (prow & Hprow & _).
  destruct (loop1_inv self i j _ _ _ _ _
              (λ name Hin, ds_valid_array _ _ name Hv (data_vars_vars _ _ Hin)) Hloop)
    as (_ & Hload & _).
  destruct (loop1_exact self i j (data_vars parent)
              (length (py_slice i j prow)) empty_frame w Hload)
    as (df' & Hrun & _ & Hcols).
  - intros k c Hk. rewrite column_station_row.
    destruct (station_row (w_heap w) k) as [r|] eqn:Hr; [|done].
    intros [= <-]. unfold same_length in Hsame. rewrite forallb_forall in Hsame.
    specialize (Hsame k). rewrite <- list_elem_of_In in Hsame. specialize (Hsame Hk).
    rewrite Hr, Hprow in Hsame. apply Nat.eqb_eq in Hsame.
    rewrite !py_slice_length. lia.
  - by right.
  - assert (df' = df) as -> by congruence.
    rewrite Hcols, frame_cols_get, column_station_row, Hrow. simpl.
    by rewrite decide_True.
Qed.

(** C1, as amended.  For every station whose extraction succeeds, [i_min] is
    the first index of the pressure row whose value equals the row's minimum
    and [i_max] the first index whose value equals the row's maximum; and
    when the rows of the two-dimensional data variables at the station are
    as long as the pressure row, the row of every one of them is carried
    over as its elements from [i_min] up to, and not including, [i_max]. *)
Theorem window_is_half_open w child w' :
  ds_valid (w_heap w) parent = true →
  measured (w_heap w) →
  same_length (w_heap w) = true →
  create_dataset_with_variables self w = (Ok child, w') →
  ∃ row i_min i_max,
    station_row (w_heap w) "PRES" = Some row ∧
    locate_window self w = (Ok (i_min, i_max), w) ∧
    (* the minimum, and its first occurrence *)
    py_min row = Ok (min_pressure self) ∧
    (∀ y, y ∈ row → sample_lt y (min_pressure self) = false) ∧
    (∃ x, row !! i_min = Some x ∧ sample_eqb x (min_pressure self) = true) ∧
    (∀ k y, k < i_min → row !! k = Some y → sample_eqb y (min_pressure self) = false) ∧
    (* the maximum, and its first occurrence *)
    py_max row = Ok (max_pressure self) ∧
    (∀ y, y ∈ row → sample_lt (max_pressure self) y = false) ∧
    (∃ x, row !! i_max = Some x ∧ sample_eqb x (max_pressure self) = true) ∧
    (∀ k y, k < i_max → row !! k = Some y → sample_eqb y (max_pressure self) = false) ∧
    (* the slices *)
    ∀ name values,
      name ∈ data_vars parent →
      station_row (w_heap w) name = Some values →
      ∃ c, var_array (w_heap w') child name = Some (Arr1 c) ∧
           (∀ k, c !! k = if decide (k < i_max - i_min)
                          then values !! (i_min + k) else None) ∧
           c !! (i_max - i_min) = None.
Proof.
  intros Hv Hmeas Hsame Hrun.
  destruct (create_inv self _ _ _ Hv Hrun)
    as (i & j & df & ext & Hwin & Hloop & Hload & Hkeys & Hpres & -> & Hco & Hck & Harr & Hdict).
  destruct (locate_window_row _ _ _ Hwin) as (row & Hrow & Hi & Hj).
  unfold measured in Hmeas. rewrite Hrow in Hmeas. destruct Hmeas as [Hmin Hmax].
  exists row, i, j. split; [done|]. split; [done|].
  destruct (py_min_spec _ _ Hmin) as [_ Hlow], (py_max_spec _ _ Hmax) as [_ Hhigh].
  apply list_index_spec in Hi as [Hi1 Hi2]. apply list_index_spec in Hj as [Hj1 Hj2].
  do 8 (split; [done|]).
  intros name values Hin Hvals.
  pose proof (frame_slices _ _ _ _ _ _ Hv Hsame Hwin Hloop Hin Hvals) as Hcol.
  assert (name ≠ "index") as Hne.
  { assert (name ∈ (df_columns df).*1) as Hk by by eapply assoc_get_Some_fst.
    unfold station_row in Hvals.
    destruct (var_array (w_heap w) parent name) as [[x|xs|rows|k]|] eqn:Ha; try done.
    destruct (ds_valid_dict _ _ name Hv (data_vars_vars _ _ Hin)) as [d Hd].
    destruct (Hdict name rows d Hin Ha Hd) as (d1 & _ & Hd1).
    assert (name ∈ (ds_vars child).*1) as Hc.
    { apply assoc_get_is_Some. unfold var_dict in Hd1.
      by destruct (assoc_get name (ds_vars child)). }
    by apply Hck in Hc as [? _]. }
  exists (py_slice i j values). split; [by apply Harr|].
  split; [intros k; apply py_slice_lookup|].
  rewrite py_slice_lookup. case_decide; [lia | done].
Qed.

End station.

Section station_total.
Context `{Formatting} (self : Child_NetCDF_File).

Abbreviation parent := (contents (parentFile self)).

(** What the extraction needs of the parent's data variables to end well:
    arrays of at most two dimensions; for those of two a row for the station,
    a name other than [index], and bounds that can be scaled; and [PRES]
    among them. *)
Definition extractable (h : list obj) : bool :=
  forallb (λ name,
             loadable self h name &&
             match var_array h parent name, var_dict h parent name with
             | Some (Arr2 _), Some d =>
                 negb (String.eqb name "index") && is_ok (physical name d)
             | _, _ => true
             end) (data_vars parent)
  && bool_decide ("PRES" ∈ data_vars parent).

Lemma extractable_inv h :
  extractable h = true →
  (∀ name, name ∈ data_vars parent → loadable self h name = true) ∧
  (∀ name rows d, name ∈ data_vars parent →
     var_array h parent name = Some (Arr2 rows) → var_dict h parent name = Some d →
     name ≠ "index" ∧ is_ok (physical name d) = true) ∧
  "PRES" ∈ data_vars parent.
Proof.
  unfold extractable. rewrite andb_true_iff, forallb_forall, bool_decide_eq_true.
  intros [Hall Hpres]. split; [|split; [|done]].
  - intros name Hin%list_elem_of_In. by apply Hall, andb_true_iff in Hin as [? _].
  - intros name rows d Hin%list_elem_of_In Ha Hd.
    apply Hall, andb_true_iff in Hin as [_ Hin]. rewrite Ha, Hd in Hin.
    apply andb_true_iff in Hin as [Hne ?]. split; [|done].
    intros ->. by rewrite String.eqb_refl in Hne.
Qed.

Lemma locate_window_run w rows row i j :
  var_array (w_heap w) parent "PRES" = Some (Arr2 rows) →
  py_getitem rows (position self) = Ok row →
  list_index (min_pressure self) row = Ok i →
  list_index (max_pressure self) row = Ok j →
  locate_window self w = (Ok (i, j), w).
Proof.
  intros Ha Hrow Hi Hj. unfold locate_window.
  unfold mbind at 1, M_bind at 1. rewrite (ds_row_run _ _ _ _ _ Ha), Hrow.
  rewrite bind_lift_ok with (a := i) by done.
  by rewrite bind_lift_ok with (a := j) by done.
Qed.

Lemma create_total w i j n :
  ds_valid (w_heap w) parent = true →
  extractable (w_heap w) = true →
  locate_window self w = (Ok (i, j), w) →
  (∀ name c, name ∈ data_vars parent →
             column self i j (w_heap w) name = Some c → length c = n) →
  ∃ child w' df,
    create_dataset_with_variables self w = (Ok child, w') ∧
    foldM (data_vars parent) (add_column self i j) empty_frame w = (Ok df, w) ∧
    df_columns df = frame_cols self i j (w_heap w) (data_vars parent) [].
Proof.
  intros Hv (Hload & Hok & Hpres)%extractable_inv Hwin Hlen.
  destruct (loop1_exact self i j (data_vars parent) n empty_frame w Hload Hlen)
    as (df & Hrun & _ & Hcols); [by right|].
  simpl in Hcols.
  assert (∀ name, name ∈ (df_columns df).*1 →
            name ∈ data_vars parent ∧ is_Some (column self i j (w_heap w) name)) as Hkeys.
  { intros name [c Hc]%assoc_get_is_Some. rewrite Hcols, frame_cols_get in Hc.
    destruct (column self i j (w_heap w) name) as [c'|]; [|done].
    case_decide; [eauto | done]. }
  assert (∀ name c, name ∈ data_vars parent → column self i j (w_heap w) name = Some c →
            name ∈ (df_columns df).*1) as Hkeys'.
  { intros name c Hin Hc. apply assoc_get_is_Some. exists c.
    by rewrite Hcols, frame_cols_get, Hc, decide_True. }
  unfold create_dataset_with_variables.
  rewrite (bind_ok _ _ _ _ _ Hwin). rewrite (bind_ok _ _ _ _ _ Hrun).
  unfold mbind at 1, M_bind at 1. rewrite dataset_of_frame_run.
  destruct (locate_window_row _ _ _ _ Hwin) as (prow & Hprow & _).
  rewrite bool_decide_true.
  2: { apply (Hkeys' _ (py_slice i j prow)); [done|].
       by rewrite column_station_row, Hprow. }
  set (objs := var_objs Arr1 (λ _, ∅) (df_columns df) ++ [ODict ∅]).
  destruct (loop2_total self (data_vars parent)
              (child_of_frame (length (w_heap w)) (df_columns df))
              (set_heap (w_heap w ++ objs) w)) as (child & w' & Hloop2).
  - by apply ds_valid_app.
  - by apply few_dims_app, loadable_few_dims.
  - intros name [_ Hin]%child_of_frame_keys.
    apply Hkeys in Hin as [_ [c (rows & row & Ha & _)%column_Some]].
    exists rows. by apply var_array_app.
  - intros name rows d Hin Ha Hd. simpl in Ha, Hd.
    assert (var_array (w_heap w) parent name = Some (Arr2 rows)) as Ha0.
    { destruct (ds_valid_array _ _ name Hv (data_vars_vars _ _ Hin)) as [a0 Ha0].
      rewrite (var_array_app _ objs _ _ _ Ha0) in Ha. congruence. }
    assert (var_dict (w_heap w) parent name = Some d) as Hd0.
    { destruct (ds_valid_dict _ _ name Hv (data_vars_vars _ _ Hin)) as [d0 Hd0].
      rewrite (var_dict_app _ objs _ _ _ Hd0) in Hd. congruence. }
    destruct (Hok name rows d Hin Ha0 Hd0) as [Hne Hphys]. split; [|done].
    apply child_of_frame_keys. split; [done|].
    assert (Hl := Hload name Hin). unfold loadable in Hl. rewrite Ha0 in Hl.
    destruct (py_getitem rows (position self)) as [row|e] eqn:Hrow; [|done].
    apply (Hkeys' name (py_slice i j row) Hin).
    unfold column. by rewrite Ha0, Hrow.
  - exists child, w', df. by rewrite Hloop2.
Qed.

(** C10.  A station whose pressure row has the first occurrence of its
    maximum strictly before the first occurrence of its minimum is extracted
    without an error, and every variable of the child, the pressure among
    them, has no samples. *)
Theorem reversed_window_is_empty w row i_min i_max :
  ds_valid (w_heap w) parent = true →
  extractable (w_heap w) = true →
  measured self (w_heap w) →
  station_row self (w_heap w) "PRES" = Some row →
  list_index (min_pressure self) row = Ok i_min →
  list_index (max_pressure self) row = Ok i_max →
  i_max < i_min →
  ∃ child w',
    create_dataset_with_variables self w = (Ok child, w') ∧
    "PRES" ∈ (ds_vars child).*1 ∧
    ∀ name, name ∈ (ds_vars child).*1 →
            var_array (w_heap w') child name = Some (Arr1 []).
Proof.
  intros Hv Hex _ Hrow Hi Hj Hlt.
  assert (locate_window self w = (Ok (i_min, i_max), w)) as Hwin.
  { unfold station_row in Hrow.
    destruct (var_array (w_heap w) parent "PRES") as [[x|xs|rows|k]|] eqn:Ha; try done.
    destruct (py_getitem rows (position self)) as [r|e] eqn:Hr; [|done].
    injection Hrow as ->. by eapply locate_window_run. }
  assert (∀ name c, column self i_min i_max (w_heap w) name = Some c → c = []) as Hempty.
  { intros name c (rows & r & _ & _ & ->)%column_Some. apply py_slice_empty. lia. }
  destruct (create_total w i_min i_max 0 Hv Hex Hwin) as (child & w' & df & Hrun & Hloop & Hcols).
  { intros name c _ Hc. by rewrite (Hempty _ _ Hc). }
  exists child, w'. split; [done|].
  destruct (create_inv self _ _ _ Hv Hrun)
    as (i & j & df' & ext & Hwin' & Hloop' & _ & _ & Hpres & _ & _ & Hck & Harr & _).
  assert (i = i_min ∧ j = i_max) as [-> ->] by (split; congruence).
  assert (df' = df) as -> by congruence.
  split; [by apply Hck|].
  intros name [Hne [c Hc]%assoc_get_is_Some]%Hck.
  rewrite (Harr name c Hne Hc). do 2 f_equal.
  rewrite Hcols, frame_cols_get in Hc.
  destruct (column self i_min i_max (w_heap w) name) as [c'|] eqn:Hc'; [|done].
  case_decide; [|done]. injection Hc as <-. by eapply Hempty.
Qed.

End station_total.

(** * Strings: splitting, joining and cutting out *)

#[local] Arguments String.append : simpl nomatch.

(** [sep.join(l)] *)
Fixpoint join (sep : string) (l : list string) : string :=
  match l with
  | [] => EmptyString
  | t :: r =>
      match r with
      | [] => t
      | _ :: _ => t +:+ sep +:+ join sep r
      end
  end.

Fixpoint has_char (c : ascii) (s : string) : bool :=
  match s with
  | EmptyString => false
  | String a s' => Ascii.eqb a c || has_char c s'
  end.

Lemma append_nil_r s : s +:+ "" = s.
Proof. induction s as [|a s IH]; simpl; [done | by rewrite IH]. Qed.

Lemma append_assoc s1 s2 s3 : (s1 +:+ s2) +:+ s3 = s1 +:+ s2 +:+ s3.
Proof. induction s1 as [|a s1 IH]; simpl; [done | by rewrite IH]. Qed.

Lemma split_on_cons c s : ∃ t ts, split_on c s = t :: ts.
Proof.
  induction s as [|a s (t & ts & IH)]; simpl; [by eexists _, _|].
  destruct (Ascii.eqb a c); [by eexists _, _|]. rewrite IH. by eexists _, _.
Qed.

(** Joining what was split gives the string back. *)
Lemma join_split c s : join (String c "") (split_on c s) = s.
Proof.
  induction s as [|a s IH]; simpl; [done|].
  destruct (Ascii.eqb_spec a c) as [->|Hne].
  - destruct (split_on_cons c s) as (t & ts & E). rewrite E in IH |- *.
    simpl in *. by rewrite IH.
  - destruct (split_on c s) as [|t [|t2 ts]]; simpl in *; by rewrite <- IH.
Qed.

Lemma split_on_no_sep c s : Forall (λ t, has_char c t = false) (split_on c s).
Proof.
  induction s as [|a s IH]; simpl; [by repeat constructor|].
  destruct (Ascii.eqb_spec a c) as [->|Hne]; [by constructor|].
  destruct (split_on c s) as [|t ts]; simpl.
  - repeat constructor. simpl. rewrite orb_false_r. by apply Ascii.eqb_neq.
  - inversion IH; subst. constructor; [|done]. simpl.
    apply orb_false_iff. split; [by apply Ascii.eqb_neq | done].
Qed.

Lemma split_on_app c t rest :
  has_char c t = false →
  split_on c (t +:+ rest) =
  match split_on c rest with
  | u :: us => (t +:+ u) :: us
  | [] => [t]
  end.
Proof.
  destruct (split_on_cons c rest) as (u & us & E). rewrite E.
  induction t as [|a t IH]; simpl.
  - by rewrite E.
  - intros [Ha Ht]%orb_false_iff. by rewrite Ha, (IH Ht).
Qed.

(** Splitting what was joined gives the parts back, when none of them has
    the separator in it. *)
Lemma split_join c l :
  l ≠ [] → Forall (λ t, has_char c t = false) l →
  split_on c (join (String c "") l) = l.
Proof.
  induction l as [|t [|t2 r] IH]; [done| |]; intros _ Hl.
  - simpl. inversion Hl; subst.
    rewrite <- (append_nil_r t) at 1. rewrite split_on_app by done.
    simpl. by rewrite append_nil_r.
  - inversion Hl; subst. change (join (String c "") (t :: t2 :: r))
      with (t +:+ String c (join (String c "") (t2 :: r))).
    rewrite split_on_app by done. cbn [split_on]. rewrite Ascii.eqb_refl.
    rewrite IH by done. by rewrite append_nil_r.
Qed.

(** ** Cutting a reference out *)

Lemma interleave_empty s : interleave "" s = s.
Proof. induction s as [|a s IH]; simpl; [done | by rewrite IH]. Qed.

Lemma prefix_refl_app r x : String.prefix r (r +:+ x) = true.
Proof.
  induction r as [|a r IH]; simpl; [by destruct x|].
  by destruct (ascii_dec a a).
Qed.

Lemma replace_from_skip old new u x :
  replace_from old new (String.length u) (u +:+ x) = replace_from old new 0 x.
Proof. induction u as [|a u IH]; simpl; [by destruct x | done]. Qed.

(** A match that starts in [u] and ends in what follows: either it lies in
    [u], or it runs over the end of [u]. *)
Lemma prefix_app_inv r u x :
  String.prefix r (u +:+ x) = true →
  String.prefix r u = true ∨
  ∃ r2, r = u +:+ r2 ∧ r2 ≠ "" ∧ String.prefix r2 x = true.
Proof.
  revert r. induction u as [|a u IH]; intros r; simpl.
  - destruct r as [|b r]; [by left|]. intros Hp. right. by exists (String b r).
  - destruct r as [|b r]; [by left|].
    destruct (ascii_dec b a) as [->|]; [|done].
    intros [Hp|(r2 & -> & Hne & Hp)]%IH; [by left|].
    right. by exists r2.
Qed.

Lemma has_char_app c u v : has_char c (u +:+ v) = has_char c u || has_char c v.
Proof. induction u as [|a u IH]; simpl; [done|]. by rewrite IH, orb_assoc. Qed.

(** What follows a reference in the joined string: nothing, or a space *)
Definition boundary (c : ascii) (x : string) : Prop :=
  x = "" ∨ ∃ y, x = String c y.

Lemma prefix_over_boundary c r u x :
  has_char c r = false → boundary c x →
  String.prefix r (u +:+ x) = true → String.prefix r u = true.
Proof.
  intros Hr Hx [Hp|(r2 & -> & Hne & Hp)]%prefix_app_inv; [done|].
  rewrite has_char_app in Hr. apply orb_false_iff in Hr as [_ Hr2].
  destruct r2 as [|b r2]; [done|]. destruct Hx as [->|[y ->]]; [done|].
  simpl in Hp. destruct (ascii_dec b c) as [->|]; [|done].
  simpl in Hr2. by rewrite Ascii.eqb_refl in Hr2.
Qed.

(** A part in which the reference does not occur is copied. *)
Lemma replace_from_copy c r u x :
  r ≠ "" → has_char c r = false → boundary c x →
  str_in r u = false →
  replace_from r "" 0 (u +:+ x) = u +:+ replace_from r "" 0 x.
Proof.
  intros Hne Hr Hx. induction u as [|a u IH]; [done|].
  cbn [str_in]. intros [Hp Hu]%orb_false_iff.
  change (String a u +:+ x) with (String a (u +:+ x)).
  cbn [replace_from].
  destruct (String.prefix r (String a (u +:+ x))) eqn:Hpre.
  - change (String a (u +:+ x)) with (String a u +:+ x) in Hpre.
    apply (prefix_over_boundary c _ _ _ Hr Hx) in Hpre. congruence.
  - by rewrite IH.
Qed.

(** The part that is the reference is dropped. *)
Lemma replace_from_cut r x :
  r ≠ "" → replace_from r "" 0 (r +:+ x) = replace_from r "" 0 x.
Proof.
  intros Hne. destruct r as [|b r]; [done|].
  change (String b r +:+ x) with (String b (r +:+ x)).
  cbn [replace_from]. change (String b (r +:+ x)) with (String b r +:+ x).
  rewrite prefix_refl_app. simpl.
  rewrite Nat.sub_0_r. apply replace_from_skip.
Qed.

Lemma replace_from_boundary c r y :
  r ≠ "" → has_char c r = false →
  replace_from r "" 0 (String c y) = String c (replace_from r "" 0 y).
Proof.
  intros Hne Hr. destruct r as [|b r]; [done|]. cbn [replace_from].
  simpl in Hr. apply orb_false_iff in Hr as [Hb _].
  cbn [String.prefix]. destruct (ascii_dec b c) as [->|]; [|done].
  by rewrite Ascii.eqb_refl in Hb.
Qed.

Lemma str_in_refl r : str_in r r = true.
Proof.
  destruct r as [|a r]; [done|]. cbn [str_in]. apply orb_true_iff. left.
  rewrite <- (append_nil_r (String a r)) at 2. apply prefix_refl_app.
Qed.

(** One part of the joined string *)
Lemma replace_from_part c r t x :
  r ≠ "" → has_char c r = false → boundary c x →
  (str_in r t = true → t = r) →
  replace_from r "" 0 (t +:+ x) =
  (if decide (t = r) then "" else t) +:+ replace_from r "" 0 x.
Proof.
  intros Hne Hr Hx Ht. case_decide as Htr.
  - subst t. by apply replace_from_cut.
  - apply (replace_from_copy c); try done.
    destruct (str_in r t); [by destruct Htr; apply Ht | done].
Qed.

(** Cutting a reference out of the joined references blanks the parts that
    are this reference, when it occurs inside no other part. *)
Lemma replace_join c r l :
  r ≠ "" → has_char c r = false →
  Forall (λ t, str_in r t = true → t = r) l →
  str_replace r "" (join (String c "") l) =
  join (String c "") ((λ t, if decide (t = r) then "" else t) <$> l).
Proof.
  intros Hne Hr Hl.
  assert (∀ s, str_replace r "" s = replace_from r "" 0 s) as Hrep
    by by destruct r.
  rewrite Hrep. clear Hrep.
  induction l as [|t [|t2 l] IH].
  - done.
  - inversion Hl; subst. cbn [join fmap list_fmap].
    rewrite <- (append_nil_r t) at 1.
    rewrite (replace_from_part c) by (by try left).
    by rewrite append_nil_r.
  - inversion Hl; subst.
    change (join (String c "") (t :: t2 :: l))
      with (t +:+ String c (join (String c "") (t2 :: l))).
    rewrite (replace_from_part c) by (try done; right; eauto).
    rewrite (replace_from_boundary c) by done. by rewrite IH.
Qed.

(** ** Cutting out all the dangling references *)

(** No reference that is cut out occurs inside another reference. *)
Definition no_overlap (names toks : list string) : bool :=
  forallb (λ r, bool_decide (r ∈ names) || String.eqb r "" ||
                forallb (λ t, negb (str_in r t) || String.eqb t r) toks) toks.

(** What becomes of a reference once the references [avs] have had their
    turn *)
Definition keep (names avs : list string) (t : string) : string :=
  if bool_decide (t ∈ names) then t
  else if bool_decide (t ∈ avs) then "" else t.

Definition space : ascii := " "%char.

Lemma str_in_empty r : str_in r "" = true → r = "".
Proof. destruct r; [done|]. by cbn. Qed.

Lemma strip_fold names avs cs :
  Forall (λ t, has_char space t = false) cs →
  Forall (λ av, av ∈ names ∨ av = "" ∨
                (av ≠ "" ∧ has_char space av = false ∧
                 Forall (λ t, str_in av t = true → t = av) cs)) avs →
  fold_left (λ cur av, if bool_decide (av ∈ names) then cur
                       else str_replace av "" cur) avs (join " " cs)
  = join " " (keep names avs <$> cs).
Proof.
  revert cs. induction avs as [|av avs IH]; intros cs Hcs Havs; cbn [fold_left].
  - f_equal. rewrite <- (list_fmap_id cs) at 1. apply list_fmap_ext.
    intros _ t _. unfold keep. case_bool_decide; [done|].
    rewrite bool_decide_false; [done | apply not_elem_of_nil].
  - inversion Havs as [|? ? Hav Havs']; subst.
    assert ((∀ t, t ∈ cs → keep names (av :: avs) t = keep names avs t) →
            keep names (av :: avs) <$> cs = keep names avs <$> cs) as Hsame.
    { intros Hp. apply list_fmap_ext. intros i t Ht. apply Hp.
      by eapply list_elem_of_lookup_2. }
    destruct Hav as [Hin|[->|(Hne & Hsp & Hocc)]].
    + rewrite bool_decide_true by done. rewrite IH by done. f_equal.
      symmetry. apply Hsame. intros t _. unfold keep.
      case_bool_decide as Ht; [done|].
      destruct (decide (t = av)) as [->|Hneq]; [done|].
      by rewrite (bool_decide_ext (t ∈ av :: avs) (t ∈ avs))
        by (rewrite elem_of_cons; tauto).
    + assert (str_replace "" "" (join " " cs) = join " " cs) as Hid
        by apply interleave_empty.
      rewrite Hid. destruct (bool_decide ("" ∈ names)); rewrite IH by done; f_equal;
        symmetry; apply Hsame; intros t _; unfold keep;
        (case_bool_decide as Ht; [done|]);
        (destruct (decide (t = "")) as [->|Hneq];
         [ rewrite bool_decide_true by (by left); by case_bool_decide
         | by rewrite (bool_decide_ext (t ∈ "" :: avs) (t ∈ avs))
             by (rewrite elem_of_cons; tauto) ]).
    + destruct (bool_decide (av ∈ names)) eqn:Hb.
      { apply bool_decide_eq_true in Hb. rewrite IH by done. f_equal.
        symmetry. apply Hsame. intros t _. unfold keep.
        case_bool_decide as Ht; [done|].
        destruct (decide (t = av)) as [->|Hneq]; [done|].
        by rewrite (bool_decide_ext (t ∈ av :: avs) (t ∈ avs))
          by (rewrite elem_of_cons; tauto). }
      apply bool_decide_eq_false in Hb.
      rewrite (replace_join space) by done.
      rewrite IH.
      * f_equal. rewrite <- list_fmap_compose. apply list_fmap_ext.
        intros _ t _. simpl. unfold keep. case_decide as Ht.
        -- subst t. rewrite (bool_decide_false (av ∈ names)) by done.
           rewrite (bool_decide_true (av ∈ av :: avs)) by by left.
           by repeat case_bool_decide.
        -- case_bool_decide; [done|].
           by rewrite (bool_decide_ext (t ∈ av :: avs) (t ∈ avs))
             by (rewrite elem_of_cons; tauto).
      * apply Forall_fmap. eapply Forall_impl; [exact Hcs|].
        intros t Ht. simpl. by case_decide.
      * eapply Forall_impl; [exact Havs'|].
        intros av' [?|[?|(Hne' & Hsp' & Hocc')]]; [by left | by right; left|].
        right; right. split; [done|]. split; [done|].
        apply Forall_fmap. eapply Forall_impl; [exact Hocc'|].
        intros t Ht. simpl. case_decide; [|done].
        by intros ?%str_in_empty.
Qed.

Lemma no_overlap_inv names toks :
  no_overlap names toks = true →
  Forall (λ t, has_char space t = false) toks →
  Forall (λ av, av ∈ names ∨ av = "" ∨
                (av ≠ "" ∧ has_char space av = false ∧
                 Forall (λ t, str_in av t = true → t = av) toks)) toks.
Proof.
  unfold no_overlap. rewrite forallb_forall. intros Hall Hsp.
  apply Forall_forall. intros av Hav.
  pose proof (proj1 (Forall_forall _ _) Hsp av Hav) as Hav_sp.
  apply list_elem_of_In, Hall in Hav.
  apply orb_true_iff in Hav as [[Hin%bool_decide_eq_true|He%String.eqb_eq]%orb_true_iff|Hocc];
    [by left | by right; left |].
  destruct (decide (av = "")) as [->|Hne]; [by right; left|].
  right; right. split; [done|]. split; [done|].
  rewrite forallb_forall in Hocc. apply Forall_forall. intros t Ht%list_elem_of_In Hin.
  apply Hocc in Ht. rewrite Hin in Ht. simpl in Ht. by apply String.eqb_eq in Ht.
Qed.

(** The references of the cleaned string, one for one: a reference that names
    one of [names] is kept, another is left empty. *)
Lemma strip_refs_tokens names s :
  no_overlap names (split_on space s) = true →
  split_on space (strip_refs names s) =
  (λ t, if bool_decide (t ∈ names) then t else "") <$> split_on space s.
Proof.
  intros Hno. unfold strip_refs.
  change (split_on " " s) with (split_on space s).
  pose proof (split_on_no_sep space s) as Hsp.
  rewrite <- (join_split space s) at 2.
  change (String space "") with " ".
  rewrite strip_fold by (try done; by apply no_overlap_inv).
  change " " with (String space "").
  rewrite split_join.
  - apply list_fmap_ext. intros i t Ht. unfold keep. case_bool_decide; [done|].
    rewrite bool_decide_true; [done|]. by eapply list_elem_of_lookup_2.
  - destruct (split_on_cons space s) as (t & ts & ->). done.
  - apply Forall_fmap. eapply Forall_impl; [exact Hsp|].
    intros t Ht. simpl. unfold keep. by repeat case_bool_decide.
Qed.

Lemma foldM_app {A S} (l1 l2 : list A) (body : S → A → M S) s w :
  foldM (l1 ++ l2) body s w =
  match foldM l1 body s w with
  | (Ok s1, w1) => foldM l2 body s1 w1
  | (Raise e, w1) => (Raise e, w1)
  end.
Proof.
  revert s w. induction l1 as [|x l1 IH]; intros s w; simpl; [done|].
  unfold mbind, M_bind. destruct (body s x w) as [[s1|e] w1]; [apply IH | done].
Qed.

Lemma str_in_app_r r u v : str_in r v = true → str_in r (u +:+ v) = true.
Proof.
  intros Hv. induction u as [|a u IH]; [done|].
  change (String a u +:+ v) with (String a (u +:+ v)). cbn [str_in].
  rewrite IH. apply orb_true_r.
Qed.

Lemma str_in_middle r u v : str_in r (u +:+ r +:+ v) = true.
Proof.
  apply str_in_app_r. destruct r as [|a r]; [by destruct v|].
  cbn [str_in String.append]. apply orb_true_iff. left.
  change (String a (r +:+ v)) with (String a r +:+ v). apply prefix_refl_app.
Qed.

Lemma scale_key_same `{Formatting} src k dst d' :
  scale_key src k dst = Ok d' →
  match src !! k with
  | Some x => ∃ y, py_mul_milli x = Ok y ∧ d' !! k = Some y
  | None => d' !! k = dst !! k
  end.
Proof.
  unfold scale_key. destruct (src !! k) as [x|]; [|by intros [= <-]].
  destruct (py_mul_milli x) as [y|e]; simpl; [|done].
  intros [= <-]. exists y. by rewrite lookup_insert_eq.
Qed.

Lemma stripped_other names d k :
  k ≠ "ancillary_variables" → stripped names d !! k = d !! k.
Proof.
  intros Hne. unfold stripped.
  destruct (d !! "ancillary_variables") as [[s| |]|]; try done.
  by rewrite lookup_insert_ne.
Qed.

Section attributes.
Context `{Formatting} (self : Child_NetCDF_File).

Abbreviation parent := (contents (parentFile self)).

(** C4.  A variable of two dimensions whose name has neither [QC] nor [DM]
    in it is carried over with [coverage_content_type] set to
    [physicalMeasurement], and with each of [valid_min] and [valid_max] that
    the parent has multiplied by 0.001 (and absent when the parent has
    none).  The product is the one that the floating-point arithmetic gives,
    [times_milli]: of the parent's value, once. *)
Theorem physical_bounds_are_scaled w child w' name rows d :
  ds_valid (w_heap w) parent = true →
  create_dataset_with_variables self w = (Ok child, w') →
  name ∈ data_vars parent →
  var_array (w_heap w) parent name = Some (Arr2 rows) →
  var_dict (w_heap w) parent name = Some d →
  str_in "QC" name = false →
  str_in "DM" name = false →
  ∃ d',
    var_dict (w_heap w') child name = Some d' ∧
    d' !! "coverage_content_type" = Some (AStr "physicalMeasurement") ∧
    ∀ k, k = "valid_min" ∨ k = "valid_max" →
         match d !! k with
         | Some x =>
             ∃ y, py_mul_milli x = Ok y ∧ d' !! k = Some y ∧
                  ∀ q, x = ANum (Num q) → y = ANum (Num (times_milli q))
         | None => d' !! k = None
         end.
Proof.
  intros Hv Hrun Hin Ha Hd Hqc Hdm.
  destruct (create_inv self _ _ _ Hv Hrun)
    as (i & j & df & ext & _ & _ & _ & _ & _ & _ & _ & _ & _ & Hdict).
  destruct (Hdict name rows d Hin Ha Hd) as (d1 & Hp & Hd1).
  exists (stripped (data_vars parent) d1). split; [done|].
  unfold physical in Hp. rewrite Hqc, Hdm in Hp. simpl in Hp.
  destruct (scale_key d "valid_min" _) as [d0|e] eqn:E0; [|done]. simpl in Hp.
  split.
  - rewrite stripped_other by done.
    rewrite (scale_key_other _ _ _ _ _ Hp) by done.
    rewrite (scale_key_other _ _ _ _ _ E0) by done.
    apply lookup_insert_eq.
  - intros k [-> | ->]; rewrite stripped_other by done.
    + rewrite (scale_key_other _ _ _ _ _ Hp) by done.
      apply scale_key_same in E0.
      destruct (d !! "valid_min") as [x|] eqn:Ex.
      * destruct E0 as (y & Hy & Hl). exists y. repeat split; try done.
        intros q ->. simpl in Hy. by injection Hy as <-.
      * by rewrite E0, lookup_insert_ne.
    + apply scale_key_same in Hp.
      destruct (d !! "valid_max") as [x|] eqn:Ex.
      * destruct Hp as (y & Hy & Hl). exists y. repeat split; try done.
        intros q ->. simpl in Hy. by injection Hy as <-.
      * rewrite Hp. rewrite (scale_key_other _ _ _ _ _ E0) by done.
        by rewrite lookup_insert_ne.
Qed.

(** C2, as amended.  In the string of references of a variable that is
    carried over, a reference that names no data variable of the parent is
    cut out (its place is left empty), and a reference that names a data
    variable of the parent, carried over or not, is kept, provided that no
    reference that is cut out occurs inside another reference. *)
Theorem dangling_references_are_cut w child w' name rows d s :
  ds_valid (w_heap w) parent = true →
  create_dataset_with_variables self w = (Ok child, w') →
  name ∈ data_vars parent →
  var_array (w_heap w) parent name = Some (Arr2 rows) →
  var_dict (w_heap w) parent name = Some d →
  d !! "ancillary_variables" = Some (AStr s) →
  no_overlap (data_vars parent) (split_on space s) = true →
  ∃ d' s',
    var_dict (w_heap w') child name = Some d' ∧
    d' !! "ancillary_variables" = Some (AStr s') ∧
    split_on space s' =
    (λ t, if bool_decide (t ∈ data_vars parent) then t else "") <$> split_on space s.
Proof.
  intros Hv Hrun Hin Ha Hd Hs Hno.
  destruct (create_inv self _ _ _ Hv Hrun)
    as (i & j & df & ext & _ & _ & _ & _ & _ & _ & _ & _ & _ & Hdict).
  destruct (Hdict name rows d Hin Ha Hd) as (d1 & Hp & Hd1).
  exists (stripped (data_vars parent) d1), (strip_refs (data_vars parent) s).
  split; [done|].
  assert (d1 !! "ancillary_variables" = Some (AStr s)) as Hs1.
  { by rewrite (physical_other _ _ _ "ancillary_variables" Hp). }
  unfold stripped. rewrite Hs1. split; [apply lookup_insert_eq|].
  by apply strip_refs_tokens.
Qed.

(** C6.  A data variable with more than two dimensions ends the extraction:
    no child is made, and when the loop that fills the frame reaches the
    variable the run exits with the message that names it.  A data variable
    with fewer than two dimensions is passed over: the child has no variable
    of that name. *)
Theorem dimensions_decide w name a :
  ds_valid (w_heap w) parent = true →
  name ∈ data_vars parent →
  var_array (w_heap w) parent name = Some a →
  (2 < ndim a →
     (∀ child w', create_dataset_with_variables self w ≠ (Ok child, w')) ∧
     (∀ before after i j df,
        data_vars parent = before ++ name :: after →
        locate_window self w = (Ok (i, j), w) →
        foldM before (add_column self i j) empty_frame w = (Ok df, w) →
        create_dataset_with_variables self w =
          (Raise (SystemExit (too_many_dimensions name)), w) ∧
        str_in name (too_many_dimensions name) = true)) ∧
  (ndim a < 2 →
     ∀ child w', create_dataset_with_variables self w = (Ok child, w') →
                 name ∉ (ds_vars child).*1).
Proof.
  intros Hv Hin Ha. split.
  - intros Hn. split.
    + intros child w' Hrun.
      destruct (create_inv self _ _ _ Hv Hrun) as (i & j & df & ext & _ & _ & Hload & _).
      specialize (Hload name Hin). unfold loadable in Hload. rewrite Ha in Hload.
      destruct a as [x|xs|rows|k]; simpl in *; try lia. discriminate.
    + intros before after i j df Hsplit Hwin Hbefore. split; [|apply str_in_middle].
      unfold create_dataset_with_variables.
      rewrite (bind_ok _ _ _ _ _ Hwin). apply bind_raise.
      rewrite Hsplit, foldM_app, Hbefore. simpl. apply bind_raise.
      rewrite (add_column_run _ _ _ _ _ _ _ Ha).
      destruct a as [x|xs|rows|k]; simpl in *; try lia. done.
  - intros Hn child w' Hrun Hc.
    destruct (create_inv self _ _ _ Hv Hrun)
      as (i & j & df & ext & _ & _ & _ & Hkeys & _ & _ & _ & Hck & _).
    destruct (proj1 (Hck name) Hc) as [_ Hcol].
    destruct (proj1 (Hkeys name) Hcol) as [_ [c Hc']].
    apply column_Some in Hc' as (rows & row & Ha' & _).
    rewrite Ha in Ha'. injection Ha' as ->. simpl in Hn. lia.
Qed.

End attributes.

(** * The claims about the encoding *)

(** The order in which the name of a variable is tested *)
Lemma classify_precedence name :
  (name = "PRES" → classify name = Pressure) ∧
  (name ≠ "PRES" → str_in "DM" name = true → classify name = DataMode) ∧
  (name ≠ "PRES" → str_in "DM" name = false → str_in "QC" name = true →
   classify name = QualityControl) ∧
  (name ≠ "PRES" → str_in "DM" name = false → str_in "QC" name = false →
   classify name = Other).
Proof.
  unfold classify. repeat split.
  - intros ->. done.
  - intros Hne ->. by rewrite bool_decide_false.
  - intros Hne -> ->. by rewrite bool_decide_false.
  - intros Hne -> ->. by rewrite bool_decide_false.
Qed.

(** Taking the spaces out commutes with splitting at the commas. *)
Lemma remove_spaces_cons a s :
  str_replace " " "" (String a s) =
  if Ascii.eqb a space then str_replace " " "" s
  else String a (str_replace " " "" s).
Proof.
  unfold str_replace, space. cbn [replace_from String.prefix].
  destruct (ascii_dec _ a) as [<-|Hne].
  - rewrite Ascii.eqb_refl. by destruct s.
  - apply not_eq_sym, Ascii.eqb_neq in Hne. by rewrite Hne.
Qed.

Lemma split_remove_spaces s :
  split_on "," (str_replace " " "" s) = str_replace " " "" <$> split_on "," s.
Proof.
  induction s as [|a s IH]; [done|].
  rewrite remove_spaces_cons. cbn [split_on].
  destruct (Ascii.eqb_spec a space) as [->|Hsp].
  - rewrite IH. replace (Ascii.eqb space ",") with false by done.
    destruct (split_on_cons "," s) as (t & ts & ->).
    cbn [fmap list_fmap]. rewrite remove_spaces_cons.
    by rewrite Ascii.eqb_refl.
  - cbn [split_on]. destruct (Ascii.eqb a ","); [by rewrite IH|].
    rewrite IH. destruct (split_on_cons "," s) as (t & ts & ->).
    cbn [fmap list_fmap]. rewrite remove_spaces_cons.
    by apply Ascii.eqb_neq in Hsp as ->.
Qed.

Lemma remove_spaces_no_space s : has_char space (str_replace " " "" s) = false.
Proof.
  induction s as [|a s IH]; [done|]. rewrite remove_spaces_cons.
  destruct (Ascii.eqb a space) eqn:Ha; [done|]. cbn [has_char]. by rewrite Ha, IH.
Qed.

Definition data_mode_encoding : Encoding :=
  {| dtype := "S1"; FillValue := FillStr " " |}.

Lemma at_dict_upd_ne w l l' d d' :
  l ≠ l' → at_dict w l d → at_dict (upd l' d' w) l d.
Proof. intros Hne Hd. unfold at_dict, upd. simpl. by rewrite list_lookup_insert_ne. Qed.

(** One turn of the loop that chooses the encodings *)
Lemma encode_variable_inv child enc name w enc1 w1 :
  encode_variable child enc name w = (Ok enc1, w1) →
  enc1 = <[name := encoding_of (classify name)]> enc ∧
  (classify name ≠ DataMode → w1 = w) ∧
  (classify name = DataMode →
     ∃ v d s, assoc_get name (ds_vars child) = Some v ∧
              at_dict w (v_attrs v) d ∧
              d !! "flag_values" = Some (AStr s) ∧
              w1 = upd (v_attrs v)
                     (<["flag_values" := AArr (split_on "," (str_replace " " "" s))]> d) w).
Proof.
  unfold encode_variable. destruct (classify name) eqn:Hc;
    try (intros [= <- <-]; by repeat split).
  intros (x & w2 & Hget & Hrest)%bind_inv.
  apply bind_inv in Hrest as (a & w3 & Ha & Hrest).
  apply bind_inv in Hrest as ([] & w4 & Hset & Hret).
  injection Hret as <- <-. split; [done|]. split; [done|]. intros _.
  destruct (assoc_get name (ds_vars child)) as [v|] eqn:Ev;
    [|by rewrite (attr_get_missing _ _ _ _ Ev) in Hget].
  unfold attr_get in Hget.
  rewrite (bind_ok _ _ _ _ _ (var_attrs_run _ _ _ _ Ev)) in Hget.
  unfold getitem in Hget. apply bind_inv in Hget as (d & w5 & Hread & Hget).
  unfold read_dict in Hread.
  destruct (w_heap w !! v_attrs v) as [[d0|]|] eqn:Eh; try done.
  injection Hread as <- <-.
  destruct (d0 !! "flag_values") as [x0|] eqn:Ex; [|done].
  injection Hget as <- <-.
  unfold lift in Ha. injection Ha as Ha <-.
  destruct x0 as [s| |]; try done. injection Ha as <-.
  exists v, d0, s. repeat split; try done.
  rewrite (attr_set_run _ _ _ _ d0 _ _ Ev Eh) in Hset. by injection Hset as <-.
Qed.

Section encoding.
Context (child : Dataset) (name : string) (v : XVariable).
Context (Hv : assoc_get name (ds_vars child) = Some v).

(** No other variable of the child shares the dictionary of [name]. *)
Definition own_dict : Prop :=
  ∀ name' v', name' ≠ name → assoc_get name' (ds_vars child) = Some v' →
              v_attrs v' ≠ v_attrs v.

Lemma encode_fold names enc w enc' w' d :
  own_dict →
  classify name = DataMode →
  at_dict w (v_attrs v) d →
  foldM names (encode_variable child) enc w = (Ok enc', w') →
  (name ∉ names → at_dict w' (v_attrs v) d ∧ enc' !! name = enc !! name) ∧
  (name ∈ names →
     ∃ s, d !! "flag_values" = Some (AStr s) ∧
          at_dict w' (v_attrs v)
            (<["flag_values" := AArr (split_on "," (str_replace " " "" s))]> d) ∧
          enc' !! name = Some data_mode_encoding).
Proof.
  intros Hown Hdm. revert enc w d.
  induction names as [|n names IH]; intros enc w d Hd; simpl.
  - intros [= <- <-]. split; [done|]. by intros ?%elem_of_nil.
  - intros (enc1 & w1 & Hstep & Hrest)%bind_inv.
    apply encode_variable_inv in Hstep as (-> & Hplain & Hmode).
    destruct (decide (n = name)) as [->|Hne].
    + destruct (Hmode Hdm) as (v0 & d0 & s & Ev0 & Hd0 & Hs & ->).
      assert (v0 = v) as -> by congruence.
      assert (d0 = d) as -> by (unfold at_dict in *; congruence).
      destruct (IH _ _ _ (at_dict_upd _ _ _ _ Hd) Hrest) as [Hout Hin].
      split; [intros []%not_elem_of_cons; done|]. intros _.
      destruct (decide (name ∈ names)) as [Hagain|Hnot].
      * destruct (Hin Hagain) as (s' & Hs' & _). by rewrite lookup_insert_eq in Hs'.
      * destruct (Hout Hnot) as [Hd' Henc]. exists s. split; [done|]. split; [done|].
        rewrite Henc, lookup_insert_eq. by rewrite Hdm.
    + assert (at_dict w1 (v_attrs v) d) as Hd1.
      { destruct (classify n) eqn:Hc; try (by rewrite Hplain).
        destruct (Hmode eq_refl) as (v0 & d0 & s & Ev0 & Hd0 & Hs & ->).
        apply at_dict_upd_ne; [|done]. apply not_eq_sym. by eapply Hown. }
      destruct (IH _ _ _ Hd1 Hrest) as [Hout Hin]. split.
      * intros [_ Hnot]%not_elem_of_cons. destruct (Hout Hnot) as [? Henc].
        split; [done|]. by rewrite Henc, lookup_insert_ne.
      * intros [?|Hagain]%elem_of_cons; [done|]. by apply Hin.
Qed.

End encoding.

(** The same as a check: every other variable has another dictionary. *)
Definition separate_dicts (child : Dataset) (name : string) (v : XVariable) : bool :=
  forallb (λ kv, bool_decide (kv.1 = name) || negb (v_attrs kv.2 =? v_attrs v))
          (ds_vars child).

Lemma separate_dicts_own child name v :
  separate_dicts child name v = true → own_dict child name v.
Proof.
  unfold separate_dicts. rewrite forallb_forall.
  intros Hall name' v' Hne Hget%assoc_get_elem Heq.
  apply list_elem_of_In, Hall in Hget. simpl in Hget.
  rewrite bool_decide_eq_false_2 in Hget by done.
  rewrite Heq, Nat.eqb_refl in Hget. done.
Qed.

(** C7, as amended.  Before a data-mode variable (one whose name has [DM] in
    it) is written, its [flag_values], a string, becomes the array of the
    parts of that string between the commas, in their order, each with its
    space characters taken out (other white space, a tab for one, stays); and
    the variable is encoded as [S1] with a space for the missing value. *)
Theorem flag_values_become_an_array child w enc w' name v d s :
  compute_encoding child w = (Ok enc, w') →
  name ∈ data_vars child →
  str_in "DM" name = true →
  assoc_get name (ds_vars child) = Some v →
  separate_dicts child name v = true →
  at_dict w (v_attrs v) d →
  d !! "flag_values" = Some (AStr s) →
  ∃ d' elements,
    var_dict (w_heap w') child name = Some d' ∧
    d' !! "flag_values" = Some (AArr elements) ∧
    elements = str_replace " " "" <$> split_on "," s ∧
    Forall (λ t, has_char space t = false) elements ∧
    enc !! name = Some {| dtype := "S1"; FillValue := FillStr " " |}.
Proof.
  intros Hrun Hin Hdm Hv Hown%separate_dicts_own Hd Hs.
  assert (classify name = DataMode) as Hc.
  { unfold classify. case_bool_decide as Hp; [by subst|]. by rewrite Hdm. }
  destruct (encode_fold child name v Hv _ _ _ _ _ _ Hown Hc Hd Hrun) as [_ Hfold].
  destruct (Hfold Hin) as (s' & Hs' & Hd' & Henc).
  assert (s' = s) as -> by congruence.
  eexists _, _. split; [|split; [apply lookup_insert_eq|]].
  - unfold var_dict. rewrite Hv. unfold at_dict in Hd'. by rewrite Hd'.
  - split; [apply split_remove_spaces|]. split; [|done].
    rewrite split_remove_spaces. apply Forall_fmap, Forall_forall.
    intros t _. apply remove_spaces_no_space.
Qed.

(** The loop gives an encoding to the data variables of the child and to
    nothing else. *)
Lemma compute_encoding_keys child w enc w' name :
  compute_encoding child w = (Ok enc, w') →
  name ∉ data_vars child → enc !! name = None.
Proof.
  unfold compute_encoding.
  assert (∀ names enc0, name ∉ names →
            foldM names (encode_variable child) enc0 w = (Ok enc, w') →
            enc !! name = enc0 !! name) as Hgen.
  { intros names. revert w. induction names as [|n names IH]; intros w enc0 Hnot; simpl.
    - by intros [= <- <-].
    - apply not_elem_of_cons in Hnot as [Hne Hnot].
      intros (enc1 & w1 & Hstep & Hrest)%bind_inv.
      apply encode_variable_inv in Hstep as (-> & _).
      rewrite (IH _ _ Hnot Hrest). by rewrite lookup_insert_ne. }
  intros Hrun Hnot. by rewrite (Hgen _ _ Hnot Hrun).
Qed.

Lemma coordinate_not_data_var ds name : name ∈ ds_coords ds → name ∉ data_vars ds.
Proof. unfold data_vars. by intros Hc [Hn _]%list_elem_of_filter. Qed.

(** * The claims about the parent *)

(** ** Loading *)

Definition opened (n : nat) (a : Archive) : Dataset :=
  {| ds_vars := var_refs n (ar_vars a);
     ds_coords := ar_coords a;
     ds_attrs := n + length (var_objs nc_data nc_attrs (ar_vars a)) |}.

Lemma open_dataset_run a w :
  open_dataset a w =
  (Ok (opened (length (w_heap w)) a),
   set_heap (w_heap w ++ var_objs nc_data nc_attrs (ar_vars a) ++ [ODict (ar_attrs a)]) w).
Proof.
  unfold open_dataset.
  rewrite (bind_ok _ _ _ _ _ (alloc_vars_run nc_data nc_attrs (ar_vars a) w)).
  rewrite alloc_bind. simpl. by rewrite length_app, <- app_assoc.
Qed.

Lemma opened_attrs h a rest :
  (h ++ var_objs nc_data nc_attrs (ar_vars a) ++ ODict (ar_attrs a) :: rest)
    !! ds_attrs (opened (length h) a) = Some (ODict (ar_attrs a)).
Proof.
  simpl. rewrite lookup_app_r by lia. rewrite lookup_app_r by lia.
  by replace (length h + _ - length h - _) with 0 by lia.
Qed.

Lemma var_refs_valid {X} (fa : X → ndarray) (fd : X → gmap string attr_val)
    (xs : list (string * X)) h rest :
  forallb (λ kv : string * XVariable,
             match (h ++ var_objs fa fd xs ++ rest) !! v_data kv.2,
                   (h ++ var_objs fa fd xs ++ rest) !! v_attrs kv.2 with
             | Some (OArr _), Some (ODict _) => true
             | _, _ => false
             end) (var_refs (length h) xs) = true.
Proof.
  revert h. induction xs as [|[k x] r IH]; intros h; [done|].
  cbn [var_refs var_objs forallb fst snd v_data v_attrs].
  apply andb_true_iff. split.
  - rewrite lookup_app_r by lia. rewrite Nat.sub_diag. cbn.
    rewrite lookup_app_r by lia. by replace (S (length h) - length h) with 1 by lia.
  - specialize (IH (h ++ [OArr (fa x); ODict (fd x)])).
    rewrite length_app in IH. cbn [length] in IH.
    replace (length h + 2) with (S (S (length h))) in IH by lia.
    by rewrite <- app_assoc in IH.
Qed.

Lemma opened_valid h a rest :
  ds_valid (h ++ var_objs nc_data nc_attrs (ar_vars a) ++ rest) (opened (length h) a)
  = true.
Proof. apply var_refs_valid. Qed.

Lemma ds_valid_insert h ds l d d' :
  h !! l = Some (ODict d) → ds_valid h ds = true →
  ds_valid (<[l := ODict d']> h) ds = true.
Proof.
  intros Hl. unfold ds_valid. rewrite !forallb_forall. intros Hall kv Hkv.
  specialize (Hall kv Hkv).
  assert (∀ l', match h !! l' with Some (OArr _) => True | _ => False end →
                <[l := ODict d']> h !! l' = h !! l') as Harr.
  { intros l' Hl'. destruct (decide (l = l')) as [->|Hne].
    - by rewrite Hl in Hl'.
    - by rewrite list_lookup_insert_ne. }
  destruct (h !! v_data kv.2) as [[|a]|] eqn:E1; try done.
  rewrite Harr by by rewrite E1. rewrite E1.
  destruct (h !! v_attrs kv.2) as [[d0|]|] eqn:E2; try done.
  destruct (decide (l = v_attrs kv.2)) as [->|Hne].
  - rewrite list_lookup_insert_eq; [done|]. by eapply lookup_lt_Some.
  - by rewrite list_lookup_insert_ne, E2.
Qed.

(** ** The steps of [main] before the stations *)

Section prepare.
Context `{Formatting}.

Lemma coordinates_inv ds w x w' :
  get_coordinate_variables_values ds w = (Ok x, w') → w' = w.
Proof.
  unfold get_coordinate_variables_values.
  intros (lat & w1 & [-> _]%ds_values_inv & Hrest)%bind_inv.
  apply bind_inv in Hrest as (lon & w2 & [-> _]%ds_values_inv & Hrest).
  apply bind_inv in Hrest as (t & w3 & [-> _]%ds_values_inv & Hrest).
  by injection Hrest as _ <-.
Qed.

Lemma min_max_inv ds w mins maxs w' :
  get_min_max_pressures ds w = (Ok (mins, maxs), w') →
  w' = w ∧
  ∃ a rows, var_array (w_heap w) ds "PRES" = Some a ∧
            pressure_rows a = Ok rows ∧
            map_result py_min rows = Ok mins ∧
            map_result py_max rows = Ok maxs.
Proof.
  unfold get_min_max_pressures.
  intros (a & w1 & [-> Ha]%ds_values_inv & Hrest)%bind_inv.
  apply bind_inv in Hrest as (rows & w2 & Hrows & Hrest).
  apply bind_inv in Hrest as (mins' & w3 & Hmins & Hrest).
  apply bind_inv in Hrest as (a' & w4 & Ha' & Hrest).
  apply bind_inv in Hrest as (rows' & w5 & Hrows' & Hrest).
  apply bind_inv in Hrest as (maxs' & w6 & Hmaxs & Hrest).
  unfold lift in *. injection Hrows as Hrows <-. injection Hmins as Hmins <-.
  apply ds_values_inv in Ha' as [-> Ha'].
  injection Hrows' as Hrows' <-. injection Hmaxs as Hmaxs <-.
  injection Hrest as <- <- <-. split; [done|].
  assert (a' = a) as -> by congruence. assert (rows' = rows) as -> by congruence.
  eauto 10.
Qed.

(** What a successful [prepare] leaves: the archive opened and valid, its
    global attributes repaired, and the bounds of every pressure row. *)
Lemma prepare_inv name file w parentFile w1 :
  prepare name file w = (Ok parentFile, w1) →
  ∃ a doi summary cn cu,
    file = Some a ∧
    contents parentFile = opened (length (w_heap w)) a ∧
    ar_attrs a !! "doi" = Some (AStr doi) ∧
    ar_attrs a !! "summary" = Some (AStr summary) ∧
    ar_attrs a !! "creator_name" = Some cn ∧
    ar_attrs a !! "creator_url" = Some cu ∧
    Forall (λ k, is_Some (ar_attrs a !! k)) unwanted_atts ∧
    w1 = upd (ds_attrs (contents parentFile))
           (repaired_attrs (ar_attrs a) doi summary cn cu)
           (set_heap (w_heap w ++ var_objs nc_data nc_attrs (ar_vars a)
                        ++ [ODict (ar_attrs a)]) w) ∧
    ds_valid (w_heap w1) (contents parentFile) = true ∧
    ∃ pres rows,
      var_array (w_heap w1) (contents parentFile) "PRES" = Some pres ∧
      pressure_rows pres = Ok rows ∧
      map_result py_min rows = Ok (min_pressures parentFile) ∧
      map_result py_max rows = Ok (max_pressures parentFile).
Proof.
  unfold prepare. intros (ds & w2 & Hload & Hrest)%bind_inv.
  destruct file as [a|]; [|done]. simpl in Hload.
  rewrite open_dataset_run in Hload. injection Hload as <- <-.
  apply bind_inv in Hrest as ([] & w3 & Hrepair & Hrest).
  apply repair_ok_inv with (d := ar_attrs a) in Hrepair
    as (doi & summary & cn & cu & Hdoi & Hsum & Hcn & Hcu & Hdel & ->);
    [|apply opened_attrs].
  apply bind_inv in Hrest as ([[lat lon] t] & w4 & ->%coordinates_inv & Hrest).
  apply bind_inv in Hrest as ([mins maxs] & w5 & Hmm & Hrest).
  apply min_max_inv in Hmm as (-> & pres & rows & Hpres & Hrows & Hmins & Hmaxs).
  injection Hrest as <- <-. simpl.
  exists a, doi, summary, cn, cu. do 8 (split; [done|]). split.
  - eapply ds_valid_insert; [apply opened_attrs|]. apply opened_valid.
  - eauto 10.
Qed.

End prepare.

Lemma repaired_attrs_doi `{Formatting} d doi summary cn cu :
  d !! "doi" = Some (AStr doi) →
  repaired_attrs d doi summary cn cu !! "doi" = Some (AStr doi).
Proof.
  intros Hd. unfold repaired_attrs.
  repeat first [ rewrite lookup_delete_ne by done | rewrite lookup_insert_ne by done ].
  done.
Qed.

Lemma repaired_attrs_summary `{Formatting} d doi summary cn cu :
  repaired_attrs d doi summary cn cu !! "summary"
  = Some (AStr (summary +:+ summary_suffix)).
Proof.
  unfold repaired_attrs.
  repeat first [ rewrite lookup_delete_ne by done | rewrite lookup_insert_ne by done ].
  apply lookup_insert_eq.
Qed.

Lemma repaired_attrs_acknowledgement `{Formatting} d doi summary cn cu :
  repaired_attrs d doi summary cn cu !! "acknowledgement"
  = Some (AStr (acknowledgement_text (AStr doi))).
Proof.
  unfold repaired_attrs.
  repeat first [ rewrite lookup_delete_ne by done | rewrite lookup_insert_ne by done ].
  apply lookup_insert_eq.
Qed.

Section parent_claims.
Context `{Formatting}.

(** The attributes that the repair reads or deletes *)
Definition required_atts : list string :=
  ["doi"; "creator_name"; "creator_url"] ++ unwanted_atts.

(** C5.  When the archive lacks one of the global attributes that the repair
    reads ([doi], [creator_name], [creator_url]) or deletes, the work on the
    archive ends with an exception before any file is written, and so does
    the run. *)
Theorem missing_attribute_stops_the_archive name a rest w key :
  key ∈ required_atts →
  ar_attrs a !! key = None →
  ∃ e w',
    process_parent (name, Some a) w = (Raise e, w') ∧
    w_files w' = w_files w ∧
    main ((name, Some a) :: rest) w = (Raise e, w').
Proof.
  intros Hkey Hnone.
  destruct (prepare name (Some a) w) as [[pf|e] w1] eqn:Hprep.
  - exfalso. apply prepare_inv in Hprep
      as (a' & doi & summary & cn & cu & [= <-] & _ & Hdoi & _ & Hcn & Hcu & Hdel & _).
    unfold required_atts, unwanted_atts in *. simpl in Hkey.
    rewrite !Forall_cons in Hdel. destruct Hdel as ([? ?] & [? ?] & [? ?] & [? ?] & _).
    repeat (apply elem_of_cons in Hkey as [->|Hkey]; [congruence|]).
    by apply elem_of_nil in Hkey.
  - assert (process_parent (name, Some a) w = (Raise e, w1)) as Hpp.
    { unfold process_parent. by apply bind_raise. }
    exists e, w1. split; [done|]. split.
    + pose proof (no_write_prepare name (Some a) w) as Hw. by rewrite Hprep in Hw.
    + simpl. by apply bind_raise.
Qed.

(** The summary that the repair leaves is the old one followed by a text in
    which the DOI does not take part; the acknowledgement has the DOI in it. *)
Lemma repair_summary ds w d w' :
  at_dict w (ds_attrs ds) d →
  add_change_drop_gloabl_attributes ds w = (Ok (), w') →
  ∃ doi summary d',
    d !! "doi" = Some (AStr doi) ∧ d !! "summary" = Some (AStr summary) ∧
    at_dict w' (ds_attrs ds) d' ∧
    d' !! "summary" = Some (AStr (summary +:+ summary_suffix)) ∧
    d' !! "acknowledgement" = Some (AStr (acknowledgement_text (AStr doi))) ∧
    str_in doi (acknowledgement_text (AStr doi)) = true.
Proof.
  intros Hd Hrun.
  destruct (repair_ok_inv _ _ _ _ Hd Hrun)
    as (doi & summary & cn & cu & Hdoi & Hsum & _ & _ & _ & ->).
  exists doi, summary, (repaired_attrs d doi summary cn cu).
  split; [done|]. split; [done|]. split; [by eapply at_dict_upd|].
  split; [apply repaired_attrs_summary|]. split; [apply repaired_attrs_acknowledgement|].
  unfold acknowledgement_text. apply str_in_middle.
Qed.

End parent_claims.

(** ** The global attributes of a child *)

Section assign.
Context `{Formatting}.

Definition tick (w : World) : World :=
  {| w_heap := w_heap w; w_files := w_files w; w_clock := S (w_clock w) |}.

Lemma now_bind {B} (f : string → M B) w :
  (now ≫= f) w = f (strftime_now (w_clock w)) (tick w).
Proof. done. Qed.

Lemma at_dict_tick w l d : at_dict w l d → at_dict (tick w) l d.
Proof. done. Qed.

(** A child whose global attributes were assigned has them in a dictionary of
    its own, without [doi]; the parent's dictionary is as it was, [doi]
    included. *)
Lemma assign_inv self child w child' w' d :
  at_dict w (ds_attrs (contents (parentFile self))) d →
  assign_global_attributes self child w = (Ok child', w') →
  ∃ d',
    ds_attrs child' = S (length (w_heap w)) ∧
    ds_vars child' = ds_vars child ∧
    ds_coords child' = ds_coords child ∧
    at_dict w' (ds_attrs child') d' ∧
    d' !! "doi" = None ∧
    is_Some (d !! "doi") ∧
    at_dict w' (ds_attrs (contents (parentFile self))) d.
Proof.
  intros Hd. unfold assign_global_attributes.
  rewrite (read_dict_bind _ _ d) by done. rewrite alloc_bind.
  rewrite (read_dict_bind _ _ d) by apply with_last_at.
  rewrite alloc_bind. cbn [set_ds_attrs ds_attrs].
  change (set_heap (w_heap w ++ [ODict d]) w) with (with_last (w_heap w) d w).
  cbn [w_heap with_last set_heap].
  set (h1 := w_heap w ++ [ODict d]).
  change (set_heap (h1 ++ [ODict d]) ?x) with (with_last h1 d x).
  set (w2 := with_last h1 d _).
  assert (at_dict w2 (length h1) d) as E by apply with_last_at.
  assert (ds_attrs (contents (parentFile self)) ≠ length h1) as Hne.
  { unfold h1. rewrite length_app. apply lookup_lt_Some in Hd. simpl. lia. }
  assert (at_dict w2 (ds_attrs (contents (parentFile self))) d) as Hp.
  { unfold at_dict, w2, h1. simpl. rewrite <- app_assoc. by apply lookup_app_l_Some. }
  do 10 dict_step E. rewrite now_bind.
  apply at_dict_tick in E.
  eapply (at_dict_upd_ne _ _ _ _ _ Hne), at_dict_tick in Hp.
  do 3 dict_step E. dict_step E. dict_lookup Eid; [|done].
  destruct v as [id| |]; try done.
  rewrite bind_lift_ok
    with (a := id +:+ ("_" +:+ lat_string self +:+ "_" +:+ lon_string self)) by done.
  do 2 dict_step E. dict_step E. dict_lookup Edoi; [|done]. dict_deleted E.
  dict_step E. intros [= <- <-].
  eexists. split; [unfold h1; rewrite length_app; simpl; lia|].
  split; [done|]. split; [done|]. split; [exact E|].
  split; [by rewrite lookup_insert_ne, lookup_delete_eq|].
  split; [eauto|]. by apply at_dict_upd_ne.
Qed.

End assign.

Section read_only.
Context `{Formatting}.

Lemma frame_lookup n (m : M unit) w l o :
  frame n (λ _, True) m → n = length (w_heap w) →
  w_heap w !! l = Some o → w_heap (m w).2 !! l = Some o.
Proof.
  intros Hm -> Hl. destruct (Hm w (le_n _)) as (Ht & _ & _).
  rewrite firstn_all in Ht. rewrite <- Ht in Hl.
  by apply lookup_take_Some in Hl as [? _].
Qed.

(** C8.  Once the parent is loaded and its global attributes are repaired,
    the work on the stations, however many and whether it ends well or not,
    leaves every object of the parent as it was: the arrays of its variables,
    their attribute dictionaries and the dictionary of global attributes,
    which still has its [doi].  A child's global attributes are a dictionary
    of its own, a copy: deleting [doi] from it leaves the parent's in
    place. *)
Theorem parent_is_read_only name file w0 pf w1 ps r w2 :
  prepare name file w0 = (Ok pf, w1) →
  forM_ ps (station pf) w1 = (r, w2) →
  (∀ l o, w_heap w1 !! l = Some o → w_heap w2 !! l = Some o) ∧
  ds_valid (w_heap w1) (contents pf) = true ∧
  (∀ v a, var_array (w_heap w1) (contents pf) v = Some a →
          var_array (w_heap w2) (contents pf) v = Some a) ∧
  (∀ v d, var_dict (w_heap w1) (contents pf) v = Some d →
          var_dict (w_heap w2) (contents pf) v = Some d) ∧
  (∃ d, at_dict w1 (ds_attrs (contents pf)) d ∧
        at_dict w2 (ds_attrs (contents pf)) d ∧
        is_Some (d !! "doi")) ∧
  (∀ self child w child' w' d,
     parentFile self = pf →
     at_dict w (ds_attrs (contents pf)) d →
     assign_global_attributes self child w = (Ok child', w') →
     ds_attrs child' ≠ ds_attrs (contents pf) ∧
     (∃ d', at_dict w' (ds_attrs child') d' ∧ d' !! "doi" = None) ∧
     at_dict w' (ds_attrs (contents pf)) d ∧ is_Some (d !! "doi")).
Proof.
  intros Hprep Hloop.
  assert (∀ l o, w_heap w1 !! l = Some o → w_heap w2 !! l = Some o) as Hkeep.
  { intros l o Hl.
    pose proof (frame_lookup _ _ w1 l o (frame_stations (length (w_heap w1)) pf ps)
                  eq_refl Hl) as Hl2.
    by rewrite Hloop in Hl2. }
  apply prepare_inv in Hprep
    as (a & doi & summary & cn & cu & -> & Hds & Hdoi & _ & _ & _ & _ & Hw1 & Hvalid & _).
  split; [done|]. split; [done|]. split; [|split; [|split]].
  - intros v arr. unfold var_array.
    destruct (assoc_get v (ds_vars (contents pf))) as [x|]; [|done].
    destruct (w_heap w1 !! v_data x) as [o|] eqn:E; [|done].
    by rewrite (Hkeep _ _ E).
  - intros v d. unfold var_dict.
    destruct (assoc_get v (ds_vars (contents pf))) as [x|]; [|done].
    destruct (w_heap w1 !! v_attrs x) as [o|] eqn:E; [|done].
    by rewrite (Hkeep _ _ E).
  - exists (repaired_attrs (ar_attrs a) doi summary cn cu).
    assert (at_dict w1 (ds_attrs (contents pf))
              (repaired_attrs (ar_attrs a) doi summary cn cu)) as Hd.
    { rewrite Hw1. eapply at_dict_upd. unfold at_dict. rewrite Hds. simpl.
      apply (opened_attrs (w_heap w0) a []). }
    split; [done|]. split; [by apply Hkeep|].
    rewrite repaired_attrs_doi; eauto.
  - intros self child w child' w' d <- Hd Hassign.
    destruct (assign_inv _ _ _ _ _ _ Hd Hassign) as (d' & Hl & _ & _ & Hd' & Hnone & Hsome & Hp).
    split; [|eauto]. rewrite Hl. apply lookup_lt_Some in Hd. lia.
Qed.

End read_only.

(** ** The bounds of a child are those of its row *)

Definition norm_index (i : Z) (n : nat) : nat :=
  Z.to_nat (if (i <? 0)%Z then (i + Z.of_nat n)%Z else i).

Lemma py_getitem_lookup {A} (xs : list A) i x :
  py_getitem xs i = Ok x →
  xs !! norm_index i (length xs) = Some x.
Proof.
  unfold py_getitem, norm_index. case_match; [|done].
  by destruct (xs !! _) eqn:E; [intros [= <-]|].
Qed.

Lemma py_getitem_same_length {A B} (xs : list A) (ys : list B) i x y :
  length xs = length ys →
  py_getitem xs i = Ok x → py_getitem ys i = Ok y →
  ∃ k, xs !! k = Some x ∧ ys !! k = Some y.
Proof.
  intros Hlen Hx%py_getitem_lookup Hy%py_getitem_lookup.
  exists (norm_index i (length xs)). split; [done|]. by rewrite Hlen.
Qed.

Lemma map_result_lookup {A B} (f : A → result B) xs ys :
  map_result f xs = Ok ys →
  length ys = length xs ∧
  ∀ k x y, xs !! k = Some x → ys !! k = Some y → f x = Ok y.
Proof.
  revert ys. induction xs as [|x0 xs IH]; intros ys; simpl.
  - intros [= <-]. split; [done|]. by intros ? ? ? ?.
  - destruct (f x0) as [y0|e] eqn:E0; simpl; [|done].
    destruct (map_result f xs) as [ys0|e]; simpl; [|done].
    intros [= <-]. destruct (IH ys0 eq_refl) as [Hlen Hall].
    split; [simpl; by rewrite Hlen|].
    intros [|k] x y; simpl; [by intros [= <-] [= <-] | apply Hall].
Qed.

Section measured.
Context `{Formatting}.

Lemma Child_init_inv p pf self :
  Child_init p pf = Ok self →
  parentFile self = pf ∧
  py_getitem (min_pressures pf) (position self) = Ok (min_pressure self) ∧
  py_getitem (max_pressures pf) (position self) = Ok (max_pressure self).
Proof.
  unfold Child_init.
  destruct (index_of_sample p) as [pos|]; simpl; [|done].
  destruct (np_scalar (latitudes pf) pos) as [lat|]; simpl; [|done].
  destruct (np_scalar (longitudes pf) pos) as [lon|]; simpl; [|done].
  destruct (py_getitem (min_pressures pf) pos) as [lo|] eqn:Hlo; simpl; [|done].
  destruct (py_getitem (max_pressures pf) pos) as [hi|] eqn:Hhi; simpl; [|done].
  destruct (np_scalar (times pf) pos) as [t|]; simpl; [|done].
  by intros [= <-].
Qed.

(** For a child that [main] makes, the bounds are the minimum and the maximum
    of the station's pressure row, in the store that [prepare] leaves and in
    every later one. *)
Lemma prepare_measured name file w0 pf w1 p self h :
  prepare name file w0 = (Ok pf, w1) →
  Child_init p pf = Ok self →
  (∀ l o, w_heap w1 !! l = Some o → h !! l = Some o) →
  measured self h.
Proof.
  intros Hprep (Hpf & Hlo & Hhi)%Child_init_inv Hkeep.
  apply prepare_inv in Hprep
    as (a & doi & summary & cn & cu & _ & _ & _ & _ & _ & _ & _ & _ & _
        & pres & rows & Hpres & Hrows & Hmins & Hmaxs).
  unfold measured, station_row. rewrite Hpf.
  assert (var_array h (contents pf) "PRES" = Some pres) as ->.
  { unfold var_array in *.
    destruct (assoc_get "PRES" (ds_vars (contents pf))) as [x|]; [|done].
    destruct (w_heap w1 !! v_data x) as [o|] eqn:E; [|done].
    by rewrite (Hkeep _ _ E). }
  destruct pres as [x|xs|rows'|k]; try done.
  simpl in Hrows. injection Hrows as ->.
  destruct (py_getitem rows (position self)) as [row|e] eqn:Hrow; [|done].
  destruct (map_result_lookup _ _ _ Hmins) as [Hlen1 Hall1].
  destruct (map_result_lookup _ _ _ Hmaxs) as [Hlen2 Hall2].
  destruct (py_getitem_same_length _ _ _ _ _ (eq_sym Hlen1) Hrow Hlo) as (k1 & Hk1 & Hk1').
  destruct (py_getitem_same_length _ _ _ _ _ (eq_sym Hlen2) Hrow Hhi) as (k2 & Hk2 & Hk2').
  split; [exact (Hall1 _ _ _ Hk1 Hk1') | exact (Hall2 _ _ _ Hk2 Hk2')].
Qed.

End measured.

(** * The claims that the code does not keep *)

Section defects.
Context `{Formatting}.

(** C3.  After the repair the acknowledgement has the value of [doi] in it.
    The summary does not: it is the old summary followed by a text that is
    the same for every archive, in which the expression that was to be
    replaced by the DOI stands as it was written, braces and all. *)
Theorem summary_keeps_the_placeholder name a w pf w1 :
  prepare name (Some a) w = (Ok pf, w1) →
  ∃ doi summary d,
    ar_attrs a !! "doi" = Some (AStr doi) ∧
    ar_attrs a !! "summary" = Some (AStr summary) ∧
    at_dict w1 (ds_attrs (contents pf)) d ∧
    d !! "acknowledgement" = Some (AStr (acknowledgement_text (AStr doi))) ∧
    str_in doi (acknowledgement_text (AStr doi)) = true ∧
    d !! "summary" = Some (AStr (summary +:+ summary_suffix)) ∧
    str_in "{self.contents.attrs[" summary_suffix = true.
Proof.
  intros (a' & doi & summary & cn & cu & [= <-] & Hc & Hdoi & Hsum & _ & _ & _ & -> & _)
    %prepare_inv.
  exists doi, summary, (repaired_attrs (ar_attrs a) doi summary cn cu).
  split; [done|]. split; [done|]. split.
  - apply at_dict_upd with (d := ar_attrs a). rewrite Hc.
    unfold at_dict. cbn [w_heap set_heap]. rewrite (app_assoc (w_heap w)).
    rewrite <- app_assoc. apply (opened_attrs (w_heap w) a []).
  - split; [apply repaired_attrs_acknowledgement|].
    split; [unfold acknowledgement_text; apply str_in_middle|].
    split; [apply repaired_attrs_summary|]. by vm_compute.
Qed.

(** C9.  The pressure of a child is a coordinate of it, and the loop that
    chooses the encodings goes over the data variables, which the
    coordinates are not among: the test for the name [PRES] is never true in
    it, and the pressure, although a variable of the file, is written with
    no encoding of its own. *)
Theorem pressure_is_left_without_encoding self w child w1 d child' w2 enc w3 :
  ds_valid (w_heap w) (contents (parentFile self)) = true →
  create_dataset_with_variables self w = (Ok child, w1) →
  at_dict w1 (ds_attrs (contents (parentFile self))) d →
  assign_global_attributes self child w1 = (Ok child', w2) →
  compute_encoding child' w2 = (Ok enc, w3) →
  ("PRES" ∈ (ds_vars child').*1) ∧
  ("PRES" ∉ data_vars child') ∧
  encoding_of (classify "PRES") = {| dtype := "float32"; FillValue := FillNone |} ∧
  enc !! "PRES" = None.
Proof.
  intros Hv Hc Hd Ha He.
  destruct (create_inv _ _ _ _ Hv Hc)
    as (i & j & df & ext & _ & _ & _ & _ & Hp & _ & Hco & Hkeys & _).
  destruct (assign_inv _ _ _ _ _ _ Hd Ha) as (_ & _ & Hvars & Hcoords & _).
  assert ("PRES" ∉ data_vars child') as Hnot.
  { apply coordinate_not_data_var. rewrite Hcoords, Hco. by left. }
  split; [|split; [done|split; [done|by eapply compute_encoding_keys]]].
  rewrite Hvars. by apply Hkeys.
Qed.

End defects.

(** * Runs that end well *)

Definition or_else {A} (r : result A) (a : A) : A :=
  match r with Ok x => x | Raise _ => a end.

(** A run that ends well is the pair of its result and its store. *)
Lemma run_ok {A} (r : result A * World) (a : A) :
  is_ok r.1 = true → r = (Ok (or_else r.1 a), r.2).
Proof. by destruct r as [[x|e] w]. Qed.

Definition dict_of (o : option obj) : gmap string attr_val :=
  match o with Some (ODict d) => d | _ => ∅ end.

Definition is_dict (o : option obj) : bool :=
  match o with Some (ODict _) => true | _ => false end.

Lemma dict_at w l : is_dict (w_heap w !! l) = true → at_dict w l (dict_of (w_heap w !! l)).
Proof. unfold at_dict. by destruct (w_heap w !! l) as [[d|a]|]. Qed.

(** The loop that fills the frame reads only: when it ends well the store is
    the one it began with. *)
Lemma add_columns_ok `{Formatting} self i j names df w :
  ds_valid (w_heap w) (contents (parentFile self)) = true →
  forallb (λ name, bool_decide (name ∈ data_vars (contents (parentFile self)))) names = true →
  is_ok (foldM names (add_column self i j) df w).1 = true →
  foldM names (add_column self i j) df w
  = (Ok (or_else (foldM names (add_column self i j) df w).1 df), w).
Proof.
  intros Hv Hin. destruct (foldM _ _ _ _) as [[df'|e] w'] eqn:E; [|done].
  intros _. apply loop1_inv in E as (-> & _); [done|].
  intros name Hname. rewrite forallb_forall in Hin.
  apply list_elem_of_In, Hin, bool_decide_eq_true in Hname.
  exact (ds_valid_array _ _ name Hv (data_vars_vars _ _ Hname)).
Qed.

Lemma lookup_default {A} (x : option A) (a : A) :
  bool_decide (is_Some x) = true → x = Some (default a x).
Proof. intros [y ->]%bool_decide_eq_true. done. Qed.

(** * A cruise of three stations *)

Module Cruise.

(** The number with a significand of 53 bits nearest to a rational, a tie
    going to the even significand: what a product of two 64-bit floats is
    rounded to, as long as it is within their range. *)
Definition round_double (q : Q) : Q :=
  let a := Z.abs (Qnum q) in
  let d := Zpos (Qden q) in
  if (a =? 0)%Z then 0%Q
  else
    let e0 := (Z.log2 a - Z.log2 d - 53)%Z in
    let num e := if (e <? 0)%Z then (a * 2 ^ (- e))%Z else a in
    let den e := if (e <? 0)%Z then d else (d * 2 ^ e)%Z in
    let e := if (2 ^ 53 <=? num e0 / den e0)%Z then (e0 + 1)%Z else e0 in
    let m := (num e / den e)%Z in
    let r := (num e mod den e)%Z in
    let m' := if (den e <? 2 * r)%Z then (m + 1)%Z
              else if ((2 * r =? den e)%Z && Z.odd m)%bool then (m + 1)%Z
              else m in
    let s := Z.sgn (Qnum q) in
    Qred (if (e <? 0)%Z then Qmake (s * m') (Z.to_pos (2 ^ (- e)))
          else inject_Z (s * m' * 2 ^ e)).

(** [0.001] as a 64-bit float *)
Definition double_milli : Q := 1152921504606847 # 1152921504606846976.

(** The product is the one of 64-bit floats.  How the libraries print does
    not matter to the claims; constant strings stand in. *)
#[export] Instance printing : Formatting := {|
  times_milli := λ q, round_double (q * double_milli);
  format_4f := λ _, "78.3517";
  datetime_as_string := λ _, "2020-10-20T07:35:31.000000000Z";
  str_datetime := λ _, "2020-10-20T07:35:31.000000000";
  py_str := λ _, "nan";
  strftime_now := λ _, "2022-02-15T14:06:27Z"
|}.

Definition num (z : Z) : sample := Num (inject_Z z).

Definition tab : string := String (Ascii.ascii_of_nat 9) EmptyString.

Definition global_attrs : gmap string attr_val :=
  list_to_map
    [ ("id", AStr "AR_PR_CT_58GS_2020113");
      ("doi", AStr "10.21335/NMDC-1752779505");
      ("summary", AStr "CTD data of the cruise.");
      ("creator_name", AStr "Institute of Marine Research");
      ("creator_url", AStr "https://www.hi.no");
      ("last_latitude_observation", ANum (num 79));
      ("last_longitude_observation", ANum (num 34));
      ("format_version", AStr "1.4");
      ("last_date_observation", AStr "2020-10-27T00:00:00Z") ].

Definition flags (n : Z) : list (list sample) :=
  [ [num n; num n; num n; num n]; [num n; num n; num n; NaN];
    [num n; num n; num n; num n] ].

Definition temp_attrs : gmap string attr_val :=
  {[ "valid_min" := ANum (num (-2500));
     "valid_max" := ANum (num 9);
     "ancillary_variables" := AStr "TEMP_QC STATION TEMP_ADJ" ]}.

Definition pres_dm_attrs : gmap string attr_val :=
  {[ "flag_values" := AStr "R, A, D" ]}.

(** Three stations of four samples: one going down, one that is shorter and
    padded, one whose row is the wrong way round. *)
Definition archive : Archive := {|
  ar_vars :=
    [ ("POSITION", {| nc_data := Arr1 [num 0; num 1; num 2]; nc_attrs := ∅ |});
      ("LATITUDE", {| nc_data := Arr1 [num 78; num 79; num 80]; nc_attrs := ∅ |});
      ("LONGITUDE", {| nc_data := Arr1 [num 34; num 33; num 32]; nc_attrs := ∅ |});
      ("TIME", {| nc_data := Arr1 [num 100; num 200; num 300]; nc_attrs := ∅ |});
      ("STATION", {| nc_data := Arr1 [num 501; num 502; num 503]; nc_attrs := ∅ |});
      ("PRES",
       {| nc_data := Arr2 [ [num 0; num 10; num 20; num 30];
                            [num 5; num 15; num 25; NaN];
                            [num 30; num 20; num 10; num 0] ];
          nc_attrs := {[ "valid_min" := ANum (num 0);
                         "valid_max" := ANum (num 12000000) ]} |});
      ("TEMP",
       {| nc_data := Arr2 [ [num 1; num 2; num 3; num 4];
                            [num 5; num 6; num 7; NaN];
                            [num 8; num 9; num 10; num 11] ];
          nc_attrs := temp_attrs |});
      ("TEMP_QC", {| nc_data := Arr2 (flags 1); nc_attrs := ∅ |});
      ("PRES_DM", {| nc_data := Arr2 (flags 82); nc_attrs := pres_dm_attrs |});
      ("TEMP_DM",
       {| nc_data := Arr2 (flags 82);
          nc_attrs := {[ "flag_values" := AStr ("R," +:+ tab +:+ "A") ]} |}) ];
  ar_coords := ["POSITION"; "LATITUDE"; "LONGITUDE"; "TIME"];
  ar_attrs := global_attrs
|}.

Definition no_dataset : Dataset := {| ds_vars := []; ds_coords := []; ds_attrs := 0 |}.

Definition no_parent : Parent_NetCDF_File := {|
  filepath := EmptyString; contents := no_dataset;
  latitudes := Arr1 []; longitudes := Arr1 []; times := Arr1 [];
  min_pressures := []; max_pressures := [] |}.

Definition no_child : Child_NetCDF_File := {|
  position := 0; parentFile := no_parent;
  latitude := NaN; longitude := NaN;
  lat_string := EmptyString; lon_string := EmptyString;
  min_pressure := NaN; max_pressure := NaN; time := NaN;
  timestamp_string := EmptyString; filename := EmptyString |}.

(** The parent after [prepare], and the store it lives in *)
Abbreviation prepared := (prepare "cruise.nc" (Some archive) empty_world).
Abbreviation cruise := (or_else prepared.1 no_parent).
Abbreviation loaded := (prepared.2).

(** The child of a station, and the dataset that the extraction makes *)
Definition child (k : Z) : Child_NetCDF_File :=
  or_else (Child_init (num k) cruise) no_child.

Abbreviation extracted k := (create_dataset_with_variables (child k) loaded).
Abbreviation made k := (or_else (extracted k).1 no_dataset).

(** The child with its global attributes, and the encoding of its variables *)
Abbreviation assigned k :=
  (assign_global_attributes (child k) (made k) (extracted k).2).
Abbreviation finished k := (or_else (assigned k).1 no_dataset).
Abbreviation encoded k := (compute_encoding (finished k) (assigned k).2).

(** The work on the three stations *)
Abbreviation stations := (forM_ [num 0; num 1; num 2] (station cruise) loaded).

(** The same cruise with a variable of three dimensions, and the same
    without its [doi] *)
Definition archive_with_spectra : Archive := {|
  ar_vars := ar_vars archive ++ [("SPECTRA", {| nc_data := ArrN 0; nc_attrs := ∅ |})];
  ar_coords := ar_coords archive;
  ar_attrs := ar_attrs archive
|}.

Abbreviation prepared_with_spectra :=
  (prepare "spectra.nc" (Some archive_with_spectra) empty_world).

Definition child_with_spectra : Child_NetCDF_File :=
  or_else (Child_init (num 0) (or_else prepared_with_spectra.1 no_parent)) no_child.

(** The same cruise with a variable of two dimensions that has no samples,
    ahead of the pressure *)
Definition archive_with_empty_rows : Archive := {|
  ar_vars := ("EMPTYV", {| nc_data := Arr2 [ []; []; [] ]; nc_attrs := ∅ |})
             :: ar_vars archive;
  ar_coords := ar_coords archive;
  ar_attrs := ar_attrs archive
|}.

Abbreviation prepared_with_empty_rows :=
  (prepare "empty.nc" (Some archive_with_empty_rows) empty_world).

Definition child_with_empty_rows : Child_NetCDF_File :=
  or_else (Child_init (num 0) (or_else prepared_with_empty_rows.1 no_parent)) no_child.

Abbreviation extracted_with_empty_rows :=
  (create_dataset_with_variables child_with_empty_rows prepared_with_empty_rows.2).

Definition archive_without_doi : Archive := {|
  ar_vars := ar_vars archive;
  ar_coords := ar_coords archive;
  ar_attrs := delete "doi" (ar_attrs archive)
|}.

End Cruise.

(** * The claims on the cruise *)

Import Cruise.

Ltac in_list := apply (bool_decide_unpack _); exact I.

(** C1 at the first station.  Its pressures are 0, 10, 20, 30: the window is
    from 0 up to 3, and of the temperatures 1, 2, 3, 4 the last, taken at the
    greatest pressure, is left out. *)
Lemma first_station_window :
  ∃ c, var_array (w_heap (extracted 0).2) (made 0) "TEMP" = Some (Arr1 c) ∧
       c !! 0 = Some (num 1) ∧ c !! 2 = Some (num 3) ∧ c !! 3 = None.
Proof.
  destruct (window_is_half_open (child 0) loaded (made 0) (extracted 0).2)
    as (row & i & j & _ & Hw & _ & _ & _ & _ & _ & _ & _ & _ & Hs).
  - reflexivity.
  - change (py_min [num 0; num 10; num 20; num 30] = Ok (num 0) ∧
            py_max [num 0; num 10; num 20; num 30] = Ok (num 30)).
    split; reflexivity.
  - reflexivity.
  - refine (run_ok (extracted 0) no_dataset _); reflexivity.
  - assert (Ok (i, j) = Ok (0, 3)) as [= -> ->].
    { transitivity (locate_window (child 0) loaded).1;
        [symmetry; exact (f_equal fst Hw) | reflexivity]. }
    destruct (Hs "TEMP" [num 1; num 2; num 3; num 4]) as (c & Hc & Hk & Hend).
    + in_list.
    + reflexivity.
    + exists c. split; [exact Hc|].
      split; [exact (Hk 0)|]. split; [exact (Hk 2)|exact Hend].
Defined.

(** C1, as it is stated, fails on the cruise that has [EMPTYV]: the station
    is extracted, its window is from 0 up to 3, the row of [EMPTYV] at the
    station has no elements, so that its elements from 0 up to 3 are none,
    and yet the child has three missing values for it: the frame, whose
    index the first column left empty, is indexed anew by the pressure. *)
Lemma empty_row_is_padded :
  ∃ ds w',
    extracted_with_empty_rows = (Ok ds, w') ∧
    (locate_window child_with_empty_rows prepared_with_empty_rows.2).1 = Ok (0, 3) ∧
    ("EMPTYV" ∈ data_vars (contents (parentFile child_with_empty_rows))) ∧
    var_array (w_heap prepared_with_empty_rows.2)
              (contents (parentFile child_with_empty_rows)) "EMPTYV"
    = Some (Arr2 [ []; []; [] ]) ∧
    station_row child_with_empty_rows (w_heap prepared_with_empty_rows.2) "EMPTYV"
    = Some [] ∧
    py_slice 0 3 ([] : list sample) = [] ∧
    var_array (w_heap w') ds "EMPTYV" = Some (Arr1 [NaN; NaN; NaN]).
Proof.
  exists (or_else extracted_with_empty_rows.1 no_dataset), extracted_with_empty_rows.2.
  split; [refine (run_ok extracted_with_empty_rows no_dataset _); reflexivity|].
  split; [reflexivity|]. split; [in_list|]. repeat split; reflexivity.
Qed.

(** C10 at the third station.  Its pressures are 30, 20, 10, 0: the maximum
    comes first, at 0, and the minimum last, at 3. *)
Lemma third_station_is_empty :
  ∃ ds w', create_dataset_with_variables (child 2) loaded = (Ok ds, w') ∧
           var_array (w_heap w') ds "PRES" = Some (Arr1 []).
Proof.
  destruct (reversed_window_is_empty (child 2) loaded [num 30; num 20; num 10; num 0] 3 0)
    as (ds & w' & Hc & Hp & Hall).
  - reflexivity.
  - reflexivity.
  - change (py_min [num 30; num 20; num 10; num 0] = Ok (num 0) ∧
            py_max [num 30; num 20; num 10; num 0] = Ok (num 30)).
    split; reflexivity.
  - reflexivity.
  - reflexivity.
  - reflexivity.
  - lia.
  - exists ds, w'. split; [exact Hc|]. exact (Hall _ Hp).
Defined.

(** C4 at the first station: the temperature's least valid value, -2500 in
    the parent, is -5/2 in the child; its greatest, 9 in the parent, is in
    the child the 64-bit float nearest to the product of 9 and the float
    0.001, which is a little more than 9/1000. *)
Lemma temperature_bounds_are_scaled :
  ∃ d', var_dict (w_heap (extracted 0).2) (made 0) "TEMP" = Some d' ∧
        d' !! "coverage_content_type" = Some (AStr "physicalMeasurement") ∧
        d' !! "valid_min" = Some (ANum (Num (-5 # 2))) ∧
        d' !! "valid_max"
        = Some (ANum (Num (1297036692682703 # 144115188075855872))).
Proof.
  destruct (physical_bounds_are_scaled (child 0) loaded (made 0) (extracted 0).2 "TEMP"
              [ [num 1; num 2; num 3; num 4]; [num 5; num 6; num 7; NaN];
                [num 8; num 9; num 10; num 11] ] temp_attrs)
    as (d' & Hd' & Hcov & Hk).
  - reflexivity.
  - refine (run_ok (extracted 0) no_dataset _); reflexivity.
  - in_list.
  - reflexivity.
  - reflexivity.
  - reflexivity.
  - reflexivity.
  - exists d'. split; [exact Hd'|]. split; [exact Hcov|].
    pose proof (Hk "valid_min" (or_introl eq_refl)) as Hmin.
    pose proof (Hk "valid_max" (or_intror eq_refl)) as Hmax.
    assert (temp_attrs !! "valid_min" = Some (ANum (num (-2500)))) as Emin by reflexivity.
    assert (temp_attrs !! "valid_max" = Some (ANum (num 9))) as Emax by reflexivity.
    rewrite Emin in Hmin. rewrite Emax in Hmax.
    destruct Hmin as (y1 & _ & Hl1 & Hq1). destruct Hmax as (y2 & _ & Hl2 & Hq2).
    split.
    + rewrite Hl1. f_equal. exact (Hq1 _ eq_refl).
    + rewrite Hl2. f_equal. exact (Hq2 _ eq_refl).
Defined.

(** C2, as amended, at the first station.  The temperature refers to
    [TEMP_QC], which is carried over, to [STATION], a data variable of the
    parent that is not, and to [TEMP_ADJ], which the parent does not have:
    only the last is cut. *)
Lemma only_the_unknown_reference_is_cut :
  ∃ d' s', var_dict (w_heap (extracted 0).2) (made 0) "TEMP" = Some d' ∧
           d' !! "ancillary_variables" = Some (AStr s') ∧
           split_on space s' = ["TEMP_QC"; "STATION"; EmptyString].
Proof.
  destruct (dangling_references_are_cut (child 0) loaded (made 0) (extracted 0).2 "TEMP"
              [ [num 1; num 2; num 3; num 4]; [num 5; num 6; num 7; NaN];
                [num 8; num 9; num 10; num 11] ] temp_attrs "TEMP_QC STATION TEMP_ADJ")
    as (d' & s' & Hd' & Hs' & Htok).
  - reflexivity.
  - refine (run_ok (extracted 0) no_dataset _); reflexivity.
  - in_list.
  - reflexivity.
  - reflexivity.
  - reflexivity.
  - reflexivity.
  - exists d', s'. split; [exact Hd'|]. split; [exact Hs'|].
    transitivity ((λ t, if bool_decide (t ∈ data_vars (contents (parentFile (child 0))))
                        then t else EmptyString)
                  <$> split_on space "TEMP_QC STATION TEMP_ADJ");
      [exact Htok | reflexivity].
Defined.

(** C2, as it is stated, fails at the first station: [STATION] has one
    dimension and is not carried over, and the temperature of the child still
    refers to it. *)
Lemma reference_to_a_skipped_variable_stays :
  ∃ ds w' d' s',
    create_dataset_with_variables (child 0) loaded = (Ok ds, w') ∧
    var_dict (w_heap w') ds "TEMP" = Some d' ∧
    d' !! "ancillary_variables" = Some (AStr s') ∧
    ("STATION" ∈ split_on space s') ∧
    ("STATION" ∉ (ds_vars ds).*1) ∧
    ("STATION" ∈ data_vars (contents cruise)).
Proof.
  exists (made 0), (extracted 0).2,
         (default ∅ (var_dict (w_heap (extracted 0).2) (made 0) "TEMP")),
         "TEMP_QC STATION ".
  split; [refine (run_ok (extracted 0) no_dataset _); reflexivity|].
  split; [refine (lookup_default _ ∅ _); reflexivity|].
  split; [reflexivity|]. split; [in_list|]. split; [|in_list].
  apply (bool_decide_eq_false_1 _). reflexivity.
Qed.

(** C6 on the cruise.  With [SPECTRA], of three dimensions, the first station
    ends the run with the message that names it; [STATION], of one dimension,
    is not a variable of the child. *)
Lemma spectra_stop_and_station_is_skipped :
  create_dataset_with_variables child_with_spectra prepared_with_spectra.2
  = (Raise (SystemExit (too_many_dimensions "SPECTRA")), prepared_with_spectra.2) ∧
  ("STATION" ∉ (ds_vars (made 0)).*1).
Proof.
  split.
  - destruct (dimensions_decide child_with_spectra prepared_with_spectra.2 "SPECTRA" (ArrN 0))
      as [Hmany _].
    + reflexivity.
    + in_list.
    + reflexivity.
    + destruct (Hmany (le_n 3)) as [_ Hexit].
      refine (proj1 (Hexit ["STATION"; "PRES"; "TEMP"; "TEMP_QC"; "PRES_DM"; "TEMP_DM"]
                           [] 0 3
                           (or_else (foldM ["STATION"; "PRES"; "TEMP"; "TEMP_QC"; "PRES_DM"; "TEMP_DM"]
                                       (add_column child_with_spectra 0 3) empty_frame
                                       prepared_with_spectra.2).1 empty_frame) _ _ _)).
      * reflexivity.
      * refine (locate_window_run child_with_spectra prepared_with_spectra.2
                 [ [num 0; num 10; num 20; num 30]; [num 5; num 15; num 25; NaN];
                   [num 30; num 20; num 10; num 0] ] [num 0; num 10; num 20; num 30] 0 3
                 _ _ _ _); reflexivity.
      * refine (add_columns_ok child_with_spectra 0 3 _ empty_frame _ _ _ _); reflexivity.
  - destruct (dimensions_decide (child 0) loaded "STATION" (Arr1 [num 501; num 502; num 503]))
      as [_ Hfew].
    + reflexivity.
    + in_list.
    + reflexivity.
    + refine (Hfew (le_n 2) (made 0) (extracted 0).2 (run_ok (extracted 0) no_dataset _)).
      reflexivity.
Defined.

(** C7, as amended, at the first station: the flags [R, A, D] of the data
    mode of the pressure become the three letters. *)
Lemma pressure_mode_flags :
  ∃ d', var_dict (w_heap (encoded 0).2) (finished 0) "PRES_DM" = Some d' ∧
        d' !! "flag_values" = Some (AArr ["R"; "A"; "D"]) ∧
        or_else (encoded 0).1 ∅ !! "PRES_DM"
        = Some {| dtype := "S1"; FillValue := FillStr " " |}.
Proof.
  destruct (flag_values_become_an_array (finished 0) (assigned 0).2
              (or_else (encoded 0).1 ∅) (encoded 0).2 "PRES_DM"
              {| v_data := 27; v_attrs := 35 |} pres_dm_attrs "R, A, D")
    as (d' & els & Hd' & Hf & Hels & _ & Henc).
  - refine (run_ok (encoded 0) ∅ _); reflexivity.
  - in_list.
  - reflexivity.
  - reflexivity.
  - reflexivity.
  - reflexivity.
  - reflexivity.
  - exists d'. split; [exact Hd'|]. split; [|exact Henc].
    rewrite Hf, Hels. reflexivity.
Defined.

(** The white space of Python's [string.whitespace]: tab, line feed, vertical
    tab, form feed, carriage return and space *)
Definition whitespace : list ascii :=
  Ascii.ascii_of_nat <$> [9; 10; 11; 12; 13; 32].

Definition has_whitespace (t : string) : bool :=
  existsb (λ c, has_char c t) whitespace.

(** C7, as it is stated, fails at the first station: the flags of the data
    mode of the temperature are [R], a comma, a tab and [A], and the second
    element of the array still has the tab. *)
Lemma tab_stays_in_flag_values :
  ∃ enc w' d' t,
    compute_encoding (finished 0) (assigned 0).2 = (Ok enc, w') ∧
    var_dict (w_heap w') (finished 0) "TEMP_DM" = Some d' ∧
    d' !! "flag_values" = Some (AArr ["R"; t]) ∧
    has_whitespace t = true.
Proof.
  exists (or_else (encoded 0).1 ∅), (encoded 0).2,
         (default ∅ (var_dict (w_heap (encoded 0).2) (finished 0) "TEMP_DM")),
         (tab +:+ "A").
  split; [refine (run_ok (encoded 0) ∅ _); reflexivity|].
  split; [refine (lookup_default _ ∅ _); reflexivity|]. split; reflexivity.
Qed.

(** C5 on the cruise without its [doi]: the run ends with an exception and no
    file is written. *)
Lemma no_doi_no_files :
  ∃ e w', main [("cruise.nc", Some archive_without_doi)] empty_world = (Raise e, w') ∧
          w_files w' = [].
Proof.
  destruct (missing_attribute_stops_the_archive "cruise.nc" archive_without_doi []
              empty_world "doi") as (e & w' & _ & Hfiles & Hmain).
  - in_list.
  - reflexivity.
  - exists e, w'. split; [exact Hmain|exact Hfiles].
Defined.

(** C8 on the cruise: after the three stations the temperatures of the parent
    are what they were, and its global attributes still have the [doi]. *)
Lemma parent_after_the_stations :
  is_ok stations.1 = true ∧
  var_array (w_heap stations.2) (contents cruise) "TEMP"
  = Some (Arr2 [ [num 1; num 2; num 3; num 4]; [num 5; num 6; num 7; NaN];
                 [num 8; num 9; num 10; num 11] ]) ∧
  ∃ d, at_dict stations.2 (ds_attrs (contents cruise)) d ∧ is_Some (d !! "doi").
Proof.
  destruct (parent_is_read_only "cruise.nc" (Some archive) empty_world cruise loaded
              [num 0; num 1; num 2] stations.1 stations.2)
    as (_ & _ & Harr & _ & (d & _ & Hd & Hdoi) & _).
  - refine (run_ok prepared no_parent _); reflexivity.
  - exact (surjective_pairing stations).
  - split; [reflexivity|]. split; [|exists d; split; [exact Hd|exact Hdoi]].
    apply Harr. reflexivity.
Defined.

(** C3 on the cruise: the DOI is in the acknowledgement and not in the
    summary. *)
Lemma cruise_summary_has_no_doi :
  ∃ d s, at_dict loaded (ds_attrs (contents cruise)) d ∧
         d !! "summary" = Some (AStr s) ∧
         str_in "10.21335/NMDC-1752779505" s = false ∧
         str_in "{self.contents.attrs[" s = true.
Proof.
  destruct (summary_keeps_the_placeholder "cruise.nc" archive empty_world cruise loaded)
    as (doi & summary & d & Hdoi & Hsum & Hd & _ & _ & Hs & _).
  - refine (run_ok prepared no_parent _); reflexivity.
  - assert (Some (AStr summary) = Some (AStr "CTD data of the cruise.")) as [= ->].
    { rewrite <- Hsum. reflexivity. }
    exists d, ("CTD data of the cruise." +:+ summary_suffix).
    split; [exact Hd|]. split; [exact Hs|]. split; reflexivity.
Defined.

(** C9 at the first station: the pressure is a variable of the file and has
    no encoding. *)
Lemma first_station_pressure_encoding :
  ("PRES" ∈ (ds_vars (finished 0)).*1) ∧ or_else (encoded 0).1 ∅ !! "PRES" = None.
Proof.
  destruct (pressure_is_left_without_encoding (child 0) loaded (made 0) (extracted 0).2
              (dict_of (w_heap (extracted 0).2 !! ds_attrs (contents (parentFile (child 0)))))
              (finished 0) (assigned 0).2 (or_else (encoded 0).1 ∅) (encoded 0).2)
    as (Hin & _ & _ & Hnone).
  - reflexivity.
  - refine (run_ok (extracted 0) no_dataset _); reflexivity.
  - refine (dict_at _ _ _); reflexivity.
  - refine (run_ok (assigned 0) no_dataset _); reflexivity.
  - refine (run_ok (encoded 0) ∅ _); reflexivity.
  - split; [exact Hin|exact Hnone].
Defined.
